(** * The darktable MCP bridge: mailbox transport, JSON codec, status channel

    A shallow embedding of the two Lua bridge scripts of the repository:

    - the bridge with the embedded JSON library ([json.encode], [json.decode],
      [process_commands], the upload and GUI request writers and
      [check_status]);
    - [tools/mcp-server/dt_mcp_bridge.lua], the single-slot poller
      ([check_command]).

    Lua strings are byte strings and are modelled by [string]; Lua 5.4
    integers by [Z]; tables by association lists; the mailbox directory by a
    finite map from paths to file contents.  Floating point numbers are kept
    as the numeral they were read from and are never computed with. *)

From Stdlib Require Import ZArith Ascii String List Lia Permutation Wf_nat.
From stdpp Require Import base option list strings pretty gmap.

Local Open Scope Z_scope.

(** ** Lua values *)

Inductive number :=
  | LInt (z : Z)
  | LFloat (lexeme : string).

#[warnings="-register-all"]
Inductive value :=
  | VNil
  | VBool (b : bool)
  | VNum (n : number)
  | VStr (s : string)
  | VTable (kvs : list (value * value)).

(** Outcome of a Lua computation: a value, an error raised with [error] (or by
    the runtime), or exhaustion of the recursion budget of the model. *)
Inductive result (E A : Type) :=
  | Ok (a : A)
  | Raise (e : E)
  | OutOfFuel.
Arguments Ok {E A} a.
Arguments Raise {E A} e.
Arguments OutOfFuel {E A}.

Definition rbind {E A B} (r : result E A) (k : A -> result E B) : result E B :=
  match r with
  | Ok a => k a
  | Raise e => Raise e
  | OutOfFuel => OutOfFuel
  end.

Notation "'let*' x ':=' r 'in' k" := (rbind r (fun x => k))
  (at level 10, x pattern, r at level 100, k at level 200).

(** The characters the scripts name by escape sequences. *)
Definition ch_quote : ascii := "034"%char.
Definition ch_backslash : ascii := "092"%char.
Definition ch_slash : ascii := "047"%char.
Definition ch_bs : ascii := "008"%char.
Definition ch_ff : ascii := "012"%char.
Definition ch_nl : ascii := "010"%char.
Definition ch_cr : ascii := "013"%char.
Definition ch_tab : ascii := "009"%char.

Definition str1 (c : ascii) : string := String c "".

(** Test data is written with single quotes; [dq] turns them into the double
    quotes of the wire format. *)
Fixpoint dq (s : string) : string :=
  match s with
  | EmptyString => EmptyString
  | String c t => String (if Ascii.eqb c "'"%char then ch_quote else c) (dq t)
  end.

(** Truthiness: everything except [nil] and [false]. *)
Definition truthy (v : value) : bool :=
  match v with
  | VNil | VBool false => false
  | _ => true
  end.

(** Raw equality of table keys.  Tables are compared by identity in Lua, and
    every table met as a key here is a fresh object, so a table key is equal
    to no other key. *)
Definition number_eqb (a b : number) : bool :=
  match a, b with
  | LInt x, LInt y => Z.eqb x y
  | LFloat x, LFloat y => String.eqb x y
  | _, _ => false
  end.

Definition raw_equal (a b : value) : bool :=
  match a, b with
  | VNil, VNil => true
  | VBool x, VBool y => Bool.eqb x y
  | VNum x, VNum y => number_eqb x y
  | VStr x, VStr y => String.eqb x y
  | _, _ => false
  end.

(** The entry stored under a key, for any payload type. *)
Fixpoint entry_of {A} (l : list (value * A)) (k : value) : option A :=
  match l with
  | [] => None
  | (k', a) :: rest => if raw_equal k' k then Some a else entry_of rest k
  end.

(** [t[k]] on a table without metatable. *)
Definition rawget (kvs : list (value * value)) (k : value) : value :=
  from_option id VNil (entry_of kvs k).

(** [t[k] = v]: replaces in place, appends a new key, and assigning [nil]
    removes the key. *)
Fixpoint rawset (kvs : list (value * value)) (k v : value)
  : list (value * value) :=
  match kvs with
  | [] => match v with VNil => [] | _ => [(k, v)] end
  | (k', v') :: rest =>
      if raw_equal k' k
      then match v with VNil => rest | _ => (k', v) :: rest end
      else (k', v') :: rawset rest k v
  end.

(** A table constructor [{ k1 = v1, ... }]: fields whose value is [nil] are
    not stored. *)
Definition table_of (fields : list (string * value)) : value :=
  VTable (fold_left (fun t kv => rawset t (VStr (fst kv)) (snd kv)) fields []).

(** The length operator [#t] on a sequence built by appending. *)
Fixpoint border_from (kvs : list (value * value)) (fuel : nat) (i : Z) : Z :=
  match fuel with
  | O => i
  | S f =>
      match rawget kvs (VNum (LInt (i + 1))) with
      | VNil => i
      | _ => border_from kvs f (i + 1)
      end
  end.

Definition lua_len (kvs : list (value * value)) : Z :=
  border_from kvs (length kvs) 0.

(** ** The host: what the scripts get from darktable and from the Lua runtime

    None of it is defined in the scripts themselves. *)
Record Host := {
  (** the state behind the [dt] API (database, tags, styles, selection) *)
  world : Type;
  (** [dt.configuration.config_dir] *)
  config_dir : string;
  (** the global [DT_MCP_DIR] read by the upload and GUI code *)
  DT_MCP_DIR : string;
  (** the chunk name Lua puts in front of error messages *)
  chunkname : string;
  (** [tostring] of a float, given the numeral it was read from *)
  float_tostring : string -> string;
  (** [tostring] of a table (its address) *)
  table_tostring : list (value * value) -> string;
  (** the traversal order of [pairs], which Lua leaves unspecified *)
  pairs_order : forall A : Type, list (value * A) -> list (value * A);
  pairs_order_perm : forall A (l : list (value * A)),
    Permutation (pairs_order A l) l;
  (** the bodies of the registered commands: they read and change the
      darktable state and either return a value or raise an error value *)
  dt_set_rating : value -> world -> result value value * world;
  dt_set_color_label : value -> world -> result value value * world;
  dt_attach_tag : value -> world -> result value value * world;
  dt_get_selection : value -> world -> result value value * world;
  dt_apply_style : value -> world -> result value value * world;
  (** [#dt.gui.selection()] *)
  selection_size : world -> nat;
  (** assignment to the [label] of a label widget: the text it shows, or the
      error value the widget raises for a value it does not accept *)
  label_text : value -> string + value;
  (** the loop of [check_command] over [json_args:gmatch(...)], which fills
      [args] from the text after the bar using Lua's pattern matcher and
      [tonumber]; it reads its argument only and raises nothing *)
  scan_args : string -> value;
}.

Definition handler (h : Host) : Type :=
  value -> world h -> result value value * world h.

Definition tostring (h : Host) (v : value) : string :=
  match v with
  | VNil => "nil"
  | VBool true => "true"
  | VBool false => "false"
  | VNum (LInt z) => pretty z
  | VNum (LFloat l) => float_tostring h l
  | VStr s => s
  | VTable kvs => table_tostring h kvs
  end.

(** The position Lua prepends to a string passed to [error], and to its own
    runtime errors. *)
Definition where_ (h : Host) (line : nat) : string :=
  chunkname h +:+ ":" +:+ pretty line +:+ ": ".

(** ** The embedded JSON library *)

(** *** [kind_of] *)

(** The loop [for _ in pairs(obj)] runs once per entry and only counts. *)
Fixpoint kind_of_loop (obj todo : list (value * value)) (i : Z) : string :=
  match todo with
  | [] => if Z.eqb i 1 then "table" else "array"
  | _ :: rest =>
      match rawget obj (VNum (LInt i)) with
      | VNil => "table"
      | _ => kind_of_loop obj rest (i + 1)
      end
  end.

Definition kind_of (obj : value) : string :=
  match obj with
  | VNil => "nil"
  | VBool _ => "boolean"
  | VNum _ => "number"
  | VStr _ => "string"
  | VTable kvs => kind_of_loop kvs kvs 1
  end.

(** *** [escape_str] *)

(** [s:gsub(c, repl)] for a one-character pattern without magic characters. *)
Fixpoint gsub_char (c : ascii) (repl : string) (s : string) : string :=
  match s with
  | EmptyString => EmptyString
  | String x t =>
      if Ascii.eqb x c then repl +:+ gsub_char c repl t
      else String x (gsub_char c repl t)
  end.

Definition in_char : list ascii :=
  [ch_backslash; ch_quote; ch_slash; ch_bs; ch_ff; ch_nl; ch_cr; ch_tab].
Definition out_char : list ascii :=
  [ch_backslash; ch_quote; ch_slash; "b"; "f"; "n"; "r"; "t"]%char.

Definition escape_str (s : string) : string :=
  fold_left
    (fun s io => gsub_char (fst io) (String ch_backslash (str1 (snd io))) s)
    (combine in_char out_char) s.

(** *** [json.encode] *)

Inductive encode_error :=
  | ArrayAsKey
  | TableAsKey.

Definition encode_error_line (e : encode_error) : nat :=
  match e with ArrayAsKey => 77%nat | TableAsKey => 85%nat end.

Definition encode_error_message (e : encode_error) : string :=
  match e with
  | ArrayAsKey => "Can't encode array as key."
  | TableAsKey => "Can't encode table as key."
  end.

(** [for i, val in ipairs(obj)]: the entries under 1, 2, ... up to the first
    missing index. *)
Fixpoint ipairs_from {A} (l : list (value * A)) (fuel : nat) (i : Z) : list A :=
  match fuel with
  | O => []
  | S f =>
      match entry_of l (VNum (LInt i)) with
      | None => []
      | Some a => a :: ipairs_from l f (i + 1)
      end
  end.

Definition ipairs {A} (l : list (value * A)) : list A :=
  ipairs_from l (length l) 1.

(** Runs the computations of a loop body in order; the first error ends it. *)
Fixpoint in_order {E A} (l : list (result E A)) : result E (list A) :=
  match l with
  | [] => Ok []
  | r :: rest =>
      let* a := r in
      let* others := in_order rest in
      Ok (a :: others)
  end.

(** [table.concat] of the pieces, with [', '] between two items. *)
Fixpoint join_items (l : list string) : string :=
  match l with
  | [] => ""
  | [x] => x
  | x :: rest => x +:+ ", " +:+ join_items rest
  end.

(** The encoder has no case for functions, userdata or threads; [value] has
    none of them, so the branch raising [Unjsonifiable type] is not met.  A
    table entry is encoded both as key and as value; the loop uses what its
    kind needs. *)
Fixpoint json_encode (h : Host) (as_key : bool) (obj : value)
  : result encode_error string :=
  match obj with
  | VTable kvs =>
      let encs :=
        (fix encode_entries (l : list (value * value)) :=
           match l with
           | [] => []
           | (k, v) :: rest =>
               (k, (json_encode h true k, json_encode h false v))
               :: encode_entries rest
           end) kvs in
      if String.eqb (kind_of obj) "array" then
        if as_key then Raise ArrayAsKey
        else
          let* items := in_order (map snd (ipairs encs)) in
          Ok ("[" +:+ join_items items +:+ "]")
      else
        if as_key then Raise TableAsKey
        else
          let* items :=
            in_order
              (map (fun e : value * (result encode_error string
                                     * result encode_error string) =>
                      let* k := fst (snd e) in
                      let* v := snd (snd e) in
                      Ok (k +:+ ":" +:+ v))
                   (pairs_order h _ encs)) in
          Ok ("{" +:+ join_items items +:+ "}")
  | VStr s => Ok (str1 ch_quote +:+ escape_str s +:+ str1 ch_quote)
  | VNum _ =>
      Ok (if as_key then str1 ch_quote +:+ tostring h obj +:+ str1 ch_quote
          else tostring h obj)
  | VBool _ => Ok (tostring h obj)
  | VNil => Ok "null"
  end.

(** *** Positions in a string

    The decoder works on the bytes of [str] with 1-based positions, as
    [str:sub(pos, pos)] does. *)

Definition char_at (cs : list ascii) (pos : nat) : option ascii :=
  match pos with
  | O => None
  | S i => cs !! i
  end.

Definition from_pos (cs : list ascii) (pos : nat) : list ascii :=
  drop (pos - 1) cs.

(** The class [%s]. *)
Definition is_space (c : ascii) : bool :=
  match c with
  | "009" | "010" | "011" | "012" | "013" | " " => true
  | _ => false
  end%char.

(** The class [%d]. *)
Definition is_digit (c : ascii) : bool :=
  match c with
  | "0" | "1" | "2" | "3" | "4" | "5" | "6" | "7" | "8" | "9" => true
  | _ => false
  end%char.

(** The longest prefix in a class, and what follows it: a greedy [class*]. *)
Fixpoint span (p : ascii -> bool) (cs : list ascii)
  : list ascii * list ascii :=
  match cs with
  | c :: rest =>
      if p c then let '(a, b) := span p rest in (c :: a, b) else ([], cs)
  | [] => ([], [])
  end.

(** A greedy [class?]. *)
Definition optional (p : ascii -> bool) (cs : list ascii)
  : list ascii * list ascii :=
  match cs with
  | c :: rest => if p c then ([c], rest) else ([], cs)
  | [] => ([], [])
  end.

(** [pos + #str:match('^%s*', pos)] *)
Definition skip_space (cs : list ascii) (pos : nat) : nat :=
  (pos + length (fst (span is_space (from_pos cs pos))))%nat.

(** *** Errors of the decoder: one constructor per call of [error] *)

Inductive json_error :=
  | ExpectedDelim (delim : ascii) (pos : nat)
  | EndOfString
  | BadNumber (pos : nat)
  | EndOfInput
  | CommaMissingObject
  | CommaMissingArray
  | InvalidSyntax (pos : nat).

Definition json_error_line (e : json_error) : nat :=
  match e with
  | ExpectedDelim _ _ => 47
  | EndOfString => 56
  | BadNumber _ => 69
  | EndOfInput => 112
  | CommaMissingObject => 121
  | CommaMissingArray => 132
  | InvalidSyntax _ => 148
  end%nat.

Definition json_error_message (e : json_error) : string :=
  match e with
  | ExpectedDelim delim pos =>
      "Expected " +:+ str1 delim +:+ " near position " +:+ pretty pos
  | EndOfString => "End of input found while parsing string."
  | BadNumber pos => "Error parsing number at position " +:+ pretty pos
  | EndOfInput => "Reached unexpected end of input."
  | CommaMissingObject => "Comma missing between object items."
  | CommaMissingArray => "Comma missing between array items."
  | InvalidSyntax pos => "Invalid JSON syntax starting at " +:+ pretty pos
  end.

(** The position an error message reports, when it reports one. *)
Definition json_error_offset (e : json_error) : option nat :=
  match e with
  | ExpectedDelim _ pos | BadNumber pos | InvalidSyntax pos => Some pos
  | EndOfString | EndOfInput | CommaMissingObject | CommaMissingArray => None
  end.

(** The error value [pcall] hands back: the message after the position of the
    [error] call. *)
Definition json_error_value (h : Host) (e : json_error) : value :=
  VStr (where_ h (json_error_line e) +:+ json_error_message e).

Definition encode_error_value (h : Host) (e : encode_error) : value :=
  VStr (where_ h (encode_error_line e) +:+ encode_error_message e).

(** *** [skip_delim] *)

Definition skip_delim (cs : list ascii) (pos : nat) (delim : ascii)
    (err_if_missing : bool) : result json_error (nat * bool) :=
  let pos := skip_space cs pos in
  if decide (char_at cs pos = Some delim) then Ok (S pos, true)
  else if err_if_missing then Raise (ExpectedDelim delim pos)
  else Ok (pos, false).

(** *** [parse_str_val]

    The recursion runs over the bytes from [pos] on; [rest] is
    [str:sub(pos)].  After a backslash the next byte is appended as it is. *)
Fixpoint parse_str_val_from (rest : list ascii) (pos : nat) (val : string)
  : result json_error (value * nat) :=
  match rest with
  | [] => Raise EndOfString
  | c :: rest' =>
      if Ascii.eqb c ch_quote then Ok (VStr val, S pos)
      else if negb (Ascii.eqb c ch_backslash)
      then parse_str_val_from rest' (S pos) (val +:+ str1 c)
      else
        match rest' with
        | [] => Raise EndOfString
        | next_c :: rest'' =>
            parse_str_val_from rest'' (S (S pos)) (val +:+ str1 next_c)
        end
  end.

Definition parse_str_val (cs : list ascii) (pos : nat)
  : result json_error (value * nat) :=
  parse_str_val_from (from_pos cs pos) pos "".

(** *** [parse_num_val] *)

(** The parts of a match of ['^-?%d+%.?%d*[eE]?[+-]?%d*'].  Every item after
    the first run of digits may match nothing, so the greedy match succeeds
    without backtracking whenever a digit follows the optional sign. *)
Record numeral := {
  n_sign : list ascii;
  n_int : list ascii;
  n_dot : list ascii;
  n_frac : list ascii;
  n_e : list ascii;
  n_esign : list ascii;
  n_exp : list ascii;
}.

Definition numeral_text (n : numeral) : list ascii :=
  n_sign n ++ n_int n ++ n_dot n ++ n_frac n ++ n_e n ++ n_esign n ++ n_exp n.

Definition is_char (c : ascii) : ascii -> bool := Ascii.eqb c.
Definition is_e (c : ascii) : bool := Ascii.eqb c "e" || Ascii.eqb c "E".
Definition is_plus_minus (c : ascii) : bool :=
  Ascii.eqb c "+" || Ascii.eqb c "-".

Definition match_number (cs : list ascii) : option numeral :=
  let '(sign, r) := optional (is_char "-") cs in
  let '(int, r) := span is_digit r in
  match int with
  | [] => None
  | _ =>
      let '(dot, r) := optional (is_char ".") r in
      let '(frac, r) := span is_digit r in
      let '(e, r) := optional is_e r in
      let '(esign, r) := optional is_plus_minus r in
      let '(exp, _) := span is_digit r in
      Some {| n_sign := sign; n_int := int; n_dot := dot; n_frac := frac;
              n_e := e; n_esign := esign; n_exp := exp |}
  end.

Definition digit_value (c : ascii) : Z := Z.of_nat (nat_of_ascii c) - 48.

Definition digits_value (ds : list ascii) : Z :=
  fold_left (fun a d => 10 * a + digit_value d) ds 0.

Definition is_nil {A} (l : list A) : bool :=
  match l with [] => true | _ => false end.

(** [tonumber] on a matched numeral.  Digits alone give an integer when it
    fits in 64 bits and a float otherwise; an exponent needs digits; a sign
    without exponent letter is no number. *)
Definition tonumber (n : numeral) : option number :=
  let text := string_of_list_ascii (numeral_text n) in
  if is_nil (n_dot n) && is_nil (n_e n) && is_nil (n_esign n) then
    let v := digits_value (n_int n) in
    let z := if is_nil (n_sign n) then v else - v in
    if (- 2 ^ 63 <=? z) && (z <? 2 ^ 63) then Some (LInt z)
    else Some (LFloat text)
  else if is_nil (n_e n) then
    if is_nil (n_esign n) then Some (LFloat text) else None
  else
    if is_nil (n_exp n) then None else Some (LFloat text).

Definition parse_num_val (cs : list ascii) (pos : nat)
  : result json_error (value * nat) :=
  match match_number (from_pos cs pos) with
  | None => Raise (BadNumber pos)
  | Some num_str =>
      match tonumber num_str with
      | None => Raise (BadNumber pos)
      | Some val => Ok (VNum val, (pos + length (numeral_text num_str))%nat)
      end
  end.

(** *** [json.decode]

    [decode] is the function itself, [decode_object] and [decode_array] are
    its two [while true] loops.  The table [literals] holds ['true'] and
    ['false'] only: a field written with the value [nil] is not stored, so
    ['null'] is not among the literals the loop tries. *)

Definition starts_with (lit : string) (cs : list ascii) : bool :=
  bool_decide (take (String.length lit) cs = list_ascii_of_string lit).

Fixpoint decode (fuel : nat) (cs : list ascii) (pos : nat)
    (end_delim : option ascii) {struct fuel} : result json_error (value * nat) :=
  match fuel with
  | O => OutOfFuel
  | S fuel =>
      if decide (length cs < pos)%nat then Raise EndOfInput
      else
        let pos := skip_space cs pos in
        let first := char_at cs pos in
        if decide (first = Some "{"%char)
        then decode_object fuel cs (S pos) [] true
        else if decide (first = Some "["%char)
        then decode_array fuel cs (S pos) [] true
        else if decide (first = Some ch_quote)
        then parse_str_val cs (S pos)
        else if bool_decide (first = Some "-"%char)
                || from_option is_digit false first
        then parse_num_val cs pos
        else if bool_decide (is_Some first /\ first = end_delim)
        then Ok (VNil, S pos)
        else if starts_with "true" (from_pos cs pos)
        then Ok (VBool true, (pos + 4)%nat)
        else if starts_with "false" (from_pos cs pos)
        then Ok (VBool false, (pos + 5)%nat)
        else Raise (InvalidSyntax pos)
  end
with decode_object (fuel : nat) (cs : list ascii) (pos : nat)
    (obj : list (value * value)) (delim_found : bool) {struct fuel}
  : result json_error (value * nat) :=
  match fuel with
  | O => OutOfFuel
  | S fuel =>
      let* (key, pos) := decode fuel cs pos (Some "}"%char) in
      match key with
      | VNil => Ok (VTable obj, pos)
      | _ =>
          if negb delim_found then Raise CommaMissingObject
          else
            let* (pos, _) := skip_delim cs pos ":" true in
            let* (v, pos) := decode fuel cs pos None in
            let obj := rawset obj key v in
            let* (pos, delim_found) := skip_delim cs pos "," false in
            decode_object fuel cs pos obj delim_found
      end
  end
with decode_array (fuel : nat) (cs : list ascii) (pos : nat)
    (arr : list (value * value)) (delim_found : bool) {struct fuel}
  : result json_error (value * nat) :=
  match fuel with
  | O => OutOfFuel
  | S fuel =>
      let* (val, pos) := decode fuel cs pos (Some "]"%char) in
      match val with
      | VNil => Ok (VTable arr, pos)
      | _ =>
          if negb delim_found then Raise CommaMissingArray
          else
            let arr := rawset arr (VNum (LInt (lua_len arr + 1))) val in
            let* (pos, delim_found) := skip_delim cs pos "," false in
            decode_array fuel cs pos arr delim_found
      end
  end.

(** Every call that returns has consumed a byte, and the loops take one step
    per call, so this budget is never used up (see [decode_budget_enough]). *)
Definition decode_budget (cs : list ascii) : nat := (2 * length cs + 2)%nat.

(** [json.decode(str)] *)
Definition json_decode (str : string) : result json_error (value * nat) :=
  let cs := list_ascii_of_string str in
  decode (decode_budget cs) cs 1 None.

(** ** The mailbox directory and the effects of a script *)

(** What a script does to the outside, in the order it does it.  Opening a
    file for writing creates or truncates it; the bytes arrive when the
    handle is written and closed. *)
Inductive event :=
  | EvCreate (path : string)
  | EvWrite (path : string) (data : string)
  | EvRename (src dst : string) (ok : bool)
  | EvRemove (path : string)
  | EvLog (msg : string)
  | EvPrint (msg : string).

Record machine (h : Host) := Machine {
  (** the directory: path to content *)
  files : gmap string string;
  (** every event so far, oldest first, with the directory right after it *)
  journal : list (event * gmap string string);
  (** the darktable state the commands work on *)
  dt : world h;
  (** [dt.preferences] of the script, by name *)
  prefs : gmap string string;
  (** the widgets of the panel *)
  status_cloud_label : string;
  entry_remote_text : string;
  entry_sensitivity_text : string;
}.
Arguments Machine {h}.
Arguments files {h}.
Arguments journal {h}.
Arguments dt {h}.
Arguments prefs {h}.
Arguments status_cloud_label {h}.
Arguments entry_remote_text {h}.
Arguments entry_sensitivity_text {h}.

(** A script action: it may raise a Lua error value, and what it did before
    stays done. *)
Definition M (h : Host) (A : Type) : Type :=
  machine h -> result value A * machine h.

Definition ret {h A} (a : A) : M h A := fun m => (Ok a, m).

Definition bind {h A B} (c : M h A) (k : A -> M h B) : M h B :=
  fun m =>
    match c m with
    | (Ok a, m') => k a m'
    | (Raise e, m') => (Raise e, m')
    | (OutOfFuel, m') => (OutOfFuel, m')
    end.

Notation "'let!' x ':=' c 'in' k" := (bind c (fun x => k))
  (at level 10, x pattern, c at level 100, k at level 200).
Notation "c ';;' k" := (bind c (fun _ => k))
  (at level 100, k at level 200, right associativity).

Definition raise {h A} (e : value) : M h A := fun m => (Raise e, m).

(** Runs a pure computation whose errors are Lua values. *)
Definition lift {h A} (r : result value A) : M h A := fun m => (r, m).

(** The machine after one more event that leaves the directory as [fs]. *)
Definition after {h} (ev : event) (fs : gmap string string) (m : machine h)
  : machine h :=
  Machine fs (journal m ++ [(ev, fs)]) (dt m) (prefs m)
    (status_cloud_label m) (entry_remote_text m) (entry_sensitivity_text m).

Definition record {h} (ev : event) (fs : gmap string string) : M h unit :=
  fun m => (Ok tt, after ev fs m).

Definition get_files {h} : M h (gmap string string) :=
  fun m => (Ok (files m), m).

(** [io.open(path, "r")]: whether the file is there. *)
Definition io_open_r {h} (path : string) : M h bool :=
  let! fs := get_files in
  ret (bool_decide (is_Some (fs !! path))).

(** [f:read("*all")] on a file that was opened. *)
Definition read_all {h} (path : string) : M h string :=
  let! fs := get_files in
  ret (default "" (fs !! path)).

(** [io.open(path, "w")].  An open that fails (a directory that cannot be
    written) is not part of the model: the handle is always there. *)
Definition io_open_w {h} (path : string) : M h bool :=
  let! fs := get_files in
  record (EvCreate path) (<[path := ""]> fs);;
  ret true.

(** [f:write(content)] and [f:close()] *)
Definition write_close {h} (path content : string) : M h unit :=
  let! fs := get_files in
  record (EvWrite path content) (<[path := content]> fs).

(** The directory after [rename(src, dst)], when [src] exists. *)
Definition renamed (src dst : string) (fs : gmap string string)
  : option (gmap string string) :=
  match fs !! src with
  | Some content => Some (<[dst := content]> (delete src fs))
  | None => None
  end.

(** [os.rename(src, dst)]: all or nothing; without [src] it returns [nil] and
    the system's message. *)
Definition os_rename {h} (src dst : string) : M h (bool * value) :=
  let! fs := get_files in
  match renamed src dst fs with
  | Some fs' =>
      record (EvRename src dst true) fs';;
      ret (true, VNil)
  | None =>
      record (EvRename src dst false) fs;;
      ret (false, VStr (src +:+ ": No such file or directory"))
  end.

(** [os.remove(path)]; its result is not looked at. *)
Definition os_remove {h} (path : string) : M h unit :=
  let! fs := get_files in
  record (EvRemove path) (delete path fs).

(** [dt.print_log("[MCP Bridge] " .. tostring(msg))] *)
Definition log {h} (msg : string) : M h unit :=
  let! fs := get_files in
  record (EvLog ("[MCP Bridge] " +:+ msg)) fs.

(** [dt.print(msg)] *)
Definition dt_print {h} (msg : string) : M h unit :=
  let! fs := get_files in
  record (EvPrint msg) fs.

(** [pcall(f, args)] on a command: the darktable state keeps what the command
    did; an error becomes the second result. *)
Definition pcall_command {h} (f : handler h) (args : value)
  : M h (bool * value) :=
  fun m =>
    let '(r, w) := f args (dt m) in
    let m' := Machine (files m) (journal m) w (prefs m)
                (status_cloud_label m) (entry_remote_text m)
                (entry_sensitivity_text m) in
    match r with
    | Ok v => (Ok (true, v), m')
    | Raise e => (Ok (false, e), m')
    | OutOfFuel => (OutOfFuel, m')
    end.

(** The machine with another text in the status label. *)
Definition labelled {h} (text : string) (m : machine h) : machine h :=
  Machine (files m) (journal m) (dt m) (prefs m) text
    (entry_remote_text m) (entry_sensitivity_text m).

Definition set_status_cloud_label {h} (text : string) : M h unit :=
  fun m => (Ok tt, labelled text m).

Definition preferences_write {h} (name text : string) : M h unit :=
  fun m =>
    (Ok tt,
     Machine (files m) (journal m) (dt m) (<[name := text]> (prefs m))
       (status_cloud_label m) (entry_remote_text m)
       (entry_sensitivity_text m)).

Definition type_name (v : value) : string :=
  match v with
  | VNil => "nil"
  | VBool _ => "boolean"
  | VNum _ => "number"
  | VStr _ => "string"
  | VTable _ => "table"
  end.

(** [t.field] for the fields read by the scripts ([cmd], [args], [message]):
    a table gives its entry, a string gives [nil] (the string library has no
    such member), anything else cannot be indexed. *)
Definition index (h : Host) (line : nat) (var : string) (t : value)
    (field : string) : result value value :=
  match t with
  | VTable kvs => Ok (rawget kvs (VStr field))
  | VStr _ => Ok VNil
  | _ =>
      Raise (VStr (where_ h line +:+ "attempt to index a " +:+ type_name t
                   +:+ " value (local '" +:+ var +:+ "')"))
  end.

(** ** The bridge with the embedded JSON library *)

Definition MCP_DIR (h : Host) : string := config_dir h +:+ "/mcp".
Definition CMD_FILE (h : Host) : string := MCP_DIR h +:+ "/cmd.json".
Definition PROC_FILE (h : Host) : string := MCP_DIR h +:+ "/processing.json".
Definition RESP_TMP_FILE (h : Host) : string :=
  MCP_DIR h +:+ "/response.json.tmp".
Definition RESP_FILE (h : Host) : string := MCP_DIR h +:+ "/response.json".

(** The table [commands]. *)
Definition commands (h : Host) (name : value) : option (handler h) :=
  match name with
  | VStr n =>
      if String.eqb n "set_rating" then Some (dt_set_rating h)
      else if String.eqb n "set_color_label" then Some (dt_set_color_label h)
      else if String.eqb n "attach_tag" then Some (dt_attach_tag h)
      else if String.eqb n "get_selection" then Some (dt_get_selection h)
      else if String.eqb n "apply_style" then Some (dt_apply_style h)
      else None
  | _ => None
  end.

Definition read_file {h} (path : string) : M h (option string) :=
  let! f := io_open_r path in
  if negb f then ret None
  else
    let! content := read_all path in
    ret (Some content).

Definition write_file {h} (path content : string) : M h unit :=
  let! f := io_open_w path in
  if negb f then ret tt
  else write_close path content.

(** [pcall(json.decode, content)] *)
Definition pcall_decode {h} (content : string) : M h (bool * value) :=
  match json_decode content with
  | Ok (v, _) => ret (true, v)
  | Raise e => ret (false, json_error_value h e)
  | OutOfFuel => lift OutOfFuel
  end.

(** [json.encode(obj)] called outside [pcall]. *)
Definition encode_or_raise {h} (obj : value) : M h string :=
  match json_encode h false obj with
  | Ok s => ret s
  | Raise e => raise (encode_error_value h e)
  | OutOfFuel => lift OutOfFuel
  end.

(** Lines 266 to 292 of [process_commands]: from the payload to
    [result_payload]. *)
Definition build_result_payload (h : Host) (content : string) : M h value :=
  let! (status_parse, res_parse) := pcall_decode content in
  if status_parse && truthy res_parse then
    let request := res_parse in
    let! cmd_name := lift (index h 273 "request" request "cmd") in
    let! args_field := lift (index h 274 "request" request "args") in
    let args := if truthy args_field then args_field else VTable [] in
    match commands h cmd_name with
    | Some command =>
        log ("Executing command: " +:+ tostring h cmd_name);;
        let! (status_exec, res_exec) := pcall_command command args in
        if status_exec then
          ret (table_of [("status", VStr "ok"); ("data", res_exec)])
        else
          let result_payload :=
            table_of [("status", VStr "error");
                      ("error", VStr (tostring h res_exec))] in
          log ("Command error: " +:+ tostring h res_exec);;
          ret result_payload
    | None =>
        let result_payload :=
          table_of [("status", VStr "error");
                    ("error",
                     VStr ("Unknown command: " +:+ tostring h cmd_name))] in
        log ("Unknown command: " +:+ tostring h cmd_name);;
        ret result_payload
    end
  else
    let result_payload :=
      table_of [("status", VStr "error");
                ("error",
                 VStr ("JSON parse error: " +:+ tostring h res_parse))] in
    log "JSON parse error";;
    ret result_payload.

(** Lines 257 to 305: the script owns [PROC_FILE]. *)
Definition process_claimed (h : Host) : M h unit :=
  let! content := read_file (PROC_FILE h) in
  match content with
  | None | Some EmptyString => os_remove (PROC_FILE h)
  | Some content =>
      log ("Received command payload: " +:+ content);;
      let! result_payload := build_result_payload h content in
      let! resp_str := encode_or_raise result_payload in
      write_file (RESP_TMP_FILE h) resp_str;;
      let! _ := os_rename (RESP_TMP_FILE h) (RESP_FILE h) in
      os_remove (PROC_FILE h)
  end.

(** Lines 248 to 305: the rename that claims, and what follows it. *)
Definition claim_and_process (h : Host) : M h unit :=
  let! (success, err) := os_rename (CMD_FILE h) (PROC_FILE h) in
  if negb success then
    log ("Failed to rename command file: " +:+ tostring h err)
  else process_claimed h.

(** [process_commands], run by the poller every 250 ms. *)
Definition process_commands (h : Host) : M h unit :=
  let! f := io_open_r (CMD_FILE h) in
  if negb f then ret tt
  else claim_and_process h.

(** *** The upload storage and the panel *)

(** [DT_MCP_DIR .. "/upload_" .. timestamp .. "_" .. image.id .. ".json"] *)
Definition upload_request_path (h : Host) (timestamp image_id : Z) : string :=
  DT_MCP_DIR h +:+ "/upload_" +:+ pretty timestamp +:+ "_"
  +:+ pretty image_id +:+ ".json".

(** [DT_MCP_DIR .. "/gui_request_" .. os.time() .. ".json"] *)
Definition gui_request_path (h : Host) (now : Z) : string :=
  DT_MCP_DIR h +:+ "/gui_request_" +:+ pretty now +:+ ".json".

Definition get_prefs {h} : M h (gmap string string) :=
  fun m => (Ok (prefs m), m).

(** The store callback of the storage [mcp_cloud]; [timestamp] is what
    [os.time()] returns when it runs. *)
Definition store_upload (h : Host) (timestamp image_id : Z)
    (filename : string) : M h unit :=
  let! p := get_prefs in
  let remote := default "remote:photos" (p !! "cloud_remote") in
  let upload_req :=
    table_of [("source_file", VStr filename); ("target", VStr "cloud");
              ("target_remote", VStr remote);
              ("img_id", VNum (LInt image_id))] in
  let unique_file := upload_request_path h timestamp image_id in
  let! f := io_open_w unique_file in
  if f then
    let! text := encode_or_raise upload_req in
    write_close unique_file text;;
    log ("Queued upload: " +:+ unique_file)
  else log "Failed to write upload request".

Definition save_settings {h} : M h unit :=
  fun m =>
    (preferences_write "cloud_remote" (entry_remote_text m);;
     preferences_write "ai_sensitivity" (entry_sensitivity_text m)) m.

Definition gui_request (h : Host) (tool : string) : M h value :=
  fun m =>
    (Ok (table_of
           [("tool", VStr tool);
            ("args",
             table_of [("ai_sensitivity", VStr (entry_sensitivity_text m))])]),
     m).

Definition get_selection_size {h} : M h nat :=
  fun m => (Ok (selection_size h (dt m)), m).

(** The [clicked] callback of [btn_tag]; [now] is what [os.time()] returns. *)
Definition mcp_btn_tag_clicked (h : Host) (now : Z) : M h unit :=
  let! n := get_selection_size in
  save_settings;;
  if decide (0 < n)%nat then
    log ("UI: Triggering Auto-Tag for " +:+ pretty n +:+ " images");;
    let! req := gui_request h "auto_tag_selection" in
    let q := gui_request_path h now in
    let! f := io_open_w q in
    if f then
      let! text := encode_or_raise req in
      write_close q text;;
      set_status_cloud_label "Auto-Tag requested..."
    else ret tt
  else dt_print "No images selected".

(** The [clicked] callback of [btn_cull]. *)
Definition mcp_btn_cull_clicked (h : Host) (now : Z) : M h unit :=
  let! n := get_selection_size in
  save_settings;;
  if decide (0 < n)%nat then
    let! req := gui_request h "cull_selection" in
    let q := gui_request_path h now in
    let! f := io_open_w q in
    if f then
      let! text := encode_or_raise req in
      write_close q text;;
      set_status_cloud_label "Culling requested..."
    else ret tt
  else dt_print "No images selected".

Definition status_file (h : Host) : string := DT_MCP_DIR h +:+ "/gui_status.json".

Definition offline_label : string := "Server Offline (No Status)".

(** [status_cloud.label = v] *)
Definition assign_status_cloud_label {h} (v : value) : M h unit :=
  match label_text h v with
  | inl text => set_status_cloud_label text
  | inr e => raise e
  end.

(** [check_status]: [json.decode] is called as it is, not under [pcall]. *)
Definition check_status (h : Host) : M h unit :=
  let sfile := status_file h in
  let! f := io_open_r sfile in
  if f then
    let! content := read_all sfile in
    match json_decode content with
    | Ok (status, _) =>
        if truthy status then
          let! message := lift (index h 473 "status" status "message") in
          if truthy message then assign_status_cloud_label message
          else ret tt
        else ret tt
    | Raise e => raise (json_error_value h e)
    | OutOfFuel => lift OutOfFuel
    end
  else set_status_cloud_label offline_label.

(** ** The single-slot poller, [tools/mcp-server/dt_mcp_bridge.lua]

    It uses the same directory and the files [cmd.json] and [response.json];
    its three commands have the bodies of their namesakes above. *)
Module Legacy.

Definition commands (h : Host) (name : string) : option (handler h) :=
  if String.eqb name "set_rating" then Some (dt_set_rating h)
  else if String.eqb name "attach_tag" then Some (dt_attach_tag h)
  else if String.eqb name "apply_style" then Some (dt_apply_style h)
  else None.

(** The match of [content] against the pattern of line 109, a lazy capture
    up to a bar and a greedy capture of the rest: the text before the first
    bar and the text after it. *)
Fixpoint split_bar (s : string) : option (string * string) :=
  match s with
  | EmptyString => None
  | String c t =>
      if Ascii.eqb c "|" then Some (EmptyString, t)
      else
        match split_bar t with
        | Some (a, b) => Some (String c a, b)
        | None => None
        end
  end.

Definition ok_response (h : Host) (result : value) : string :=
  dq "{'status': 'ok', 'data': '" +:+ tostring h result +:+ dq "'}".

Definition error_response (h : Host) (result : value) : string :=
  dq "{'status': 'error', 'error': '" +:+ tostring h result +:+ dq "'}".

Definition check_command (h : Host) : M h unit :=
  let! content := read_file (CMD_FILE h) in
  match content with
  | None | Some EmptyString => ret tt
  | Some content =>
      write_file (CMD_FILE h) "";;
      match split_bar content with
      | None => ret tt
      | Some (cmd_name, json_args) =>
          let args := scan_args h json_args in
          let! (status, result) :=
            match commands h cmd_name with
            | Some command => pcall_command command args
            | None =>
                ret (false, VStr ("Unknown command: " +:+ cmd_name))
            end in
          let resp_str :=
            if status then ok_response h result
            else error_response h result in
          write_file (RESP_FILE h) resp_str
      end
  end.

End Legacy.

(** ** Pollers that race for one request

    Several pollers on one directory, each taking one system call at a time
    in an order the schedule gives.  Nothing else writes to the directory. *)

Fixpoint run_pool {C} (step : C -> gmap string string -> C * gmap string string)
    (schedule : list nat) (pool : list C) (fs : gmap string string)
  : list C * gmap string string :=
  match schedule with
  | [] => (pool, fs)
  | i :: rest =>
      match pool !! i with
      | Some c =>
          let '(c', fs') := step c fs in
          run_pool step rest (<[i := c']> pool) fs'
      | None => run_pool step rest pool fs
      end
  end.

(** The claim of [process_commands]: the existence check, then the rename. *)
Inductive claimer :=
  | AtOpen
  | AtRename
  | Owner
  | Idle.

Definition claim_step (h : Host) (c : claimer) (fs : gmap string string)
  : claimer * gmap string string :=
  match c with
  | AtOpen =>
      if bool_decide (is_Some (fs !! CMD_FILE h)) then (AtRename, fs)
      else (Idle, fs)
  | AtRename =>
      match renamed (CMD_FILE h) (PROC_FILE h) fs with
      | Some fs' => (Owner, fs')
      | None => (Idle, fs)
      end
  | Owner | Idle => (c, fs)
  end.

Definition is_owner (c : claimer) : bool :=
  match c with Owner => true | _ => false end.

Definition owners (pool : list claimer) : nat :=
  length (filter (fun c => is_owner c = true) pool).

(** The claim of [Legacy.check_command]: the read, then the write that
    empties the file. *)
Inductive legacy_claimer :=
  | LAtRead
  | LAtClear (content : string)
  | LOwner (content : string)
  | LIdle.

Definition legacy_claim_step (h : Host) (c : legacy_claimer)
    (fs : gmap string string) : legacy_claimer * gmap string string :=
  match c with
  | LAtRead =>
      match fs !! CMD_FILE h with
      | None | Some EmptyString => (LIdle, fs)
      | Some content => (LAtClear content, fs)
      end
  | LAtClear content => (LOwner content, <[CMD_FILE h := ""]> fs)
  | LOwner _ | LIdle => (c, fs)
  end.

Definition is_legacy_owner (c : legacy_claimer) : bool :=
  match c with LOwner _ => true | _ => false end.

Definition legacy_owners (pool : list legacy_claimer) : nat :=
  length (filter (fun c => is_legacy_owner c = true) pool).

(** ** What the journal shows *)

(** The publications of a response: renames that put a file at the final
    response path. *)
Definition is_publish (h : Host) (e : event * gmap string string) : bool :=
  match fst e with
  | EvRename src dst true =>
      String.eqb src (RESP_TMP_FILE h) && String.eqb dst (RESP_FILE h)
  | _ => false
  end.

Definition publications {h} (m : machine h) : nat :=
  length (filter (fun e => is_publish h e = true) (journal m)).

(** The successful claims: renames of the request into the claimed path. *)
Definition is_claim (h : Host) (e : event * gmap string string) : bool :=
  match fst e with
  | EvRename src dst true =>
      String.eqb src (CMD_FILE h) && String.eqb dst (PROC_FILE h)
  | _ => false
  end.

Definition claims {h} (m : machine h) : nat :=
  length (filter (fun e => is_claim h e = true) (journal m)).

(** What a reader of the final response path could find, at any moment during
    the events of the journal. *)
Definition response_views {h} (m : machine h) : list (option string) :=
  map (fun e : event * gmap string string => snd e !! RESP_FILE h) (journal m).

(** The values [request.cmd] can be read from. *)
Definition indexable (v : value) : bool :=
  match v with
  | VTable _ | VStr _ => true
  | _ => false
  end.

Definition is_ok {E A} (r : result E A) : bool :=
  match r with Ok _ => true | _ => false end.

(** The payloads [process_commands] has an answer for, in the darktable state
    [w]: those that do not decode, those that decode to [false], and those
    that decode to a table or a string, provided that what the command
    returns, if a command is run and returns, can be encoded. *)
Definition answerable (h : Host) (content : string) (w : world h) : bool :=
  match json_decode content with
  | Ok (request, _) =>
      if truthy request then
        match index h 273 "request" request "cmd",
              index h 274 "request" request "args" with
        | Ok cmd_name, Ok args_field =>
            let args := if truthy args_field then args_field else VTable [] in
            match commands h cmd_name with
            | Some command =>
                match fst (command args w) with
                | Ok res =>
                    is_ok (json_encode h false
                             (table_of [("status", VStr "ok"); ("data", res)]))
                | Raise _ => true
                | OutOfFuel => false
                end
            | None => true
            end
        | _, _ => false
        end
      else true
  | Raise _ => true
  | OutOfFuel => false
  end.

(** The machine after the four steps that publish [resp_str]: the temporary
    file is created, written, renamed to the final path, and the claimed
    file is removed. *)
Definition publish_run (h : Host) (resp_str : string) (m : machine h)
  : machine h :=
  let fs1 := <[RESP_TMP_FILE h := ""]> (files m) in
  let fs2 := <[RESP_TMP_FILE h := resp_str]> fs1 in
  let fs3 := <[RESP_FILE h := resp_str]> (delete (RESP_TMP_FILE h) fs2) in
  let fs4 := delete (PROC_FILE h) fs3 in
  after (EvRemove (PROC_FILE h)) fs4
    (after (EvRename (RESP_TMP_FILE h) (RESP_FILE h) true) fs3
       (after (EvWrite (RESP_TMP_FILE h) resp_str) fs2
          (after (EvCreate (RESP_TMP_FILE h)) fs1 m))).


(** ** A host and a directory to run the scripts on *)

Definition sample_command (name : string) (args : value) (w : unit)
  : result value value * unit :=
  match args with
  | VTable kvs =>
      match rawget kvs (VStr "img_id") with
      | VNum (LInt 42) =>
          (Ok (table_of [("success", VBool true);
                         ("id", VNum (LInt 42));
                         ("did", VStr name)]), w)
      | id =>
          (Raise (VStr ("mcp_bridge.lua:162: Image not found: "
                        +:+ match id with
                            | VNum (LInt z) => pretty z
                            | _ => "?"
                            end)), w)
      end
  | _ => (Raise (VStr "attempt to index a non-table value"), w)
  end.

Definition sample_host : Host := {|
  world := unit;
  config_dir := "/home/user/.config/darktable";
  DT_MCP_DIR := "/home/user/.config/darktable/mcp";
  chunkname := "mcp_bridge.lua";
  float_tostring := fun lexeme => lexeme;
  table_tostring := fun _ => "table: 0x5581d0a3c2f0";
  pairs_order := fun _ l => l;
  pairs_order_perm := fun _ l => Permutation_refl l;
  dt_set_rating := sample_command "set_rating";
  dt_set_color_label := sample_command "set_color_label";
  dt_attach_tag := sample_command "attach_tag";
  dt_get_selection := fun _ w => (Ok (VTable []), w);
  dt_apply_style := sample_command "apply_style";
  selection_size := fun _ => 2%nat;
  label_text := fun v =>
    match v with
    | VStr s => inl s
    | VNum (LInt z) => inl (pretty z)
    | _ => inr (VStr "bad argument #3 to 'label' (string expected)")
    end;
  scan_args := fun _ => VTable [];
|}.

(** A fresh session: the given files, nothing done yet. *)
Definition session (h : Host) (w : world h) (fs : gmap string string)
  : machine h :=
  Machine fs [] w ∅ "Idle" "remote:photos" "Normal".

(** ** Notions the proofs below are stated with *)

(** What a call of the decoder at [pos] may do: it does not exhaust the
    budget; if it returns, it returns a position further on and at most one
    past the end; if it raises an error that reports a position, the
    position is one of the string or the one right after it. *)
Definition advances (cs : list ascii) (pos : nat)
    (r : result json_error (value * nat)) : Prop :=
  r <> OutOfFuel /\
  (forall v p, r = Ok (v, p) -> (pos < p <= S (length cs))%nat) /\
  (forall e p, r = Raise e -> json_error_offset e = Some p ->
     (1 <= p <= S (length cs))%nat).

(** The bytes from [pos] to the end, and one. *)
Definition left_from (cs : list ascii) (pos : nat) : nat :=
  (S (length cs) - pos)%nat.

(** A run that leaves the directory alone and adds log lines only. *)
Definition quiet {h} (m m' : machine h) : Prop :=
  files m' = files m /\
  exists lines,
    journal m' = journal m ++ map (fun l => (EvLog l, files m)) lines.

(** An action all of whose runs are quiet. *)
Definition quietly {h A} (c : M h A) : Prop :=
  forall m, quiet m (snd (c m)).

(** The machine after the rename that claims the request. *)
Definition claimed_by_rename (h : Host) (content : string) (m : machine h)
  : machine h :=
  after (EvRename (CMD_FILE h) (PROC_FILE h) true)
    (<[PROC_FILE h := content]> (delete (CMD_FILE h) (files m))) m.

(** The machine after the log line that shows the payload. *)
Definition received (h : Host) (content : string) (m : machine h)
  : machine h :=
  after (EvLog ("[MCP Bridge] Received command payload: " +:+ content))
    (files m) m.

(** At most one owner, and once there is one the request file is gone. *)
Definition one_winner (h : Host) (pool : list claimer)
    (fs : gmap string string) : Prop :=
  owners pool = 0%nat \/ (owners pool = 1%nat /\ fs !! CMD_FILE h = None).

(** The response to a command the registry does not have. *)
Definition unknown_command_payload (name : string) : value :=
  table_of [("status", VStr "error");
            ("error", VStr ("Unknown command: " +:+ name))].

(** What [escape_str] makes of one character. *)
Definition escape_char (c : ascii) : string :=
  if Ascii.eqb c ch_backslash then String ch_backslash (str1 ch_backslash)
  else if Ascii.eqb c ch_quote then String ch_backslash (str1 ch_quote)
  else if Ascii.eqb c ch_slash then String ch_backslash (str1 ch_slash)
  else if Ascii.eqb c ch_bs then String ch_backslash "b"
  else if Ascii.eqb c ch_ff then String ch_backslash "f"
  else if Ascii.eqb c ch_nl then String ch_backslash "n"
  else if Ascii.eqb c ch_cr then String ch_backslash "r"
  else if Ascii.eqb c ch_tab then String ch_backslash "t"
  else str1 c.

(** The strings without backspace, form feed, newline, carriage return and
    tab. *)
Definition plain_char (c : ascii) : bool :=
  negb (Ascii.eqb c ch_bs || Ascii.eqb c ch_ff || Ascii.eqb c ch_nl
        || Ascii.eqb c ch_cr || Ascii.eqb c ch_tab).

Fixpoint plain_string (s : string) : bool :=
  match s with
  | EmptyString => true
  | String c t => plain_char c && plain_string t
  end.

(** The characters of a decimal integer. *)
Definition numeric (c : ascii) : bool := is_digit c || Ascii.eqb c "-".

Fixpoint all_numeric (s : string) : bool :=
  match s with
  | EmptyString => true
  | String c t => numeric c && all_numeric t
  end.

(** ** Requests and status files to run the scripts on *)

Definition sample_session (path content : string) : machine sample_host :=
  session sample_host tt {[ path := content ]}.

Definition rating_request : string :=
  dq "{'cmd':'set_rating','args':{'img_id':42,'rating':5}}".

Definition unknown_request : string := dq "{'cmd':'nonexistent_cmd'}".

Definition truncated_request : string := dq "{'cmd': 'set_ra".

Definition stale_status : string := dq "{'message':'Busy','updated_at':0}".

Definition broken_status : string := dq "{'message':".

(** Two clicks, and two exports of one image, within the second
    1700000000. *)
Definition two_gui_requests : machine sample_host :=
  let m0 := session sample_host tt ∅ in
  let m1 := (mcp_btn_tag_clicked sample_host 1700000000 m0).2 in
  (mcp_btn_cull_clicked sample_host 1700000000 m1).2.

Definition two_uploads : machine sample_host :=
  let m0 := session sample_host tt ∅ in
  let m1 := (store_upload sample_host 1700000000 7 "/tmp/a.jpg" m0).2 in
  (store_upload sample_host 1700000000 7 "/tmp/b.jpg" m1).2.

(** ** More of the scripts *)

(** The four files [process_commands] works with. *)
Definition mailbox_file (h : Host) (path : string) : bool :=
  bool_decide (path = CMD_FILE h \/ path = PROC_FILE h \/
               path = RESP_TMP_FILE h \/ path = RESP_FILE h).

(** The response for an error with the text [msg]. *)
Definition error_payload (msg : string) : value :=
  table_of [("status", VStr "error"); ("error", VStr msg)].

(** The response for a command that returned [res]. *)
Definition ok_payload (res : value) : value :=
  table_of [("status", VStr "ok"); ("data", res)].

(** [request.args or {}] *)
Definition args_or_empty (kvs : list (value * value)) : value :=
  if truthy (rawget kvs (VStr "args")) then rawget kvs (VStr "args")
  else VTable [].

(** Whether a text has a bar in it. *)
Definition has_bar (s : string) : bool :=
  existsb (fun c => Ascii.eqb c "|") (list_ascii_of_string s).

(** The machine after [write_file(path, content)]. *)
Definition written {h} (path content : string) (m : machine h) : machine h :=
  after (EvWrite path content)
    (<[path := content]> (<[path := ""]> (files m)))
    (after (EvCreate path) (<[path := ""]> (files m)) m).

(** ** Values the encoder has an answer for *)

Definition is_table (v : value) : bool :=
  match v with VTable _ => true | _ => false end.

(** No table is used as a key, at any depth. *)
Fixpoint scalar_keyed (v : value) : bool :=
  match v with
  | VTable kvs =>
      forallb (fun kv => negb (is_table (fst kv)) && scalar_keyed (snd kv)) kvs
  | _ => true
  end.

(** The entries of a table as [json.encode] sees them: every key with its
    encoding as a key and the encoding of its value. *)
Definition encoded_entries (h : Host) (kvs : list (value * value))
  : list (value * (result encode_error string * result encode_error string)) :=
  map (fun kv => (fst kv, (json_encode h true (fst kv),
                           json_encode h false (snd kv)))) kvs.

(** One item of an object: [key:value]. *)
Definition object_item
    (e : value * (result encode_error string * result encode_error string))
  : result encode_error string :=
  let* k := fst (snd e) in
  let* v := snd (snd e) in
  Ok (k +:+ ":" +:+ v).

(** ** The panel *)

(** The request a click on one of the two buttons files. *)
Definition gui_request_value (tool sensitivity : string) : value :=
  table_of [("tool", VStr tool);
            ("args", table_of [("ai_sensitivity", VStr sensitivity)])].

(** The preferences after the two writes a click starts with. *)
Definition saved_prefs {h} (m : machine h) : gmap string string :=
  <["ai_sensitivity" := entry_sensitivity_text m]>
    (<["cloud_remote" := entry_remote_text m]> (prefs m)).

(** The request an export files. *)
Definition upload_request_value (filename remote : string) (image_id : Z)
  : value :=
  table_of [("source_file", VStr filename); ("target", VStr "cloud");
            ("target_remote", VStr remote);
            ("img_id", VNum (LInt image_id))].

(** ** Lua patterns, as far as [check_command] uses them

    The matcher of the string library tries the items of a pattern from
    left to right and backtracks: a repetition takes as many characters as
    it can and gives them back one by one until the rest of the pattern
    matches.  Captures are kept with their start and, once closed, their
    length; the capture opened last comes first in the list. *)

Inductive pattern_item :=
  | PSingle (class : ascii -> bool)
  | PStar (class : ascii -> bool)
  | PPlus (class : ascii -> bool)
  | POptional (class : ascii -> bool)
  | PCaptureOpen
  | PCaptureClose.

(** The class [%w], in the C locale. *)
Definition is_alnum (c : ascii) : bool :=
  let n := nat_of_ascii c in
  ((48 <=? n) && (n <=? 57) || (65 <=? n) && (n <=? 90)
   || (97 <=? n) && (n <=? 122))%nat.

(** Closes the capture opened last among those still open. *)
Fixpoint close_last (caps : list (nat * option nat)) (pos : nat)
  : list (nat * option nat) :=
  match caps with
  | [] => []
  | (start, None) :: rest => (start, Some (pos - start)%nat) :: rest
  | c :: rest => c :: close_last rest pos
  end.

(** [max_expand]: the rest of the pattern is tried after [i] repetitions,
    then after [i - 1], down to none. *)
Fixpoint max_expand {R} (k : nat -> option R) (i : nat) : option R :=
  match k i with
  | Some r => Some r
  | None =>
      match i with
      | O => None
      | S j => max_expand k j
      end
  end.

(** [match]: [s] is the subject from the offset [pos] on.  The result is the
    offset after the match and the captures. *)
Fixpoint do_match (p : list pattern_item) (s : list ascii) (pos : nat)
    (caps : list (nat * option nat)) {struct p}
  : option (nat * list (nat * option nat)) :=
  match p with
  | [] => Some (pos, caps)
  | PSingle c :: p' =>
      match s with
      | x :: s' => if c x then do_match p' s' (S pos) caps else None
      | [] => None
      end
  | PStar c :: p' =>
      max_expand (fun i => do_match p' (drop i s) (pos + i)%nat caps)
        (length (fst (span c s)))
  | PPlus c :: p' =>
      match s with
      | x :: s' =>
          if c x then
            max_expand
              (fun i => do_match p' (drop i s') (S pos + i)%nat caps)
              (length (fst (span c s')))
          else None
      | [] => None
      end
  | POptional c :: p' =>
      match s with
      | x :: s' =>
          if c x then
            match do_match p' s' (S pos) caps with
            | Some r => Some r
            | None => do_match p' s pos caps
            end
          else do_match p' s pos caps
      | [] => do_match p' s pos caps
      end
  | PCaptureOpen :: p' => do_match p' s pos ((pos, None) :: caps)
  | PCaptureClose :: p' => do_match p' s pos (close_last caps pos)
  end.

(** [src:sub(start + 1, start + len)] for an offset [start]. *)
Definition substring_at (src : list ascii) (start len : nat) : string :=
  string_of_list_ascii (take len (drop start src)).

(** What one step of the iterator returns: the captures in the order they
    were opened, or the whole match when the pattern has none. *)
Definition captures_of (src : list ascii) (start e : nat)
    (caps : list (nat * option nat)) : list string :=
  match caps with
  | [] => [substring_at src start (e - start)]
  | _ =>
      map (fun c : nat * option nat =>
             substring_at src (fst c) (default 0%nat (snd c)))
          (rev caps)
  end.

(** [src:gmatch(p)]: the matches from left to right.  A match is looked for
    at every offset from the end of the previous one on; a match that ends
    where the previous one ended is passed over. *)
Fixpoint gmatch_from (fuel : nat) (p : list pattern_item) (src : list ascii)
    (start : nat) (lastmatch : option nat) : list (list string) :=
  match fuel with
  | O => []
  | S fuel =>
      if decide (length src < start)%nat then []
      else
        match do_match p (drop start src) start [] with
        | Some (e, caps) =>
            if bool_decide (lastmatch = Some e)
            then gmatch_from fuel p src (S start) lastmatch
            else captures_of src start e caps
                 :: gmatch_from fuel p src e (Some e)
        | None => gmatch_from fuel p src (S start) lastmatch
        end
  end.

(** Every step either moves one offset on or yields a match; two steps at
    one offset do not happen twice in a row. *)
Definition gmatch (p : list pattern_item) (src : string)
  : list (list string) :=
  let cs := list_ascii_of_string src in
  gmatch_from (2 * length cs + 3) p cs 0 None.

(** The pattern of line 118: a quote, a captured run of [%w], a quote, a
    colon, [%s*], an optional quote, a captured run of characters other than
    quote, comma and closing brace, an optional quote. *)
Definition is_quote (c : ascii) : bool := Ascii.eqb c ch_quote.
Definition is_colon (c : ascii) : bool := Ascii.eqb c ":".
Definition is_arg_char (c : ascii) : bool :=
  negb (Ascii.eqb c ch_quote || Ascii.eqb c "," || Ascii.eqb c "}").

Definition args_pattern : list pattern_item :=
  [PSingle is_quote; PCaptureOpen; PPlus is_alnum; PCaptureClose;
   PSingle is_quote; PSingle is_colon; PStar is_space; POptional is_quote;
   PCaptureOpen; PPlus is_arg_char; PCaptureClose; POptional is_quote].

(** The body of the loop of lines 118 to 120; [to_number] is [tonumber] of
    the Lua runtime on a string. *)
Definition store_arg (to_number : string -> option number)
    (args : list (value * value)) (kv : list string) : list (value * value) :=
  match kv with
  | [k; v] =>
      match to_number v with
      | Some n => rawset args (VStr k) (VNum n)
      | None => rawset args (VStr k) (VStr v)
      end
  | _ => args
  end.

(** Lines 117 to 120: the table [args] filled from the text after the bar. *)
Definition scan_json_args (to_number : string -> option number)
    (json_args : string) : value :=
  VTable (fold_left (store_arg to_number) (gmatch args_pattern json_args) []).

(** The names that [%w+] can capture. *)
Definition alnum_name (k : string) : bool :=
  negb (String.eqb k "") && forallb is_alnum (list_ascii_of_string k).

(** [tonumber] on the decimal integers of 64 bits, for runs on concrete
    data. *)
Definition decimal_to_number (s : string) : option number :=
  match match_number (list_ascii_of_string s) with
  | Some n =>
      if bool_decide (numeral_text n = list_ascii_of_string s)
      then tonumber n else None
  | None => None
  end.

(** A capture that has its length. *)
Definition closed (c : nat * option nat) : Prop := is_Some (snd c).

(** A table all of whose keys are names that [%w+] can capture. *)
Definition alnum_key (kv : value * value) : Prop :=
  exists k, fst kv = VStr k /\ alnum_name k = true.

(** ** The commands

    What the bodies of the commands get from darktable.  Images, styles and
    tags are objects of the API and never part of a result.  The calls that
    look something up read the state and leave it as it is; the calls that
    change something may fail, and return the state they leave. *)
Record DtApi := {
  library : Type;
  image : Type;
  style : Type;
  tag : Type;
  (** [dt.database.get_image(id)] *)
  get_image : value -> library -> result value (option image);
  (** [img.id], [img.path], [img.filename] *)
  image_id : image -> Z;
  image_path : image -> string;
  image_filename : image -> string;
  (** [img.rating] and [img.rating = v] *)
  image_rating : image -> library -> value;
  image_set_rating : image -> value -> library -> result value unit * library;
  (** [dt.colorlabels.add_label(img, color)] *)
  colorlabels_add_label :
    image -> value -> library -> result value unit * library;
  (** [dt.tags.create(name)] and [dt.tags.attach(tag, img)] *)
  tags_create : value -> library -> result value tag * library;
  tags_attach : tag -> image -> library -> result value unit * library;
  (** [dt.gui.selection()] *)
  gui_selection : library -> list image;
  (** [dt.styles.get_list()], [s.name] and [dt.styles.apply(s, img)] *)
  styles_get_list : library -> list style;
  name_of_style : style -> string;
  styles_apply : style -> image -> library -> result value unit * library;
}.

(** A command body: it reads and changes the library and returns a value or
    raises. *)
Definition C (a : DtApi) (A : Type) : Type :=
  library a -> result value A * library a.

Definition cret {a A} (x : A) : C a A := fun w => (Ok x, w).

Definition cbind {a A B} (c : C a A) (k : A -> C a B) : C a B :=
  fun w =>
    match c w with
    | (Ok x, w') => k x w'
    | (Raise e, w') => (Raise e, w')
    | (OutOfFuel, w') => (OutOfFuel, w')
    end.

Notation "'let+' x ':=' c 'in' k" := (cbind c (fun x => k))
  (at level 10, x pattern, c at level 100, k at level 200).

(** A step that reads the library. *)
Definition cread {a A} (f : library a -> result value A) : C a A :=
  fun w => (f w, w).

(** [s .. v]: strings and numbers are concatenated, anything else is an
    error that names the variable. *)
Definition concat (rt : Host) (line : nat) (var : string) (s : string)
    (v : value) : result value string :=
  match v with
  | VStr t => Ok (s +:+ t)
  | VNum _ => Ok (s +:+ tostring rt v)
  | _ =>
      Raise (VStr (where_ rt line +:+ "attempt to concatenate a "
                   +:+ type_name v +:+ " value (local '" +:+ var +:+ "')"))
  end.

(** [error(prefix .. v)] *)
Definition error_with {A} (rt : Host) (line : nat) (var : string)
    (prefix : string) (v : value) : result value A :=
  let* msg := concat rt line var prefix v in
  Raise (VStr (where_ rt line +:+ msg)).

(** [commands.set_rating]; [line] is the line of [local img_id]. *)
Definition set_rating (a : DtApi) (rt : Host) (line : nat) (args : value)
  : C a value :=
  let+ img_id := cread (fun _ => index rt line "args" args "img_id") in
  let+ rating := cread (fun _ => index rt (line + 1) "args" args "rating") in
  let+ img := cread (get_image a img_id) in
  match img with
  | None =>
      cread (fun _ =>
               error_with rt (line + 4) "img_id" "Image not found: " img_id)
  | Some img =>
      let+ _ := image_set_rating a img rating in
      let+ new_rating := cread (fun w => Ok (image_rating a img w)) in
      cret (table_of [("success", VBool true); ("id", img_id);
                      ("new_rating", new_rating)])
  end.

(** [commands.set_color_label] *)
Definition set_color_label (a : DtApi) (rt : Host) (line : nat) (args : value)
  : C a value :=
  let+ img_id := cread (fun _ => index rt line "args" args "img_id") in
  let+ color := cread (fun _ => index rt (line + 1) "args" args "color") in
  let+ img := cread (get_image a img_id) in
  match img with
  | None =>
      cread (fun _ =>
               error_with rt (line + 4) "img_id" "Image not found: " img_id)
  | Some img =>
      let+ _ := colorlabels_add_label a img color in
      cret (table_of [("success", VBool true); ("id", img_id);
                      ("label_added", color)])
  end.

(** [commands.attach_tag] *)
Definition attach_tag (a : DtApi) (rt : Host) (line : nat) (args : value)
  : C a value :=
  let+ img_id := cread (fun _ => index rt line "args" args "img_id") in
  let+ tag_name :=
    cread (fun _ => index rt (line + 1) "args" args "tag_name") in
  let+ img := cread (get_image a img_id) in
  match img with
  | None =>
      cread (fun _ =>
               error_with rt (line + 4) "img_id" "Image not found: " img_id)
  | Some img =>
      let+ tag := tags_create a tag_name in
      let+ _ := tags_attach a tag img in
      cret (table_of [("success", VBool true); ("id", img_id);
                      ("tag_attached", tag_name)])
  end.

(** The entry [commands.get_selection] makes for one image. *)
Definition selection_entry (a : DtApi) (img : image a) : value :=
  table_of [("id", VNum (LInt (image_id a img)));
            ("path",
             VStr (image_path a img +:+ "/" +:+ image_filename a img));
            ("filename", VStr (image_filename a img))].

(** [table.insert(t, v)] *)
Definition table_insert (t : list (value * value)) (v : value)
  : list (value * value) :=
  rawset t (VNum (LInt (lua_len t + 1))) v.

(** [commands.get_selection] *)
Definition get_selection (a : DtApi) (args : value) : C a value :=
  let+ selection := cread (fun w => Ok (gui_selection a w)) in
  cret (VTable (fold_left
                  (fun result img => table_insert result (selection_entry a img))
                  selection [])).

(** The loop of [commands.apply_style]: the first style of the list whose
    name is [style_name]. *)
Definition find_style (a : DtApi) (style_name : value) (l : list (style a))
  : option (style a) :=
  find (fun s => raw_equal (VStr (name_of_style a s)) style_name) l.

(** [commands.apply_style] *)
Definition apply_style (a : DtApi) (rt : Host) (line : nat) (args : value)
  : C a value :=
  let+ img_id := cread (fun _ => index rt line "args" args "img_id") in
  let+ style_name :=
    cread (fun _ => index rt (line + 1) "args" args "style_name") in
  let+ img := cread (get_image a img_id) in
  match img with
  | None =>
      cread (fun _ =>
               error_with rt (line + 4) "img_id" "Image not found: " img_id)
  | Some img =>
      let+ styles := cread (fun w => Ok (styles_get_list a w)) in
      match find_style a style_name styles with
      | None =>
          cread (fun _ =>
                   error_with rt (line + 14) "style_name"
                     "Style not found: " style_name)
      | Some s =>
          let+ _ := styles_apply a s img in
          cret (table_of [("success", VBool true); ("id", img_id);
                          ("style_applied", style_name)])
      end
  end.

(** The bridge with the embedded JSON library on this API; [rt] gives what
    comes from the Lua runtime and the configuration. *)
Definition host_of (a : DtApi) (rt : Host) : Host := {|
  world := library a;
  config_dir := config_dir rt;
  DT_MCP_DIR := DT_MCP_DIR rt;
  chunkname := chunkname rt;
  float_tostring := float_tostring rt;
  table_tostring := table_tostring rt;
  pairs_order := pairs_order rt;
  pairs_order_perm := pairs_order_perm rt;
  dt_set_rating := set_rating a rt 158;
  dt_set_color_label := set_color_label a rt 169;
  dt_attach_tag := attach_tag a rt 180;
  dt_get_selection := get_selection a;
  dt_apply_style := apply_style a rt 203;
  selection_size := fun w => length (gui_selection a w);
  label_text := label_text rt;
  scan_args := scan_args rt;
|}.

(** The single-slot poller on this API: its three commands at their lines,
    and the loop of lines 117 to 120 for the arguments.  The two commands it
    does not have are never looked up by [Legacy.commands]. *)
Definition legacy_host_of (a : DtApi) (rt : Host)
    (to_number : string -> option number) : Host := {|
  world := library a;
  config_dir := config_dir rt;
  DT_MCP_DIR := DT_MCP_DIR rt;
  chunkname := chunkname rt;
  float_tostring := float_tostring rt;
  table_tostring := table_tostring rt;
  pairs_order := pairs_order rt;
  pairs_order_perm := pairs_order_perm rt;
  dt_set_rating := set_rating a rt 17;
  dt_set_color_label := set_color_label a rt 169;
  dt_attach_tag := attach_tag a rt 28;
  dt_get_selection := get_selection a;
  dt_apply_style := apply_style a rt 40;
  selection_size := fun w => length (gui_selection a w);
  label_text := label_text rt;
  scan_args := scan_json_args to_number;
|}.

(** The error value of [error("Image not found: " .. img_id)] on [line]. *)
Definition image_not_found (rt : Host) (line : nat) (img_id : value) : value :=
  match img_id with
  | VStr _ | VNum _ =>
      VStr (where_ rt line +:+ "Image not found: " +:+ tostring rt img_id)
  | _ =>
      VStr (where_ rt line +:+ "attempt to concatenate a "
            +:+ type_name img_id +:+ " value (local 'img_id')")
  end.

(** ** A small library to run the commands on *)

Record shelf := {
  shelf_images : list (Z * Z);
  shelf_selection : list Z;
  shelf_styles : list string;
  shelf_done : list string;
}.

Definition on_shelf (id : Z) (w : shelf) : bool :=
  existsb (fun e => Z.eqb (fst e) id) (shelf_images w).

Definition shelf_note (note : string) (w : shelf) : shelf :=
  {| shelf_images := shelf_images w;
     shelf_selection := shelf_selection w;
     shelf_styles := shelf_styles w;
     shelf_done := shelf_done w ++ [note] |}.

Definition shelf_api : DtApi := {|
  library := shelf;
  image := Z;
  style := string;
  tag := string;
  get_image := fun v w =>
    match v with
    | VNum (LInt z) => Ok (if on_shelf z w then Some z else None)
    | _ => Ok None
    end;
  image_id := fun img => img;
  image_path := fun _ => "/photos";
  image_filename := fun img => pretty img +:+ ".raw";
  image_rating := fun img w =>
    from_option (fun r => VNum (LInt r)) VNil
      (snd <$> find (fun e => Z.eqb (fst e) img) (shelf_images w));
  image_set_rating := fun img v w =>
    match v with
    | VNum (LInt r) =>
        (Ok tt,
         {| shelf_images :=
              map (fun e => if Z.eqb (fst e) img then (img, r) else e)
                  (shelf_images w);
            shelf_selection := shelf_selection w;
            shelf_styles := shelf_styles w;
            shelf_done := shelf_done w |})
    | _ => (Raise (VStr "bad argument #3 to 'rating' (number expected)"), w)
    end;
  colorlabels_add_label := fun img _ w => (Ok tt, shelf_note "label" w);
  tags_create := fun v w =>
    match v with
    | VStr s => (Ok s, shelf_note "tag created" w)
    | _ => (Raise (VStr "bad argument #1 to 'create' (string expected)"), w)
    end;
  tags_attach := fun _ _ w => (Ok tt, shelf_note "tag attached" w);
  gui_selection := fun w => shelf_selection w;
  styles_get_list := fun w => shelf_styles w;
  name_of_style := fun s => s;
  styles_apply := fun _ _ w => (Ok tt, shelf_note "style applied" w);
|}.

Definition sample_shelf : shelf :=
  {| shelf_images := [(7, 1); (8, 3)];
     shelf_selection := [7; 8];
     shelf_styles := ["warm"; "mono"];
     shelf_done := [] |}.

Definition empty_shelf : shelf :=
  {| shelf_images := []; shelf_selection := []; shelf_styles := [];
     shelf_done := [] |}.

Definition shelf_host : Host := host_of shelf_api sample_host.

Definition legacy_shelf_host : Host :=
  legacy_host_of shelf_api sample_host decimal_to_number.

(** ** Sequences: the tables with the entries 1, 2, ..., stored in that
    order, as [table.insert] and the decoder build them *)

Fixpoint seq_entries {A} (i : Z) (xs : list A) : list (value * A) :=
  match xs with
  | [] => []
  | x :: rest => (VNum (LInt i), x) :: seq_entries (i + 1) rest
  end.

Definition array_of (vs : list value) : value := VTable (seq_entries 1 vs).

Definition not_nil (v : value) : Prop := v <> VNil.

(** The four commands of the bridge that work on one image, with the line
    of their first statement. *)
Definition image_commands : list (string * nat) :=
  [("set_rating", 158%nat); ("set_color_label", 169%nat);
   ("attach_tag", 180%nat); ("apply_style", 203%nat)].

(** The three commands of the single-slot poller, likewise. *)
Definition legacy_image_commands : list (string * nat) :=
  [("set_rating", 17%nat); ("attach_tag", 28%nat); ("apply_style", 40%nat)].

(** ** Values that come back from their encoding *)

(** The keys 1, 2, ... in this order. *)
Fixpoint seq_keys (i : Z) (kvs : list (value * value)) : bool :=
  match kvs with
  | [] => true
  | (k, _) :: rest => raw_equal k (VNum (LInt i)) && seq_keys (i + 1) rest
  end.

Definition plain_key (k : value) : bool :=
  match k with
  | VStr s => plain_string s
  | _ => false
  end.

Fixpoint distinct_keys (kvs : list (value * value)) : bool :=
  match kvs with
  | [] => true
  | (k, _) :: rest =>
      negb (existsb (fun kv => raw_equal (fst kv) k) rest)
      && distinct_keys rest
  end.

(** Booleans, integers of 64 bits, strings without the five control
    characters, and tables of such values that are either a sequence or
    have distinct strings of that kind as keys. *)
Fixpoint portable (v : value) : bool :=
  match v with
  | VNil => false
  | VBool _ => true
  | VNum (LInt z) => (- 2 ^ 63 <=? z) && (z <? 2 ^ 63)
  | VNum (LFloat _) => false
  | VStr s => plain_string s
  | VTable kvs =>
      (seq_keys 1 kvs
       || forallb (fun kv => plain_key (fst kv)) kvs && distinct_keys kvs)
      && forallb (fun kv => portable (snd kv)) kvs
  end.

(** Equal up to the order in which the entries of tables are stored, at
    every depth. *)
#[warnings="-register-all"]
Inductive same_value : value -> value -> Prop :=
  | same_scalar v : is_table v = false -> same_value v v
  | same_table kvs kvs' l :
      Permutation kvs l ->
      Forall2 (fun e e' => fst e = fst e' /\ same_value (snd e) (snd e'))
        l kvs' ->
      same_value (VTable kvs) (VTable kvs').

(** What the decoder makes of one character between quotes that
    [escape_str] wrote: the five control characters come back as the letter
    of their escape. *)
Definition read_back (c : ascii) : ascii :=
  if Ascii.eqb c ch_bs then "b"
  else if Ascii.eqb c ch_ff then "f"
  else if Ascii.eqb c ch_nl then "n"
  else if Ascii.eqb c ch_cr then "r"
  else if Ascii.eqb c ch_tab then "t"
  else c.

Fixpoint read_back_string (s : string) : string :=
  match s with
  | EmptyString => EmptyString
  | String c t => String (read_back c) (read_back_string t)
  end.

(** What follows a value in the text of an encoding: nothing, a comma or a
    closing bracket. *)
Definition closes (rest : list ascii) : Prop :=
  match rest with
  | [] => True
  | c :: _ => c = ","%char \/ c = "]"%char \/ c = "}"%char
  end.

(** The closing delimiters [json.decode] is called with. *)
Definition loop_delim (d : option ascii) : Prop :=
  d = None \/ d = Some "}"%char \/ d = Some "]"%char.

(** The text that follows the first item of a list in [join_items]. *)
Fixpoint more_items (l : list string) : string :=
  match l with
  | [] => ""
  | x :: rest => ", " +:+ x +:+ more_items rest
  end.

(** What it means that the decoder reads [text] as [v']: wherever the text
    stands in a string, after white space and before something that closes
    a value, a call of [json.decode] at the start returns [v'] and the
    position after the text, given budget enough. *)
Definition reads_as (text : string) (v' : value) : Prop :=
  forall cs pos sp rest d,
    (1 <= pos)%nat ->
    from_pos cs pos = sp ++ list_ascii_of_string text ++ rest ->
    forallb is_space sp = true ->
    closes rest -> loop_delim d ->
    exists fuel, forall fuel', (fuel <= fuel')%nat ->
      decode fuel' cs pos d =
        Ok (v', (pos + length sp + String.length text)%nat).

(** The text of a string between quotes, and of one entry of an object. *)
Definition key_text (k : string) : string :=
  str1 ch_quote +:+ escape_str k +:+ str1 ch_quote.

Definition entry_text (k vtext : string) : string :=
  key_text k +:+ ":" +:+ vtext.

(** An entry of an object on the wire: the key, the text of the value and
    what the text is read as. *)
Definition wire_entry : Type := string * string * value.

Definition wire_key (e : wire_entry) : string := fst (fst e).
Definition wire_text (e : wire_entry) : string := snd (fst e).
Definition wire_read (e : wire_entry) : value := snd e.

Definition wire_entry_ok (e : wire_entry) : Prop :=
  plain_string (wire_key e) = true /\
  reads_as (wire_text e) (wire_read e) /\ not_nil (wire_read e).

(** A value that comes back from its encoding, as far as the decoder is
    concerned wherever the encoding stands. *)
Definition comes_back (h : Host) (v : value) : Prop :=
  portable v = true ->
  forall text, json_encode h false v = Ok text ->
  exists v', same_value v v' /\ not_nil v' /\ reads_as text v'.

(** A request with a sequence among its arguments. *)
Definition nested_request : value :=
  VTable [(VStr "cmd", VStr "set_rating");
          (VStr "args",
           VTable [(VStr "img_id", VNum (LInt 42));
                   (VStr "ratings",
                    array_of [VNum (LInt 5); VNum (LInt (-1)); VBool true]);
                   (VStr "note", VStr "a/b")])].

(** Keys for which raw equality is equality: strings and integers. *)
Definition simple_key (k : value) : bool :=
  match k with
  | VStr _ | VNum (LInt _) => true
  | _ => false
  end.

(** ** The decoder always comes back *)

Section Positions.
Context (cs : list ascii).

Lemma span_app p (l : list ascii) : l = fst (span p l) ++ snd (span p l).
Proof.
  induction l as [|c l IH]; simpl; [done|].
  destruct (p c); [|done]. destruct (span p l) as [a b]; simpl in *.
  by f_equal.
Qed.

Lemma optional_app p (l : list ascii) :
  l = fst (optional p l) ++ snd (optional p l).
Proof. destruct l as [|c l]; simpl; [done|]. by destruct (p c). Qed.

Lemma span_length p (l : list ascii) :
  (length (fst (span p l)) <= length l)%nat.
Proof.
  rewrite (span_app p l) at 2. rewrite length_app. lia.
Qed.

Lemma char_at_bounds pos c :
  char_at cs pos = Some c -> (1 <= pos <= length cs)%nat.
Proof.
  destruct pos as [|i]; simpl; [done|].
  intros H%lookup_lt_Some. lia.
Qed.

Lemma from_pos_length pos :
  (1 <= pos)%nat -> length (from_pos cs pos) = (length cs - (pos - 1))%nat.
Proof. intros. unfold from_pos. by rewrite length_drop. Qed.

Lemma skip_space_bounds pos :
  (pos <= skip_space cs pos)%nat /\
  ((pos <= S (length cs))%nat -> (skip_space cs pos <= S (length cs))%nat).
Proof.
  unfold skip_space. split; [lia|]. intros Hle.
  pose proof (span_length is_space (from_pos cs pos)) as H.
  unfold from_pos in *. rewrite length_drop in H. lia.
Qed.

Lemma skip_delim_bounds pos delim e p b :
  skip_delim cs pos delim e = Ok (p, b) ->
  (pos <= p)%nat /\ ((pos <= S (length cs))%nat -> (p <= S (length cs))%nat).
Proof.
  unfold skip_delim. pose proof (skip_space_bounds pos) as [H1 H2].
  case_decide as Hc.
  - intros [= <- <-]. apply char_at_bounds in Hc. lia.
  - destruct e; [done|]. intros [= <- <-]. done.
Qed.

Lemma skip_delim_fuel pos delim e : skip_delim cs pos delim e <> OutOfFuel.
Proof. unfold skip_delim. case_decide; [done|]. by destruct e. Qed.

Lemma parse_str_val_from_bounds rest : forall pos val v p,
  parse_str_val_from rest pos val = Ok (v, p) ->
  (pos < p <= pos + length rest)%nat.
Proof.
  induction rest as [rest IH] using (induction_ltof1 _ (@length ascii)).
  unfold ltof in IH.
  intros pos val v p. destruct rest as [|c rest']; simpl; [done|].
  destruct (Ascii.eqb c ch_quote); [intros [= <- <-]; lia|].
  destruct (negb (Ascii.eqb c ch_backslash)).
  - intros H%IH; [lia|simpl; lia].
  - destruct rest' as [|n rest'']; [done|].
    intros H%IH; simpl in *; lia.
Qed.

Lemma parse_str_val_from_fuel rest : forall pos val,
  parse_str_val_from rest pos val <> OutOfFuel.
Proof.
  induction rest as [rest IH] using (induction_ltof1 _ (@length ascii)).
  unfold ltof in IH.
  intros pos val. destruct rest as [|c rest']; simpl; [done|].
  destruct (Ascii.eqb c ch_quote); [done|].
  destruct (negb (Ascii.eqb c ch_backslash)).
  - apply IH. simpl; lia.
  - destruct rest' as [|n rest'']; [done|]. apply IH. simpl; lia.
Qed.

Lemma parse_str_val_bounds pos v p :
  (1 <= pos)%nat ->
  parse_str_val cs pos = Ok (v, p) -> (pos < p <= S (length cs))%nat.
Proof.
  intros Hpos H%parse_str_val_from_bounds.
  rewrite from_pos_length in H by done. lia.
Qed.

Lemma match_number_prefix l n :
  match_number l = Some n ->
  n_int n <> [] /\ exists rest, l = numeral_text n ++ rest.
Proof.
  unfold match_number.
  pose proof (optional_app (is_char "-") l) as E1.
  destruct (optional (is_char "-") l) as [sign r1]; simpl in E1.
  pose proof (span_app is_digit r1) as E2.
  destruct (span is_digit r1) as [int r2]; simpl in E2.
  destruct int as [|d int]; [done|].
  pose proof (optional_app (is_char ".") r2) as E3.
  destruct (optional (is_char ".") r2) as [dot r3]; simpl in E3.
  pose proof (span_app is_digit r3) as E4.
  destruct (span is_digit r3) as [frac r4]; simpl in E4.
  pose proof (optional_app is_e r4) as E5.
  destruct (optional is_e r4) as [e r5]; simpl in E5.
  pose proof (optional_app is_plus_minus r5) as E6.
  destruct (optional is_plus_minus r5) as [esign r6]; simpl in E6.
  pose proof (span_app is_digit r6) as E7.
  destruct (span is_digit r6) as [exp r7]; simpl in E7.
  intros [= <-]. split; [done|]. exists r7.
  unfold numeral_text; simpl. subst.
  rewrite <- ?app_assoc; simpl; by rewrite <- ?app_assoc.
Qed.

Lemma parse_num_val_bounds pos v p :
  (1 <= pos)%nat ->
  parse_num_val cs pos = Ok (v, p) -> (pos < p <= S (length cs))%nat.
Proof.
  intros Hpos. unfold parse_num_val.
  destruct (match_number (from_pos cs pos)) as [n|] eqn:Hn; [|done].
  destruct (tonumber n); [|done]. intros [= <- <-].
  apply match_number_prefix in Hn as [Hint [rest Hrest]].
  apply (f_equal (@length ascii)) in Hrest.
  rewrite from_pos_length, length_app in Hrest by done.
  assert (0 < length (numeral_text n))%nat.
  { unfold numeral_text. rewrite !length_app.
    destruct (n_int n); [done|simpl; lia]. }
  lia.
Qed.

Lemma parse_num_val_fuel pos : parse_num_val cs pos <> OutOfFuel.
Proof.
  unfold parse_num_val. destruct (match_number _); [|done].
  by destruct (tonumber _).
Qed.

Lemma starts_with_length lit l :
  starts_with lit l = true -> (String.length lit <= length l)%nat.
Proof.
  unfold starts_with. intros H%bool_decide_eq_true.
  apply (f_equal (@length ascii)) in H.
  rewrite length_take in H.
  assert (length (list_ascii_of_string lit) = String.length lit) as E.
  { clear. induction lit; simpl; auto. }
  lia.
Qed.
End Positions.

Section Budget.
Context (cs : list ascii).

Lemma decode_unfold fuel pos d :
  decode (S fuel) cs pos d =
    if decide (length cs < pos)%nat then Raise EndOfInput
    else
      let pos := skip_space cs pos in
      let first := char_at cs pos in
      if decide (first = Some "{"%char)
      then decode_object fuel cs (S pos) [] true
      else if decide (first = Some "["%char)
      then decode_array fuel cs (S pos) [] true
      else if decide (first = Some ch_quote)
      then parse_str_val cs (S pos)
      else if bool_decide (first = Some "-"%char)
              || from_option is_digit false first
      then parse_num_val cs pos
      else if bool_decide (is_Some first /\ first = d)
      then Ok (VNil, S pos)
      else if starts_with "true" (from_pos cs pos)
      then Ok (VBool true, (pos + 4)%nat)
      else if starts_with "false" (from_pos cs pos)
      then Ok (VBool false, (pos + 5)%nat)
      else Raise (InvalidSyntax pos).
Proof. reflexivity. Qed.

Lemma decode_object_unfold fuel pos obj delim_found :
  decode_object (S fuel) cs pos obj delim_found =
    let* (key, pos) := decode fuel cs pos (Some "}"%char) in
    match key with
    | VNil => Ok (VTable obj, pos)
    | _ =>
        if negb delim_found then Raise CommaMissingObject
        else
          let* (pos, _) := skip_delim cs pos ":" true in
          let* (v, pos) := decode fuel cs pos None in
          let obj := rawset obj key v in
          let* (pos, delim_found) := skip_delim cs pos "," false in
          decode_object fuel cs pos obj delim_found
    end.
Proof. reflexivity. Qed.

Lemma decode_array_unfold fuel pos arr delim_found :
  decode_array (S fuel) cs pos arr delim_found =
    let* (val, pos) := decode fuel cs pos (Some "]"%char) in
    match val with
    | VNil => Ok (VTable arr, pos)
    | _ =>
        if negb delim_found then Raise CommaMissingArray
        else
          let arr := rawset arr (VNum (LInt (lua_len arr + 1))) val in
          let* (pos, delim_found) := skip_delim cs pos "," false in
          decode_array fuel cs pos arr delim_found
    end.
Proof. reflexivity. Qed.

Lemma advances_weaken pos pos' r :
  (pos <= pos')%nat -> advances cs pos' r -> advances cs pos r.
Proof.
  intros Hle (Hf & Hok & Herr). split; [done|]. split; [|done].
  intros v p Hr; apply Hok in Hr; lia.
Qed.

Lemma advances_raise pos e :
  (forall p, json_error_offset e = Some p -> (1 <= p <= S (length cs))%nat) ->
  advances cs pos (Raise e).
Proof.
  intros H. split; [done|]. split; [done|]. intros e' p [= <-]. apply H.
Qed.

Lemma advances_ok pos v p :
  (pos < p <= S (length cs))%nat -> advances cs pos (Ok (v, p)).
Proof.
  intros H. split; [done|]. split; [|done]. by intros v' p' [= <- <-].
Qed.

Lemma parse_str_val_from_raise rest : forall pos val e,
  parse_str_val_from rest pos val = Raise e -> e = EndOfString.
Proof.
  induction rest as [rest IH] using (induction_ltof1 _ (@length ascii)).
  unfold ltof in IH.
  intros pos val e. destruct rest as [|c rest']; simpl; [congruence|].
  destruct (Ascii.eqb c ch_quote); [done|].
  destruct (negb (Ascii.eqb c ch_backslash)).
  - apply IH. simpl; lia.
  - destruct rest' as [|n rest'']; [congruence|]. apply IH. simpl; lia.
Qed.

Lemma parse_str_val_advances pos :
  (1 <= pos)%nat -> advances cs (pos - 1) (parse_str_val cs pos).
Proof.
  intros Hpos. split; [|split].
  - apply parse_str_val_from_fuel.
  - intros v p Hr%parse_str_val_bounds; lia.
  - intros e p Hr%parse_str_val_from_raise. by subst.
Qed.

Lemma parse_num_val_advances pos :
  (1 <= pos <= length cs)%nat -> advances cs pos (parse_num_val cs pos).
Proof.
  intros Hpos. split; [|split].
  - apply parse_num_val_fuel.
  - intros v p Hr%parse_num_val_bounds; lia.
  - intros e p. unfold parse_num_val.
    destruct (match_number _); [destruct (tonumber _); [done|]|].
    all: intros [= <-] [= <-]; lia.
Qed.

Lemma skip_delim_raise pos delim b e p :
  (1 <= pos <= S (length cs))%nat ->
  skip_delim cs pos delim b = Raise e ->
  json_error_offset e = Some p -> (1 <= p <= S (length cs))%nat.
Proof.
  intros Hpos. unfold skip_delim.
  pose proof (skip_space_bounds cs pos) as [H1 H2].
  case_decide; [done|]. destruct b; [|done].
  intros [= <-] [= <-]. lia.
Qed.

Lemma decode_advances_all fuel :
  (forall pos d, (1 <= pos)%nat -> (2 * left_from cs pos + 1 <= fuel)%nat ->
     advances cs pos (decode fuel cs pos d)) /\
  (forall pos obj b, (1 <= pos)%nat -> (2 * left_from cs pos + 2 <= fuel)%nat ->
     advances cs (pos - 1) (decode_object fuel cs pos obj b)) /\
  (forall pos arr b, (1 <= pos)%nat -> (2 * left_from cs pos + 2 <= fuel)%nat ->
     advances cs (pos - 1) (decode_array fuel cs pos arr b)).
Proof.
  unfold left_from.
  induction fuel as [|fuel (IHd & IHo & IHa)].
  { repeat split; intros; lia. }
  split; [|split].
  - intros pos d Hpos Hfuel. rewrite decode_unfold.
    case_decide as Hend; [by apply advances_raise|].
    pose proof (skip_space_bounds cs pos) as [Hs1 Hs2].
    set (pos' := skip_space cs pos) in *. cbv zeta.
    assert (pos' <= S (length cs))%nat as Hs3 by (apply Hs2; lia).
    case_decide as H1.
    { apply char_at_bounds in H1.
      apply (advances_weaken _ (S pos' - 1)); [lia|]. apply IHo; lia. }
    case_decide as H2.
    { apply char_at_bounds in H2.
      apply (advances_weaken _ (S pos' - 1)); [lia|]. apply IHa; lia. }
    case_decide as H3.
    { apply char_at_bounds in H3.
      apply (advances_weaken _ (S pos' - 1)); [lia|].
      apply parse_str_val_advances; lia. }
    destruct (_ || _) eqn:H4.
    { apply (advances_weaken _ pos'); [lia|].
      apply parse_num_val_advances.
      apply orb_true_iff in H4 as [H4%bool_decide_eq_true|H4].
      - by apply char_at_bounds in H4.
      - destruct (char_at cs pos') eqn:Hc; [|done].
        by apply char_at_bounds in Hc. }
    clear H4. case_bool_decide as H5.
    { destruct H5 as [Hs _]. destruct Hs as [c Hc].
      apply char_at_bounds in Hc. apply advances_ok. lia. }
    destruct (starts_with "true" _) eqn:H6.
    { apply starts_with_length in H6. simpl in H6.
      assert (1 <= pos')%nat by lia.
      rewrite from_pos_length in H6 by done.
      apply advances_ok. lia. }
    destruct (starts_with "false" _) eqn:H7.
    { apply starts_with_length in H7. simpl in H7.
      assert (1 <= pos')%nat by lia.
      rewrite from_pos_length in H7 by done.
      apply advances_ok. lia. }
    apply advances_raise. intros p [= <-]. lia.
  - intros pos obj b Hpos Hfuel. rewrite decode_object_unfold.
    destruct (IHd pos (Some "}"%char)) as (Hf & Hb & He); [lia | lia |].
    destruct (decode fuel cs pos (Some "}"%char)) as [[key p1]|e1|] eqn:Hk;
      [|apply advances_raise; intros p; by apply He|done].
    specialize (Hb _ _ eq_refl). simpl.
    assert (advances cs (pos - 1)
              (if negb b then Raise CommaMissingObject
               else
                 let* (pos, _) := skip_delim cs p1 ":" true in
                 let* (v, pos) := decode fuel cs pos None in
                 let obj := rawset obj key v in
                 let* (pos, delim_found) := skip_delim cs pos "," false in
                 decode_object fuel cs pos obj delim_found)) as Hrest.
    { destruct b; simpl; [|by apply advances_raise].
      pose proof (skip_delim_fuel cs p1 ":" true) as Hf2.
      destruct (skip_delim cs p1 ":" true) as [[p2 b2]|e2|] eqn:Hd2;
        [|apply advances_raise; intros p;
          eapply skip_delim_raise; [|exact Hd2]; lia|done].
      apply skip_delim_bounds in Hd2 as [Hd2a Hd2b]. simpl.
      destruct (IHd p2 None) as (Hf3 & Hb3 & He3); [lia | lia |].
      destruct (decode fuel cs p2 None) as [[v p3]|e3|] eqn:Hv;
        [|apply advances_raise; intros p; by apply He3|done].
      specialize (Hb3 _ _ eq_refl). simpl.
      pose proof (skip_delim_fuel cs p3 "," false) as Hf4.
      destruct (skip_delim cs p3 "," false) as [[p4 b4]|e4|] eqn:Hd4;
        [|apply advances_raise; intros p;
          eapply skip_delim_raise; [|exact Hd4]; lia|done].
      apply skip_delim_bounds in Hd4 as [Hd4a Hd4b]. simpl.
      apply (advances_weaken _ (p4 - 1)); [lia|]. apply IHo; lia. }
    destruct key; try exact Hrest.
    apply advances_ok. lia.
  - intros pos arr b Hpos Hfuel. rewrite decode_array_unfold.
    destruct (IHd pos (Some "]"%char)) as (Hf & Hb & He); [lia | lia |].
    destruct (decode fuel cs pos (Some "]"%char)) as [[val p1]|e1|] eqn:Hk;
      [|apply advances_raise; intros p; by apply He|done].
    specialize (Hb _ _ eq_refl). simpl.
    assert (advances cs (pos - 1)
              (if negb b then Raise CommaMissingArray
               else
                 let arr := rawset arr (VNum (LInt (lua_len arr + 1))) val in
                 let* (pos, delim_found) := skip_delim cs p1 "," false in
                 decode_array fuel cs pos arr delim_found)) as Hrest.
    { destruct b; simpl; [|by apply advances_raise].
      pose proof (skip_delim_fuel cs p1 "," false) as Hf4.
      destruct (skip_delim cs p1 "," false) as [[p4 b4]|e4|] eqn:Hd4;
        [|apply advances_raise; intros p;
          eapply skip_delim_raise; [|exact Hd4]; lia|done].
      apply skip_delim_bounds in Hd4 as [Hd4a Hd4b]. simpl.
      apply (advances_weaken _ (p4 - 1)); [lia|]. apply IHa; lia. }
    destruct val; try exact Hrest.
    apply advances_ok. lia.
Qed.
End Budget.

Lemma list_ascii_length (s : string) :
  length (list_ascii_of_string s) = String.length s.
Proof. induction s; simpl; auto. Qed.

Lemma json_decode_advances str :
  advances (list_ascii_of_string str) 1 (json_decode str).
Proof.
  unfold json_decode, decode_budget.
  destruct (decode_advances_all (list_ascii_of_string str)
              (2 * length (list_ascii_of_string str) + 2)) as [H _].
  apply H; unfold left_from; lia.
Qed.

(** [json.decode] returns a value or raises: the budget of the model is never
    what ends it. *)
Lemma decode_budget_enough str : json_decode str <> OutOfFuel.
Proof. apply json_decode_advances. Qed.

(** ** The paths of the directory are different files *)

Section Paths.
Context (h : Host).

Lemma mcp_path_inj a b : MCP_DIR h +:+ a = MCP_DIR h +:+ b -> a = b.
Proof. apply (inj (String.app (MCP_DIR h))). Qed.

Lemma cmd_ne_proc : CMD_FILE h <> PROC_FILE h.
Proof. intros H%mcp_path_inj. discriminate. Qed.
Lemma cmd_ne_tmp : CMD_FILE h <> RESP_TMP_FILE h.
Proof. intros H%mcp_path_inj. discriminate. Qed.
Lemma cmd_ne_resp : CMD_FILE h <> RESP_FILE h.
Proof. intros H%mcp_path_inj. discriminate. Qed.
Lemma proc_ne_tmp : PROC_FILE h <> RESP_TMP_FILE h.
Proof. intros H%mcp_path_inj. discriminate. Qed.
Lemma proc_ne_resp : PROC_FILE h <> RESP_FILE h.
Proof. intros H%mcp_path_inj. discriminate. Qed.
Lemma tmp_ne_resp : RESP_TMP_FILE h <> RESP_FILE h.
Proof. intros H%mcp_path_inj. discriminate. Qed.
End Paths.

Create HintDb paths.
#[export] Hint Resolve cmd_ne_proc cmd_ne_tmp cmd_ne_resp proc_ne_tmp
  proc_ne_resp tmp_ne_resp : paths.

Ltac paths_ne :=
  first [ solve [auto with paths]
        | solve [apply not_eq_sym; auto with paths] ].

(** Lookups in a directory after inserts and deletes at these paths. *)
Ltac fs_simpl :=
  repeat first
    [ rewrite lookup_insert_eq
    | rewrite lookup_delete_eq
    | rewrite lookup_insert_ne by paths_ne
    | rewrite lookup_delete_ne by paths_ne ].

(** ** Running the primitive actions *)

Section Actions.
Context {h : Host}.
Implicit Types (m : machine h) (fs : gmap string string).

Lemma bind_ok {A B} (c : M h A) (k : A -> M h B) m a m' :
  c m = (Ok a, m') -> bind c k m = k a m'.
Proof. unfold bind. by intros ->. Qed.

Lemma bind_raise {A B} (c : M h A) (k : A -> M h B) m e m' :
  c m = (Raise e, m') -> bind c k m = (Raise e, m').
Proof. unfold bind. by intros ->. Qed.

Lemma bind_fuel {A B} (c : M h A) (k : A -> M h B) m m' :
  c m = (OutOfFuel, m') -> bind c k m = (OutOfFuel, m').
Proof. unfold bind. by intros ->. Qed.

Lemma read_file_some path m content :
  files m !! path = Some content ->
  read_file path m = (Ok (Some content), m).
Proof.
  intros H. unfold read_file, io_open_r, read_all, get_files, bind, ret.
  rewrite bool_decide_eq_true_2 by (rewrite H; eauto).
  simpl. by rewrite H.
Qed.

Lemma read_file_none path m :
  files m !! path = None -> read_file path m = (Ok None, m).
Proof.
  intros H. unfold read_file, io_open_r, read_all, get_files, bind, ret.
  rewrite bool_decide_eq_false_2; [done|].
  rewrite H. by intros [? ?].
Qed.

Lemma io_open_r_run path m :
  io_open_r path m = (Ok (bool_decide (is_Some (files m !! path))), m).
Proof. reflexivity. Qed.

Lemma write_file_run path content m :
  write_file path content m =
    (Ok tt,
     after (EvWrite path content)
       (<[path := content]> (<[path := ""]> (files m)))
       (after (EvCreate path) (<[path := ""]> (files m)) m)).
Proof. reflexivity. Qed.

Lemma os_rename_some src dst m fs' :
  renamed src dst (files m) = Some fs' ->
  os_rename src dst m = (Ok (true, VNil), after (EvRename src dst true) fs' m).
Proof. intros H. unfold os_rename, get_files, bind. by rewrite H. Qed.

Lemma os_rename_none src dst m :
  renamed src dst (files m) = None ->
  os_rename src dst m =
    (Ok (false, VStr (src +:+ ": No such file or directory")),
     after (EvRename src dst false) (files m) m).
Proof. intros H. unfold os_rename, get_files, bind. by rewrite H. Qed.

Lemma os_remove_run path m :
  os_remove path m =
    (Ok tt, after (EvRemove path) (delete path (files m)) m).
Proof. reflexivity. Qed.

Lemma log_run msg m :
  log msg m = (Ok tt, after (EvLog ("[MCP Bridge] " +:+ msg)) (files m) m).
Proof. reflexivity. Qed.

Lemma renamed_some src dst fs content :
  fs !! src = Some content ->
  renamed src dst fs = Some (<[dst := content]> (delete src fs)).
Proof. unfold renamed. by intros ->. Qed.

Lemma renamed_none src dst fs : fs !! src = None -> renamed src dst fs = None.
Proof. unfold renamed. by intros ->. Qed.
End Actions.

(** ** The events of a script that talks only through [log] *)

Section Quiet.
Context {h : Host}.
Implicit Types (m : machine h).

Lemma quiet_refl m : quiet m m.
Proof. split; [done|]. exists []. simpl. by rewrite app_nil_r. Qed.

Lemma quiet_trans m1 m2 m3 : quiet m1 m2 -> quiet m2 m3 -> quiet m1 m3.
Proof.
  intros [F1 [l1 J1]] [F2 [l2 J2]]. split; [congruence|].
  exists (l1 ++ l2). rewrite J2, J1, F1, map_app. by rewrite app_assoc.
Qed.

Lemma quietly_ret {A} (a : A) : quietly (h:=h) (ret a).
Proof. intros m. apply quiet_refl. Qed.

Lemma quietly_lift {A} (r : result value A) : quietly (h:=h) (lift r).
Proof. intros m. apply quiet_refl. Qed.

Lemma quietly_bind {A B} (c : M h A) (k : A -> M h B) :
  quietly c -> (forall a, quietly (k a)) -> quietly (bind c k).
Proof.
  intros Hc Hk m. unfold bind. specialize (Hc m).
  destruct (c m) as [[a| |] m']; simpl in *; try done.
  eapply quiet_trans; [exact Hc|]. apply Hk.
Qed.

Lemma quietly_log msg : quietly (h:=h) (log msg).
Proof. intros m. split; [done|]. by exists ["[MCP Bridge] " +:+ msg]. Qed.

Lemma quietly_pcall (f : handler h) args : quietly (h:=h) (pcall_command f args).
Proof.
  intros m. unfold pcall_command. destruct (f args (dt m)) as [r w].
  destruct r; simpl; (split; [done|]; exists []; simpl;
    by rewrite app_nil_r).
Qed.

Lemma quietly_pcall_decode content : quietly (h:=h) (pcall_decode (h:=h) content).
Proof.
  unfold pcall_decode. destruct (json_decode content) as [[v p]| |].
  - apply quietly_ret.
  - apply quietly_ret.
  - apply quietly_lift.
Qed.

Lemma quietly_build content : quietly (h:=h) (build_result_payload h content).
Proof.
  unfold build_result_payload.
  apply quietly_bind; [apply quietly_pcall_decode|]. intros [st v].
  destruct (st && truthy v).
  - apply quietly_bind; [apply quietly_lift|]. intros cmd.
    apply quietly_bind; [apply quietly_lift|]. intros args.
    destruct (commands h cmd) as [command|].
    + apply quietly_bind; [apply quietly_log|]. intros _.
      apply quietly_bind; [apply quietly_pcall|]. intros [[] res].
      * apply quietly_ret.
      * apply quietly_bind; [apply quietly_log|]. intros _.
        apply quietly_ret.
    + apply quietly_bind; [apply quietly_log|]. intros _.
      apply quietly_ret.
  - apply quietly_bind; [apply quietly_log|]. intros _.
    apply quietly_ret.
Qed.
End Quiet.

(** ** Counting claims and publications in the journal *)

Section Counting.
Context {h : Host}.
Implicit Types (m : machine h).

Lemma publications_after ev fs m :
  publications (after ev fs m) =
    (publications m + if is_publish h (ev, fs) then 1 else 0)%nat.
Proof.
  unfold publications, after; simpl. rewrite filter_app, length_app.
  f_equal. rewrite filter_cons, filter_nil.
  destruct (is_publish h (ev, fs)); by case_decide.
Qed.

Lemma claims_after ev fs m :
  claims (after ev fs m) =
    (claims m + if is_claim h (ev, fs) then 1 else 0)%nat.
Proof.
  unfold claims, after; simpl. rewrite filter_app, length_app.
  f_equal. rewrite filter_cons, filter_nil.
  destruct (is_claim h (ev, fs)); by case_decide.
Qed.

Lemma response_views_after ev fs m :
  response_views (after ev fs m) = response_views m ++ [fs !! RESP_FILE h].
Proof. unfold response_views, after; simpl. by rewrite map_app. Qed.

Lemma quiet_counts m m' :
  quiet m m' ->
  publications m' = publications m /\ claims m' = claims m /\
  exists n, response_views m' =
              response_views m ++ replicate n (files m !! RESP_FILE h).
Proof.
  intros [_ [lines J]]. unfold publications, claims, response_views.
  rewrite J. clear J. rewrite !filter_app, !length_app, map_app.
  assert (filter (fun e => is_publish h e = true)
            (map (fun l => (EvLog l, files m)) lines) = []) as ->.
  { induction lines as [|l lines IH]; [done|]. simpl.
    rewrite filter_cons. by case_decide. }
  assert (filter (fun e => is_claim h e = true)
            (map (fun l => (EvLog l, files m)) lines) = []) as ->.
  { induction lines as [|l lines IH]; [done|]. simpl.
    rewrite filter_cons. by case_decide. }
  simpl. repeat split; try lia. exists (length lines). f_equal.
  induction lines as [|l lines IH]; [done|]. simpl. by f_equal.
Qed.

Lemma is_publish_rename fs :
  is_publish h (EvRename (RESP_TMP_FILE h) (RESP_FILE h) true, fs) = true.
Proof. unfold is_publish; simpl. by rewrite !String.eqb_refl. Qed.

Lemma is_claim_rename fs :
  is_claim h (EvRename (CMD_FILE h) (PROC_FILE h) true, fs) = true.
Proof. unfold is_claim; simpl. by rewrite !String.eqb_refl. Qed.

Lemma is_claim_publish fs :
  is_claim h (EvRename (RESP_TMP_FILE h) (RESP_FILE h) true, fs) = false.
Proof.
  unfold is_claim; simpl. apply andb_false_iff. left.
  apply String.eqb_neq. intros H. by apply (cmd_ne_tmp h).
Qed.

Lemma is_publish_claim fs :
  is_publish h (EvRename (CMD_FILE h) (PROC_FILE h) true, fs) = false.
Proof.
  unfold is_publish; simpl. apply andb_false_iff. left.
  apply String.eqb_neq. by apply (cmd_ne_tmp h).
Qed.
End Counting.

(** ** The run of [process_claimed] *)

Section Claimed.
Context (h : Host).
Implicit Types (m : machine h).

Lemma process_claimed_empty m :
  files m !! PROC_FILE h = None \/ files m !! PROC_FILE h = Some "" ->
  process_claimed h m =
    (Ok tt, after (EvRemove (PROC_FILE h)) (delete (PROC_FILE h) (files m)) m).
Proof.
  intros [H|H]; unfold process_claimed.
  - by rewrite (bind_ok _ _ _ _ _ (read_file_none _ _ H)).
  - by rewrite (bind_ok _ _ _ _ _ (read_file_some _ _ _ H)).
Qed.

Lemma publish_steps resp m :
  (write_file (RESP_TMP_FILE h) resp;;
   let! _ := os_rename (RESP_TMP_FILE h) (RESP_FILE h) in
   os_remove (PROC_FILE h)) m = (Ok tt, publish_run h resp m).
Proof.
  rewrite (bind_ok _ _ _ _ _ (write_file_run _ _ _)).
  set (m2 := after (EvWrite _ _) _ _).
  assert (renamed (RESP_TMP_FILE h) (RESP_FILE h) (files m2) =
            Some (<[RESP_FILE h := resp]>
                    (delete (RESP_TMP_FILE h) (files m2)))) as Hr.
  { apply renamed_some. apply lookup_insert_eq. }
  by rewrite (bind_ok _ _ _ _ _ (os_rename_some _ _ _ _ Hr)).
Qed.

Lemma process_claimed_run m content :
  files m !! PROC_FILE h = Some content -> content <> "" ->
  process_claimed h m =
    match build_result_payload h content (received h content m) with
    | (Ok payload, m2) =>
        match json_encode h false payload with
        | Ok resp => (Ok tt, publish_run h resp m2)
        | Raise e => (Raise (encode_error_value h e), m2)
        | OutOfFuel => (OutOfFuel, m2)
        end
    | (Raise e, m2) => (Raise e, m2)
    | (OutOfFuel, m2) => (OutOfFuel, m2)
    end.
Proof.
  intros H Hne. unfold process_claimed.
  rewrite (bind_ok _ _ _ _ _ (read_file_some _ _ _ H)).
  destruct content as [|c0 content']; [done|].
  set (content := String c0 content') in *.
  rewrite (bind_ok _ _ _ _ _ (log_run _ _)).
  change (after _ (files m) m) with (received h content m).
  unfold bind at 1.
  destruct (build_result_payload h content (received h content m))
    as [[payload| |] m2]; try done.
  unfold bind at 1, encode_or_raise.
  destruct (json_encode h false payload) as [resp|e|]; try done.
  simpl. apply publish_steps.
Qed.

Lemma publish_run_counts resp m :
  publications (publish_run h resp m) = S (publications m) /\
  claims (publish_run h resp m) = claims m.
Proof.
  unfold publish_run. cbv zeta.
  rewrite !publications_after, !claims_after.
  rewrite is_publish_rename, is_claim_publish. simpl. lia.
Qed.

Lemma publish_run_files resp m :
  files (publish_run h resp m) !! RESP_FILE h = Some resp /\
  files (publish_run h resp m) !! PROC_FILE h = None /\
  files (publish_run h resp m) !! RESP_TMP_FILE h = None /\
  files (publish_run h resp m) !! CMD_FILE h = files m !! CMD_FILE h.
Proof. unfold publish_run; simpl. repeat split; by fs_simpl. Qed.

Lemma publish_run_views resp m :
  response_views (publish_run h resp m) =
    response_views m ++
      [files m !! RESP_FILE h; files m !! RESP_FILE h; Some resp; Some resp].
Proof.
  unfold publish_run. cbv zeta. rewrite !response_views_after.
  simpl. fs_simpl. by rewrite <- !app_assoc.
Qed.
End Claimed.

(** ** Pollers racing for the request *)

Section Race.
Context (h : Host).

Lemma count_insert {C} (P : C -> bool) (pool : list C) i c c' :
  pool !! i = Some c ->
  (length (filter (fun x => P x = true) (<[i := c']> pool))
     + (if P c then 1 else 0)
   = length (filter (fun x => P x = true) pool)
     + (if P c' then 1 else 0))%nat.
Proof.
  revert i. induction pool as [|x pool IH]; intros i Hi; [done|].
  destruct i as [|i]; simpl in *.
  - injection Hi as ->. rewrite !filter_cons.
    destruct (P c) eqn:Ec, (P c') eqn:Ec'; repeat case_decide;
      simpl; try congruence; lia.
  - rewrite !filter_cons. specialize (IH i Hi).
    case_decide; simpl; lia.
Qed.

Lemma claim_step_keeps pool fs i c :
  pool !! i = Some c ->
  one_winner h pool fs ->
  one_winner h (<[i := (claim_step h c fs).1]> pool) (claim_step h c fs).2.
Proof.
  intros Hi Hinv. unfold one_winner, owners in *.
  pose proof (count_insert is_owner pool i c (claim_step h c fs).1 Hi) as Hc.
  destruct c; simpl in *.
  - case_bool_decide; simpl in *; rewrite !Nat.add_0_r in Hc;
      (destruct Hinv as [E|[E F]];
       [left; congruence | right; split; [congruence|done]]).
  - unfold renamed in *.
    destruct (fs !! CMD_FILE h) as [content|] eqn:Hcmd;
      simpl in *.
    + destruct Hinv as [E|[E F]]; [|congruence]. right. split; [lia|].
      rewrite lookup_insert_ne by (apply not_eq_sym, cmd_ne_proc).
      apply lookup_delete_eq.
    + rewrite !Nat.add_0_r in Hc.
      destruct Hinv as [E|[E F]];
        [left; congruence | right; split; [congruence|done]].
  - rewrite list_insert_id by done. done.
  - rewrite list_insert_id by done. done.
Qed.

Lemma run_pool_one_winner schedule : forall pool fs,
  one_winner h pool fs ->
  one_winner h (run_pool (claim_step h) schedule pool fs).1
             (run_pool (claim_step h) schedule pool fs).2.
Proof.
  induction schedule as [|i schedule IH]; intros pool fs Hinv; [done|].
  simpl. destruct (pool !! i) as [c|] eqn:Hi; [|by apply IH].
  pose proof (claim_step_keeps pool fs i c Hi Hinv) as Hstep.
  destruct (claim_step h c fs) as [c' fs']. by apply IH.
Qed.

Lemma owners_fresh n : owners (replicate n AtOpen) = 0%nat.
Proof.
  unfold owners. induction n as [|n IH]; [done|]. simpl.
  rewrite filter_cons. by case_decide.
Qed.

Lemma at_most_one_owner schedule n fs :
  (owners (run_pool (claim_step h) schedule (replicate n AtOpen) fs).1 <= 1)%nat.
Proof.
  destruct (run_pool_one_winner schedule (replicate n AtOpen) fs) as [E|[E _]].
  - left. apply owners_fresh.
  - lia.
  - lia.
Qed.
End Race.

(** ** What [process_claimed] adds to the journal *)

Section Tick.
Context (h : Host).
Implicit Types (m : machine h).

Lemma received_quiet content m : quiet m (received h content m).
Proof. apply (quietly_log _ m). Qed.

Lemma built_quiet content m :
  quiet m (build_result_payload h content (received h content m)).2.
Proof.
  eapply quiet_trans; [apply received_quiet|]. apply quietly_build.
Qed.

Lemma process_claimed_claims m :
  claims (process_claimed h m).2 = claims m.
Proof.
  destruct (files m !! PROC_FILE h) as [[|c0 content]|] eqn:Hproc.
  - rewrite process_claimed_empty by auto. simpl. rewrite claims_after.
    simpl. lia.
  - rewrite (process_claimed_run h m (String c0 content)) by done.
    pose proof (built_quiet (String c0 content) m) as Q.
    apply quiet_counts in Q as (_ & Q & _).
    destruct (build_result_payload _ _ _) as [[payload| |] m2];
      simpl in *; try done.
    destruct (json_encode h false payload); simpl; try done.
    by rewrite (proj2 (publish_run_counts h _ _)).
  - rewrite process_claimed_empty by auto. simpl. rewrite claims_after.
    simpl. lia.
Qed.

Lemma claim_run m content :
  files m !! CMD_FILE h = Some content ->
  process_commands h m =
    process_claimed h
      (after (EvRename (CMD_FILE h) (PROC_FILE h) true)
         (<[PROC_FILE h := content]> (delete (CMD_FILE h) (files m))) m) /\
  claim_and_process h m =
    process_claimed h
      (after (EvRename (CMD_FILE h) (PROC_FILE h) true)
         (<[PROC_FILE h := content]> (delete (CMD_FILE h) (files m))) m).
Proof.
  intros Hcmd.
  assert (claim_and_process h m =
    process_claimed h
      (after (EvRename (CMD_FILE h) (PROC_FILE h) true)
         (<[PROC_FILE h := content]> (delete (CMD_FILE h) (files m))) m))
    as Hclaim.
  { unfold claim_and_process.
    by rewrite (bind_ok _ _ _ _ _
                  (os_rename_some _ _ _ _ (renamed_some _ _ _ _ Hcmd))). }
  split; [|done]. rewrite <- Hclaim. unfold process_commands.
  rewrite (bind_ok _ _ _ _ _ (io_open_r_run _ _)).
  rewrite bool_decide_eq_true_2 by (rewrite Hcmd; eauto). done.
Qed.

Lemma lost_race_run m :
  files m !! CMD_FILE h = None ->
  process_commands h m = (Ok tt, m) /\
  claim_and_process h m =
    (Ok tt,
     after (EvLog ("[MCP Bridge] Failed to rename command file: "
                   +:+ CMD_FILE h +:+ ": No such file or directory"))
       (files m)
       (after (EvRename (CMD_FILE h) (PROC_FILE h) false) (files m) m)).
Proof.
  intros Hcmd. split.
  - unfold process_commands.
    rewrite (bind_ok _ _ _ _ _ (io_open_r_run _ _)).
    rewrite bool_decide_eq_false_2; [done|].
    rewrite Hcmd. by intros [? ?].
  - unfold claim_and_process.
    by rewrite (bind_ok _ _ _ _ _
                  (os_rename_none _ _ _ (renamed_none _ _ _ Hcmd))).
Qed.
End Tick.

(** C1 (as amended).  In [process_commands] the claim is one rename of
    [cmd.json] to [processing.json]: when the request is there the rename is
    the first thing done, it moves the payload to the claimed path, and it is
    the only claim of the tick; when the request is not there (the slot is
    empty, or another poller renamed it after the existence check) the
    script logs the failure and returns without error and without touching
    the directory; and among any number of pollers stepping in any order at
    most one becomes the owner. *)
Theorem process_commands_claims_by_rename (h : Host) :
  (forall (m : machine h) content,
     files m !! CMD_FILE h = Some content ->
     let claimed :=
       after (EvRename (CMD_FILE h) (PROC_FILE h) true)
         (<[PROC_FILE h := content]> (delete (CMD_FILE h) (files m))) m in
     claim_step h AtRename (files m) = (Owner, files claimed) /\
     files claimed !! PROC_FILE h = Some content /\
     files claimed !! CMD_FILE h = None /\
     process_commands h m = process_claimed h claimed /\
     claim_and_process h m = process_claimed h claimed /\
     claims (process_commands h m).2 = S (claims m)) /\
  (forall m : machine h,
     files m !! CMD_FILE h = None ->
     claim_step h AtOpen (files m) = (Idle, files m) /\
     claim_step h AtRename (files m) = (Idle, files m) /\
     process_commands h m = (Ok tt, m) /\
     claim_and_process h m =
       (Ok tt,
        after (EvLog ("[MCP Bridge] Failed to rename command file: "
                      +:+ CMD_FILE h +:+ ": No such file or directory"))
          (files m)
          (after (EvRename (CMD_FILE h) (PROC_FILE h) false) (files m) m))) /\
  (forall schedule n fs,
     (owners (run_pool (claim_step h) schedule (replicate n AtOpen) fs).1
      <= 1)%nat).
Proof.
  split; [|split].
  - intros m content Hcmd claimed.
    destruct (claim_run h m content Hcmd) as [Hp Hc].
    repeat split.
    + simpl. unfold renamed. by rewrite Hcmd.
    + simpl. apply lookup_insert_eq.
    + simpl. rewrite lookup_insert_ne by (apply not_eq_sym, cmd_ne_proc).
      apply lookup_delete_eq.
    + exact Hp.
    + exact Hc.
    + rewrite Hp, process_claimed_claims. unfold claimed.
      rewrite claims_after, is_claim_rename. lia.
  - intros m Hcmd. destruct (lost_race_run h m Hcmd) as [Hp Hc].
    repeat split; try done.
    + simpl. rewrite bool_decide_eq_false_2; [done|].
      rewrite Hcmd. by intros [? ?].
    + simpl. unfold renamed. by rewrite Hcmd.
  - apply at_most_one_owner.
Qed.

(** ** Encoding the error responses *)

Section ErrorPayload.
Context (h : Host).

Lemma in_order_ok {E A} (l : list (result E A)) :
  Forall (fun r => is_ok r = true) l -> exists xs, in_order l = Ok xs.
Proof.
  induction 1 as [|r l Hr _ [xs IH]]; [by exists []|].
  destruct r as [a| |]; try done. exists (a :: xs). simpl. by rewrite IH.
Qed.

(** A table of two string fields, whatever order [pairs] visits them in. *)
Lemma encode_two_strings k1 v1 k2 v2 :
  String.eqb k1 k2 = false ->
  exists text,
    json_encode h false (table_of [(k1, VStr v1); (k2, VStr v2)]) = Ok text.
Proof.
  intros Hk. unfold table_of. simpl. rewrite Hk. simpl.
  set (encs := [(VStr k1, _); (VStr k2, _)]).
  destruct (in_order_ok
    (map (fun e : value * (result encode_error string
                           * result encode_error string) =>
            let* k := fst (snd e) in
            let* v := snd (snd e) in
            Ok (k +:+ ":" +:+ v))
         (pairs_order h _ encs))) as [xs Hxs].
  { apply Forall_map.
    eapply Permutation_Forall; [symmetry; apply pairs_order_perm|].
    repeat constructor. }
  rewrite Hxs. eauto.
Qed.

Lemma encode_error_payload msg :
  exists text,
    json_encode h false
      (table_of [("status", VStr "error"); ("error", VStr msg)]) = Ok text.
Proof. by apply encode_two_strings. Qed.

(** The text of an error response: its two fields in one of the two
    orders [pairs] can visit them in. *)
Lemma error_payload_text msg text :
  json_encode h false
    (table_of [("status", VStr "error"); ("error", VStr msg)]) = Ok text ->
  text = dq "{'status':'error', 'error':'" +:+ escape_str msg +:+ dq "'}" \/
  text = dq "{'error':'" +:+ escape_str msg +:+ dq "', 'status':'error'}".
Proof.
  assert (forall a b c : string, (a +:+ b) +:+ c = a +:+ (b +:+ c))
    as Hassoc.
  { intros a b c. induction a as [|x a IH]; [done|].
    change (String x a +:+ b) with (String x (a +:+ b)).
    change (String x (a +:+ b) +:+ c) with (String x ((a +:+ b) +:+ c)).
    by rewrite IH. }
  unfold table_of. simpl.
  set (encs := [(VStr "status", _); (VStr "error", _)]).
  destruct (Permutation_length_2_inv
              (Permutation_sym (pairs_order_perm h _ encs))) as [-> | ->];
    simpl; intros [= <-]; [left|right]; rewrite !Hassoc; reflexivity.
Qed.
End ErrorPayload.

(** ** The payloads a tick answers *)

#[local] Arguments json_encode : simpl never.
#[local] Arguments table_of : simpl never.
#[local] Arguments json_decode : simpl never.

Section Answer.
Context (h : Host).
Implicit Types (m : machine h).

(** What lines 266 to 295 come to: the encoded response, when the payload
    has an answer. *)
Lemma build_and_encode content m :
  answerable h content (dt m) = true ->
  exists payload resp m2,
    build_result_payload h content m = (Ok payload, m2) /\
    json_encode h false payload = Ok resp.
Proof.
  unfold answerable, build_result_payload, pcall_decode.
  destruct (json_decode content) as [[request p]|e|]; [| |done].
  - rewrite (bind_ok _ _ _ _ _ (eq_refl : ret (true, request) m = _)).
    simpl. destruct (truthy request) eqn:Ht.
    + destruct (index h 273 "request" request "cmd") as [cmd| |]; try done.
      destruct (index h 274 "request" request "args") as [args| |];
        try done.
      rewrite (bind_ok _ _ _ _ _ (eq_refl : lift (Ok cmd) m = _)).
      rewrite (bind_ok _ _ _ _ _ (eq_refl : lift (Ok args) m = _)).
      destruct (commands h cmd) as [command|].
      * rewrite (bind_ok _ _ _ _ _ (log_run _ _)).
        unfold bind at 1, pcall_command. simpl.
        destruct (command _ (dt m)) as [[res|err|] w]; simpl; try done.
        -- intros Hok.
           destruct (json_encode h false
                       (table_of [("status", VStr "ok"); ("data", res)]))
             as [resp| |] eqn:Henc; try done.
           eauto 10.
        -- intros _. rewrite (bind_ok _ _ _ _ _ (log_run _ _)).
           destruct (encode_error_payload h (tostring h err)) as [t Ht'].
           eauto 10.
      * intros _. rewrite (bind_ok _ _ _ _ _ (log_run _ _)).
        destruct (encode_error_payload h
                    ("Unknown command: " +:+ tostring h cmd)) as [t Ht'].
        eauto 10.
    + intros _. rewrite (bind_ok _ _ _ _ _ (log_run _ _)).
      destruct (encode_error_payload h
                  ("JSON parse error: " +:+ tostring h request)) as [t Ht'].
      eauto 10.
  - intros _.
    rewrite (bind_ok _ _ _ _ _
               (eq_refl : ret (false, json_error_value h e) m = _)).
    simpl. rewrite (bind_ok _ _ _ _ _ (log_run _ _)).
    destruct (encode_error_payload h
                ("JSON parse error: " +:+ tostring h (json_error_value h e)))
      as [t Ht'].
    eauto 10.
Qed.

(** And when it has none, no response text is reached. *)
Lemma build_or_encode_fails content m :
  answerable h content (dt m) = false ->
  match build_result_payload h content m with
  | (Ok payload, _) => is_ok (json_encode h false payload) = false
  | _ => True
  end.
Proof.
  unfold answerable, build_result_payload, pcall_decode.
  destruct (json_decode content) as [[request p]|e|]; [|done|done].
  rewrite (bind_ok _ _ _ _ _ (eq_refl : ret (true, request) m = _)).
  simpl. destruct (truthy request) eqn:Ht; [|done].
  destruct (index h 273 "request" request "cmd") as [cmd| |]; try done.
  destruct (index h 274 "request" request "args") as [args| |]; try done.
  rewrite (bind_ok _ _ _ _ _ (eq_refl : lift (Ok cmd) m = _)).
  rewrite (bind_ok _ _ _ _ _ (eq_refl : lift (Ok args) m = _)).
  destruct (commands h cmd) as [command|]; [|done].
  rewrite (bind_ok _ _ _ _ _ (log_run _ _)).
  unfold bind at 1, pcall_command. simpl.
  destruct (command _ (dt m)) as [[res|err|] w]; simpl; try done.
Qed.
End Answer.

Section Answered.
Context (h : Host).
Implicit Types (m : machine h).

Lemma claimed_files content m :
  files (claimed_by_rename h content m) !! PROC_FILE h = Some content /\
  files (claimed_by_rename h content m) !! CMD_FILE h = None /\
  files (claimed_by_rename h content m) !! RESP_FILE h
    = files m !! RESP_FILE h.
Proof. unfold claimed_by_rename; simpl. repeat split; by fs_simpl. Qed.

Lemma claimed_counts content m :
  claims (claimed_by_rename h content m) = S (claims m) /\
  publications (claimed_by_rename h content m) = publications m /\
  response_views (claimed_by_rename h content m)
    = response_views m ++ [files m !! RESP_FILE h].
Proof.
  unfold claimed_by_rename.
  rewrite claims_after, publications_after, response_views_after.
  rewrite is_claim_rename, is_publish_claim. fs_simpl.
  repeat split; lia || done.
Qed.

(** The tick on a request with a payload: the claim, the log line, the
    computation of the response, and then either the four steps of the
    publication or the error that ends the tick. *)
Lemma tick_run m content :
  files m !! CMD_FILE h = Some content -> content <> "" ->
  process_commands h m =
    match build_result_payload h content
            (received h content (claimed_by_rename h content m)) with
    | (Ok payload, m2) =>
        match json_encode h false payload with
        | Ok resp => (Ok tt, publish_run h resp m2)
        | Raise e => (Raise (encode_error_value h e), m2)
        | OutOfFuel => (OutOfFuel, m2)
        end
    | (Raise e, m2) => (Raise e, m2)
    | (OutOfFuel, m2) => (OutOfFuel, m2)
    end.
Proof.
  intros Hcmd Hne. rewrite (proj1 (claim_run h m content Hcmd)).
  apply process_claimed_run; [|done]. apply claimed_files.
Qed.

Lemma tick_quiet m content :
  quiet (claimed_by_rename h content m)
    (build_result_payload h content
       (received h content (claimed_by_rename h content m))).2.
Proof. apply built_quiet. Qed.

Lemma answerable_tick m content :
  files m !! CMD_FILE h = Some content -> content <> "" ->
  answerable h content (dt m) = true ->
  exists m' payload resp,
    process_commands h m = (Ok tt, m') /\
    json_encode h false payload = Ok resp /\
    (build_result_payload h content
       (received h content (claimed_by_rename h content m))).1 = Ok payload /\
    claims m' = S (claims m) /\
    publications m' = S (publications m) /\
    files m' !! RESP_FILE h = Some resp /\
    files m' !! PROC_FILE h = None /\
    files m' !! CMD_FILE h = None.
Proof.
  intros Hcmd Hne Hans. rewrite (tick_run m content Hcmd Hne).
  pose proof (tick_quiet m content) as Q.
  destruct (build_and_encode h content
              (received h content (claimed_by_rename h content m)) Hans)
    as (payload & resp & m2 & Hb & He).
  rewrite Hb in *. rewrite He. simpl in Q.
  exists (publish_run h resp m2), payload, resp.
  destruct (quiet_counts _ _ Q) as (Qp & Qc & _).
  destruct Q as [Qf _].
  destruct (claimed_counts content m) as (Cc & Cp & _).
  destruct (claimed_files content m) as (_ & Fc & _).
  destruct (publish_run_counts h resp m2) as [Pp Pc].
  destruct (publish_run_files h resp m2) as (F1 & F2 & _ & F4).
  repeat split; try done; try congruence.
Qed.

Lemma unanswerable_tick m content :
  files m !! CMD_FILE h = Some content -> content <> "" ->
  answerable h content (dt m) = false ->
  (process_commands h m).1 <> Ok tt /\
  claims (process_commands h m).2 = S (claims m) /\
  publications (process_commands h m).2 = publications m /\
  files (process_commands h m).2 !! PROC_FILE h = Some content /\
  files (process_commands h m).2 !! RESP_FILE h = files m !! RESP_FILE h.
Proof.
  intros Hcmd Hne Hans. rewrite (tick_run m content Hcmd Hne).
  pose proof (tick_quiet m content) as Q.
  pose proof (build_or_encode_fails h content
                (received h content (claimed_by_rename h content m)) Hans)
    as Hfail.
  destruct (build_result_payload h content _) as [r m2]. simpl in Q.
  destruct (quiet_counts _ _ Q) as (Qp & Qc & _).
  destruct Q as [Qf _].
  destruct (claimed_counts content m) as (Cc & Cp & _).
  destruct (claimed_files content m) as (Fp & _ & Fr).
  assert (claims m2 = S (claims m) /\ publications m2 = publications m /\
          files m2 !! PROC_FILE h = Some content /\
          files m2 !! RESP_FILE h = files m !! RESP_FILE h) as Hm2.
  { rewrite Qf. repeat split; congruence. }
  destruct r as [payload|e|]; simpl; try (split; [done|exact Hm2]).
  destruct (json_encode h false payload); simpl in *;
    try done; split; done || exact Hm2.
Qed.

Lemma empty_payload_tick m :
  files m !! CMD_FILE h = Some "" ->
  process_commands h m =
    (Ok tt,
     after (EvRemove (PROC_FILE h))
       (delete (PROC_FILE h) (files (claimed_by_rename h "" m)))
       (claimed_by_rename h "" m)).
Proof.
  intros Hcmd. rewrite (proj1 (claim_run h m "" Hcmd)).
  apply process_claimed_empty. right. apply claimed_files.
Qed.
End Answered.

(** C2 (as amended).  A claimed request whose payload is not empty and has
    an answer is answered exactly once: the tick ends without error, the
    journal shows one claim and one publication more, the response is at the
    final path and the claimed file is gone; this holds whether the payload
    failed to parse, named no known command, or named a command that raised
    or returned.  A claimed request whose payload is empty is removed and
    gets no response. *)
Theorem claimed_request_published_once (h : Host) (m : machine h)
    (content : string) :
  files m !! CMD_FILE h = Some content ->
  (content <> "" -> answerable h content (dt m) = true ->
   exists m' resp,
     process_commands h m = (Ok tt, m') /\
     claims m' = S (claims m) /\
     publications m' = S (publications m) /\
     files m' !! RESP_FILE h = Some resp /\
     files m' !! PROC_FILE h = None /\
     files m' !! CMD_FILE h = None) /\
  (content = "" ->
   exists m',
     process_commands h m = (Ok tt, m') /\
     claims m' = S (claims m) /\
     publications m' = publications m /\
     files m' !! RESP_FILE h = files m !! RESP_FILE h /\
     files m' !! PROC_FILE h = None /\
     files m' !! CMD_FILE h = None).
Proof.
  intros Hcmd. split.
  - intros Hne Hans.
    destruct (answerable_tick h m content Hcmd Hne Hans)
      as (m' & payload & resp & H1 & _ & _ & H2).
    by exists m', resp.
  - intros ->. rewrite (empty_payload_tick h m Hcmd). eexists. split; [done|].
    destruct (claimed_counts h "" m) as (Cc & Cp & _).
    rewrite claims_after, publications_after. simpl.
    unfold claimed_by_rename in *. simpl.
    repeat split; try lia; by fs_simpl.
Qed.

#[local] Arguments publish_run : simpl never.

(** C3 (as amended).  During a tick of [process_commands] a reader of
    [response.json] finds, after every event, either what was there before
    the tick or what is there after it; and when the tick changes the file,
    what is there after it is the whole encoded response, which was first
    created and written at the temporary path and then renamed. *)
Theorem response_is_published_whole (h : Host) (m : machine h) :
  let m' := (process_commands h m).2 in
  exists views,
    response_views m' = response_views m ++ views /\
    Forall (fun v => v = files m !! RESP_FILE h \/ v = files m' !! RESP_FILE h)
      views /\
    (files m' !! RESP_FILE h = files m !! RESP_FILE h \/
     exists payload resp before fs1 fs2 fs3 fs4,
       json_encode h false payload = Ok resp /\
       files m' !! RESP_FILE h = Some resp /\
       publications m' = S (publications m) /\
       journal m' =
         before ++
         [(EvCreate (RESP_TMP_FILE h), fs1);
          (EvWrite (RESP_TMP_FILE h) resp, fs2);
          (EvRename (RESP_TMP_FILE h) (RESP_FILE h) true, fs3);
          (EvRemove (PROC_FILE h), fs4)]).
Proof.
  intros m'. subst m'.
  destruct (files m !! CMD_FILE h) as [content|] eqn:Hcmd.
  2:{ rewrite (proj1 (lost_race_run h m Hcmd)). simpl. exists [].
      rewrite app_nil_r. auto. }
  destruct (claimed_counts h content m) as (Cc & Cp & Cv).
  destruct (claimed_files h content m) as (Fp & Fc & Fr).
  destruct (decide (content = "")) as [->|Hne].
  { rewrite (empty_payload_tick h m Hcmd). cbn [fst snd].
    rewrite response_views_after, Cv, <- app_assoc. simpl.
    fs_simpl. eexists. split; [done|]. split; [|by left].
    repeat constructor. }
  rewrite (tick_run h m content Hcmd Hne).
  pose proof (tick_quiet h m content) as Q.
  destruct (build_result_payload h content _) as [r m2]. simpl in Q.
  destruct (quiet_counts _ _ Q) as (Qp & Qc & n & Qv).
  destruct Q as [Qf _].
  assert (response_views m2 =
            response_views m ++ replicate (S n) (files m !! RESP_FILE h))
    as Hviews.
  { by rewrite Qv, Cv, Fr, <- app_assoc. }
  assert (files m2 !! RESP_FILE h = files m !! RESP_FILE h) as Hresp
    by (rewrite Qf; done).
  assert (exists views,
            response_views m2 = response_views m ++ views /\
            Forall (fun v => v = files m !! RESP_FILE h \/
                             v = files m2 !! RESP_FILE h) views /\
            (files m2 !! RESP_FILE h = files m !! RESP_FILE h \/ False))
    as Hquiet.
  { exists (replicate (S n) (files m !! RESP_FILE h)).
    split; [done|]. split; [|by left].
    apply Forall_forall. intros v Hv%elem_of_replicate. left. apply Hv. }
  destruct r as [payload|e|]; cbn [fst snd].
  2,3: destruct Hquiet as (views & H1 & H2 & H3);
       exists views; split; [done|]; split; [done|]; by left.
  destruct (json_encode h false payload) as [resp|e|] eqn:Henc;
    cbn [fst snd].
  2,3: destruct Hquiet as (views & H1 & H2 & H3);
       exists views; split; [done|]; split; [done|]; by left.
  destruct (publish_run_files h resp m2) as (F1 & _).
  destruct (publish_run_counts h resp m2) as [Pp _].
  rewrite publish_run_views, Hviews, <- app_assoc, Hresp, F1.
  eexists. split; [done|]. split.
  - apply Forall_app. split.
    + apply Forall_forall. intros v Hv%elem_of_replicate. left. apply Hv.
    + apply Forall_cons; split; [by left|].
      apply Forall_cons; split; [by left|].
      apply Forall_cons; split; [by right|].
      apply Forall_cons; split; [by right|]. by apply Forall_nil.
  - right. exists payload, resp. eexists (journal m2), _, _, _, _.
    split; [done|]. split; [done|]. split; [congruence|].
    unfold publish_run, after. cbn [journal]. by rewrite <- !app_assoc.
Qed.

(** ** A payload that is a number *)

(** C6, the failing input.  The payload [5] is claimed and decoded to the
    number 5, and the field access on it raises outside of any [pcall]: the
    error leaves [process_commands], no response is published and the
    claimed file stays. *)
Theorem number_payload_raises (h : Host) (w : world h) :
  let m := session h w {[CMD_FILE h := "5"]} in
  (process_commands h m).1 =
    Raise (VStr (where_ h 273 +:+
                 "attempt to index a number value (local 'request')")) /\
  publications (process_commands h m).2 = 0%nat /\
  files (process_commands h m).2 !! RESP_FILE h = None /\
  files (process_commands h m).2 !! PROC_FILE h = Some "5".
Proof.
  intros m.
  assert (files m !! CMD_FILE h = Some "5") as Hcmd
    by apply lookup_singleton_eq.
  assert (answerable h "5" (dt m) = false) as Hans by reflexivity.
  destruct (unanswerable_tick h m "5" Hcmd ltac:(done) Hans)
    as (_ & _ & Hp & Hf & Hr).
  split; [|split; [|split]]; try done.
  - rewrite (tick_run h m "5" Hcmd) by done. reflexivity.
  - rewrite Hr. unfold m, session; simpl.
    apply lookup_singleton_ne, cmd_ne_resp.
Qed.

Section Unknown.
Context (h : Host).
Implicit Types (m : machine h).

Lemma index_string_is_table line var request field s :
  index h line var request field = Ok (VStr s) ->
  exists kvs, request = VTable kvs.
Proof. destruct request; simpl; try done. eauto. Qed.

Lemma build_unknown content request p name m :
  json_decode content = Ok (request, p) ->
  index h 273 "request" request "cmd" = Ok (VStr name) ->
  commands h (VStr name) = None ->
  (build_result_payload h content m).1 = Ok (unknown_command_payload name).
Proof.
  intros Hdec Hidx Hcmd.
  destruct (index_string_is_table _ _ _ _ _ Hidx) as [kvs ->].
  unfold build_result_payload, pcall_decode. rewrite Hdec.
  rewrite (bind_ok _ _ _ _ _ (eq_refl : ret (true, VTable kvs) m = _)).
  cbn [andb truthy]. rewrite Hidx.
  rewrite (bind_ok _ _ _ _ _ (eq_refl : lift (Ok (VStr name)) m = _)).
  cbn [index].
  rewrite (bind_ok _ _ _ _ _ (eq_refl : lift (Ok _) m = _)).
  rewrite Hcmd.
  rewrite (bind_ok _ _ _ _ _ (log_run _ _)). reflexivity.
Qed.

Lemma unknown_answerable content request p name w :
  json_decode content = Ok (request, p) ->
  index h 273 "request" request "cmd" = Ok (VStr name) ->
  commands h (VStr name) = None ->
  answerable h content w = true.
Proof.
  intros Hdec Hidx Hcmd.
  destruct (index_string_is_table _ _ _ _ _ Hidx) as [kvs ->].
  unfold answerable. rewrite Hdec. cbn [truthy]. rewrite Hidx.
  cbn [index]. by rewrite Hcmd.
Qed.

(** The run of the single-slot poller on a command it does not know. *)
Lemma legacy_unknown m content name json_args :
  files m !! CMD_FILE h = Some content ->
  Legacy.split_bar content = Some (name, json_args) ->
  Legacy.commands h name = None ->
  exists m',
    Legacy.check_command h m = (Ok tt, m') /\
    files m' !! RESP_FILE h =
      Some (Legacy.error_response h (VStr ("Unknown command: " +:+ name))).
Proof.
  intros Hcmd Hsplit Hnone. unfold Legacy.check_command.
  rewrite (bind_ok _ _ _ _ _ (read_file_some _ _ _ Hcmd)).
  destruct content as [|c0 content']; [done|].
  rewrite (bind_ok _ _ _ _ _ (write_file_run _ _ _)).
  rewrite Hsplit, Hnone.
  rewrite (bind_ok _ _ _ _ _ (eq_refl : ret (false, _) _ = _)).
  rewrite write_file_run. eexists. split; [done|].
  cbn [files after]. apply lookup_insert_eq.
Qed.
End Unknown.

(** C7.  A request that names a command the registry does not have is
    answered with the error response whose message is ["Unknown command: "]
    followed by the name, and the tick ends without error: in
    [process_commands] the response file holds the encoding of that table,
    which is the text [{"status":"error", "error":"Unknown command: <name>"}]
    with the name escaped by [escape_str], or the same two fields in the
    other order; in the single-slot poller [check_command] it holds the
    same two fields as text. *)
Theorem unknown_command_is_answered (h : Host) (m : machine h)
    (content name : string) :
  files m !! CMD_FILE h = Some content ->
  (forall request p,
     json_decode content = Ok (request, p) ->
     index h 273 "request" request "cmd" = Ok (VStr name) ->
     commands h (VStr name) = None ->
     exists m' resp,
       process_commands h m = (Ok tt, m') /\
       json_encode h false
         (table_of [("status", VStr "error");
                    ("error", VStr ("Unknown command: " +:+ name))])
         = Ok resp /\
       files m' !! RESP_FILE h = Some resp /\
       publications m' = S (publications m) /\
       (resp = dq "{'status':'error', 'error':'"
               +:+ escape_str ("Unknown command: " +:+ name) +:+ dq "'}" \/
        resp = dq "{'error':'"
               +:+ escape_str ("Unknown command: " +:+ name)
               +:+ dq "', 'status':'error'}")) /\
  (forall json_args,
     Legacy.split_bar content = Some (name, json_args) ->
     Legacy.commands h name = None ->
     exists m',
       Legacy.check_command h m = (Ok tt, m') /\
       files m' !! RESP_FILE h =
         Some (dq "{'status': 'error', 'error': 'Unknown command: "
               +:+ name +:+ dq "'}")).
Proof.
  intros Hcmd. split.
  - intros request p Hdec Hidx Hnone.
    assert (content <> "") as Hne.
    { intros ->. by vm_compute in Hdec. }
    destruct (answerable_tick h m content Hcmd Hne
                (unknown_answerable h _ _ _ _ (dt m) Hdec Hidx Hnone))
      as (m' & payload & resp & Hrun & Henc & Hbuild & _ & Hpub & Hresp & _).
    rewrite (build_unknown h _ _ _ _ _ Hdec Hidx Hnone) in Hbuild.
    injection Hbuild as <-. exists m', resp.
    split; [done|]. split; [done|]. split; [done|]. split; [done|].
    by apply (error_payload_text h).
  - intros json_args Hsplit Hnone.
    destruct (legacy_unknown h m content name json_args Hcmd Hsplit Hnone)
      as (m' & Hrun & Hresp).
    exists m'. split; [done|]. rewrite Hresp. reflexivity.
Qed.

(** ** File names made of integers *)

Section Decimal.

Lemma pretty_N_char_numeric x : numeric (pretty_N_char x) = true.
Proof.
  destruct x as [|p]; [done|].
  do 4 (try reflexivity; destruct p as [p|p|]); reflexivity.
Qed.

Lemma pretty_N_go_numeric x : forall s,
  all_numeric s = true -> all_numeric (pretty_N_go x s) = true.
Proof.
  induction x as [x IH] using (well_founded_induction N.lt_wf_0).
  intros s Hs. destruct (decide (0 < x)%N) as [Hx|Hx].
  - rewrite pretty_N_go_step by done. apply IH.
    + by apply N.div_lt.
    + simpl. by rewrite pretty_N_char_numeric.
  - assert (x = 0%N) as -> by lia. by rewrite pretty_N_go_0.
Qed.

Lemma pretty_N_numeric (x : N) : all_numeric (pretty x) = true.
Proof.
  unfold pretty, pretty_N. case_decide; [done|].
  by apply pretty_N_go_numeric.
Qed.

Lemma pretty_Z_numeric (z : Z) : all_numeric (pretty z) = true.
Proof.
  destruct z as [|p|p]; [done| |].
  - apply (pretty_N_numeric (N.pos p)).
  - unfold pretty, pretty_Z. simpl.
    apply (pretty_N_numeric (N.pos p)).
Qed.

(** Two texts that start with numbers and go on with the same character
    that is not part of a number agree on the number and on the rest. *)
Lemma numeric_prefix_inj c a b : forall s s',
  numeric c = false ->
  all_numeric s = true -> all_numeric s' = true ->
  s +:+ String c a = s' +:+ String c b -> s = s' /\ a = b.
Proof.
  intros s. induction s as [|x s IH]; intros s' Hc Hs Hs' E.
  - destruct s' as [|y s']; simpl in *.
    + by injection E as ->.
    + injection E as <- _. apply andb_true_iff in Hs' as [Hy _]. congruence.
  - destruct s' as [|y s']; simpl in *.
    + injection E as -> _. apply andb_true_iff in Hs as [Hx _]. congruence.
    + injection E as <- E.
      apply andb_true_iff in Hs as [_ Hs].
      apply andb_true_iff in Hs' as [_ Hs'].
      destruct (IH s' Hc Hs Hs' E) as [-> ->]. done.
Qed.
End Decimal.

Section Names.
Context (h : Host).

Lemma gui_request_path_inj t1 t2 :
  gui_request_path h t1 = gui_request_path h t2 -> t1 = t2.
Proof.
  unfold gui_request_path. intros E.
  apply (inj (String.app (DT_MCP_DIR h))) in E.
  apply (inj (String.app "/gui_request_")) in E.
  apply (numeric_prefix_inj "." "json" "json") in E
    as [E _]; try done; try apply pretty_Z_numeric.
  by apply (inj pretty) in E.
Qed.

Lemma upload_request_path_inj t1 i1 t2 i2 :
  upload_request_path h t1 i1 = upload_request_path h t2 i2 ->
  t1 = t2 /\ i1 = i2.
Proof.
  unfold upload_request_path. intros E.
  apply (inj (String.app (DT_MCP_DIR h))) in E.
  apply (inj (String.app "/upload_")) in E.
  apply (numeric_prefix_inj "_") in E
    as [E1 E2]; try done; try apply pretty_Z_numeric.
  apply (numeric_prefix_inj "." "json" "json") in E2
    as [E2 _]; try done; try apply pretty_Z_numeric.
  split; by apply (inj pretty).
Qed.
End Names.

(** C8 (as amended).  The name of an upload request is made of the time and
    the image identifier and tells these two apart: two upload requests get
    the same file exactly when they are for the same image in the same
    second.  The name of a GUI request is made of the time alone: two GUI
    requests get the same file exactly when they are filed in the same
    second. *)
Theorem request_names_by_time_and_image (h : Host) :
  (forall t1 i1 t2 i2,
     upload_request_path h t1 i1 = upload_request_path h t2 i2
     <-> t1 = t2 /\ i1 = i2) /\
  (forall t1 t2, gui_request_path h t1 = gui_request_path h t2 <-> t1 = t2).
Proof.
  split.
  - intros t1 i1 t2 i2. split; [apply upload_request_path_inj|].
    by intros [-> ->].
  - intros t1 t2. split; [apply gui_request_path_inj|]. by intros ->.
Qed.

(** ** The status reader *)

Section Status.
Context (h : Host).
Implicit Types (m : machine h).

Lemma check_status_absent m :
  files m !! status_file h = None ->
  check_status h m = (Ok tt, labelled offline_label m).
Proof.
  intros Hf. unfold check_status.
  rewrite (bind_ok _ _ _ _ _ (io_open_r_run _ _)).
  rewrite bool_decide_eq_false_2; [done|]. rewrite Hf. by intros [? ?].
Qed.

(** With the file there, [check_status] is what it does with the decoded
    content. *)
Lemma check_status_present m content :
  files m !! status_file h = Some content ->
  check_status h m =
    match json_decode content with
    | Ok (status, _) =>
        if truthy status then
          match index h 473 "status" status "message" with
          | Ok message =>
              if truthy message then
                match label_text h message with
                | inl text => (Ok tt, labelled text m)
                | inr e => (Raise e, m)
                end
              else (Ok tt, m)
          | Raise e => (Raise e, m)
          | OutOfFuel => (OutOfFuel, m)
          end
        else (Ok tt, m)
    | Raise e => (Raise (json_error_value h e), m)
    | OutOfFuel => (OutOfFuel, m)
    end.
Proof.
  intros Hf. unfold check_status.
  rewrite (bind_ok _ _ _ _ _ (io_open_r_run _ _)).
  rewrite bool_decide_eq_true_2 by (rewrite Hf; eauto).
  assert (read_all (status_file h) m = (Ok content, m)) as Hread.
  { unfold read_all, get_files, bind, ret. by rewrite Hf. }
  rewrite (bind_ok _ _ _ _ _ Hread).
  destruct (json_decode content) as [[status p]|e|]; try done.
  destruct (truthy status); [|done].
  unfold bind, lift.
  destruct (index h 473 "status" status "message") as [message|e|];
    try done.
  destruct (truthy message); [|done].
  unfold assign_status_cloud_label.
  by destruct (label_text h message).
Qed.
End Status.


(** C10.  [check_status] calls [json.decode] outside of [pcall]: when the
    status file is there and its content does not decode, the error of the
    decoder leaves [check_status] and the label stays as it was.  The label
    ["Server Offline (No Status)"] is set when the file is absent; when the
    file is there, a reading that ends without error leaves the panel as it
    was or shows the message of the file. *)
Theorem check_status_decodes_unguarded (h : Host) (m : machine h) :
  (forall content e,
     files m !! status_file h = Some content ->
     json_decode content = Raise e ->
     check_status h m = (Raise (json_error_value h e), m)) /\
  (files m !! status_file h = None ->
   check_status h m = (Ok tt, labelled offline_label m)) /\
  (forall content m',
     files m !! status_file h = Some content ->
     check_status h m = (Ok tt, m') ->
     m' = m \/
     exists status p message text,
       json_decode content = Ok (status, p) /\
       index h 473 "status" status "message" = Ok message /\
       label_text h message = inl text /\
       m' = labelled text m).
Proof.
  split; [|split].
  - intros content e Hf Hdec.
    by rewrite (check_status_present h m content Hf), Hdec.
  - apply check_status_absent.
  - intros content m' Hf. rewrite (check_status_present h m content Hf).
    destruct (json_decode content) as [[status p]|e|]; try done.
    destruct (truthy status); [|intros [= <-]; by left].
    destruct (index h 473 "status" status "message") as [message|e|] eqn:Hi;
      try done.
    destruct (truthy message); [|intros [= <-]; by left].
    destruct (label_text h message) as [text|e] eqn:Hl; [|done].
    intros [= <-]. right. by exists status, p, message, text.
Qed.

(** ** The codec *)

(** C4, the failing input.  A string that is one newline is encoded as a
    backslash and the letter n between quotes, and that text decodes to the
    letter n.  The value [nil] is encoded as [null], which does not decode. *)
Theorem newline_does_not_round_trip (h : Host) :
  json_encode h false (VStr (str1 ch_nl)) =
    Ok (String ch_quote (String ch_backslash (String "n" (str1 ch_quote)))) /\
  json_decode
    (String ch_quote (String ch_backslash (String "n" (str1 ch_quote)))) =
    Ok (VStr "n", 5%nat) /\
  json_encode h false VNil = Ok "null" /\
  json_decode "null" = Raise (InvalidSyntax 1).
Proof. repeat split; reflexivity. Qed.

(** C5 (as amended).  [json.decode] comes back on every string: it returns a
    value and the position after it, or it raises one of the seven errors of
    the decoder.  An error that reports a position reports one between 1 and
    the length of the string plus one; the errors for the end of the input
    and for a missing comma report none.  Under [pcall], as in
    [process_commands], the error is the second result and nothing is
    raised. *)
Theorem json_decode_returns_or_raises (str : string) :
  json_decode str <> OutOfFuel /\
  (forall v p,
     json_decode str = Ok (v, p) -> (1 < p <= S (String.length str))%nat) /\
  (forall e p,
     json_decode str = Raise e -> json_error_offset e = Some p ->
     (1 <= p <= S (String.length str))%nat) /\
  (forall e,
     json_decode str = Raise e ->
     json_error_offset e = None <->
     e = EndOfString \/ e = EndOfInput \/
     e = CommaMissingObject \/ e = CommaMissingArray) /\
  (forall (h : Host) (m : machine h),
     exists status res,
       pcall_decode str m = (Ok (status, res), m) /\
       (status = false <->
        exists e, json_decode str = Raise e /\ res = json_error_value h e)).
Proof.
  destruct (json_decode_advances str) as (Hfuel & Hok & Herr).
  rewrite list_ascii_length in *.
  split; [done|]. split; [done|]. split; [done|]. split.
  - intros e _. destruct e; simpl; split; try done; intuition congruence.
  - intros h m. unfold pcall_decode.
    destruct (json_decode str) as [[v p]|e|]; [| |done].
    + exists true, v. split; [done|]. split; [done|]. by intros (e & ? & _).
    + exists false, (json_error_value h e). split; [done|].
      split; [|done]. intros _. by exists e.
Qed.

(** ** Strings that do come back

    The defect shown by [newline_does_not_round_trip] is confined to the five
    control characters that [escape_str] writes as a letter. *)

Section PlainStrings.

Lemma string_app_cons x a b : String x a +:+ b = String x (a +:+ b).
Proof. reflexivity. Qed.

Lemma string_app_assoc a b c : (a +:+ b) +:+ c = a +:+ (b +:+ c).
Proof.
  induction a as [|x a IH]; [done|]. rewrite !string_app_cons. by f_equal.
Qed.

Lemma string_app_nil_r a : a +:+ "" = a.
Proof.
  induction a as [|x a IH]; [done|]. rewrite string_app_cons. by f_equal.
Qed.

Lemma list_ascii_app a b :
  list_ascii_of_string (a +:+ b) =
    list_ascii_of_string a ++ list_ascii_of_string b.
Proof.
  induction a as [|x a IH]; [done|]. rewrite string_app_cons. simpl.
  by f_equal.
Qed.

Lemma string_length_app a b :
  String.length (a +:+ b) = (String.length a + String.length b)%nat.
Proof.
  induction a as [|x a IH]; [done|]. rewrite string_app_cons. simpl.
  by f_equal.
Qed.

Lemma gsub_char_app c repl a b :
  gsub_char c repl (a +:+ b) = gsub_char c repl a +:+ gsub_char c repl b.
Proof.
  induction a as [|x a IH]; [done|]. rewrite string_app_cons. simpl.
  rewrite IH. destruct (Ascii.eqb x c).
  - by rewrite string_app_assoc.
  - by rewrite string_app_cons.
Qed.

Lemma escape_str_app a b : escape_str (a +:+ b) = escape_str a +:+ escape_str b.
Proof. unfold escape_str. simpl. by rewrite !gsub_char_app. Qed.

Lemma escape_str_char c : escape_str (str1 c) = escape_char c.
Proof. destruct c as [[] [] [] [] [] [] [] []]; reflexivity. Qed.

Lemma escape_str_cons c s :
  escape_str (String c s) = escape_char c +:+ escape_str s.
Proof.
  change (String c s) with (str1 c +:+ s).
  by rewrite escape_str_app, escape_str_char.
Qed.

(** The decoder reads what [escape_str] wrote for a plain character as
    that character. *)
Lemma parse_escaped_char c rest pos val :
  plain_char c = true ->
  parse_str_val_from (list_ascii_of_string (escape_char c) ++ rest) pos val =
    parse_str_val_from rest (pos + String.length (escape_char c))
      (val +:+ str1 c).
Proof.
  destruct c as [[] [] [] [] [] [] [] []]; try discriminate; intros _;
    simpl; f_equal; lia.
Qed.

Lemma parse_escaped_string s : forall pos val,
  plain_string s = true ->
  parse_str_val_from
    (list_ascii_of_string (escape_str s) ++ [ch_quote]) pos val =
    Ok (VStr (val +:+ s), S (pos + String.length (escape_str s))).
Proof.
  induction s as [|c s IH]; intros pos val Hs.
  - simpl. by rewrite Nat.add_0_r, string_app_nil_r.
  - simpl in Hs. apply andb_true_iff in Hs as [Hc Hs].
    rewrite escape_str_cons, list_ascii_app, <- app_assoc.
    rewrite parse_escaped_char by done. rewrite IH by done.
    rewrite string_length_app, string_app_assoc. simpl.
    f_equal. f_equal. lia.
Qed.
End PlainStrings.

(** X1.  A string without backspace, form feed, newline, carriage return
    and tab is decoded to itself from its encoding, and the decoder stops
    right after the closing quote. *)
Lemma plain_string_round_trip (h : Host) (s : string) :
  plain_string s = true ->
  json_encode h false (VStr s) =
    Ok (str1 ch_quote +:+ escape_str s +:+ str1 ch_quote) /\
  json_decode (str1 ch_quote +:+ escape_str s +:+ str1 ch_quote) =
    Ok (VStr s, (String.length (escape_str s) + 3)%nat).
Proof.
  intros Hs. split; [reflexivity|].
  unfold json_decode, decode_budget. rewrite Nat.add_comm.
  change (2 + ?n)%nat with (S (S n)). rewrite decode_unfold.
  rewrite !list_ascii_app. simpl.
  unfold parse_str_val, from_pos. simpl. rewrite drop_0.
  rewrite parse_escaped_string by done. simpl. f_equal. f_equal. lia.
Qed.

(** ** When a tick ends without error *)

(** X2.  A tick of [process_commands] on a claimed payload that is not empty
    ends without error exactly when the payload has an answer. *)
Lemma tick_ok_iff_answerable (h : Host) (m : machine h) (content : string) :
  files m !! CMD_FILE h = Some content -> content <> "" ->
  (process_commands h m).1 = Ok tt <-> answerable h content (dt m) = true.
Proof.
  intros Hcmd Hne. split.
  - intros Hok. destruct (answerable h content (dt m)) eqn:Hans; [done|].
    by destruct (unanswerable_tick h m content Hcmd Hne Hans) as [Hno _].
  - intros Hans.
    destruct (answerable_tick h m content Hcmd Hne Hans)
      as (m' & payload & resp & Hrun & _).
    by rewrite Hrun.
Qed.

(** ** The single-slot poller raises nothing *)

(** X3.  [check_command] ends without error on every directory, provided
    the commands it runs come back: what a command raises is caught by
    [pcall], and nothing else in the function can raise. *)
Lemma check_command_never_raises (h : Host) (m : machine h) :
  (forall name command args w,
     Legacy.commands h name = Some command ->
     (command args w).1 <> OutOfFuel) ->
  (Legacy.check_command h m).1 = Ok tt.
Proof.
  intros Hback. unfold Legacy.check_command.
  destruct (files m !! CMD_FILE h) as [content|] eqn:Hcmd.
  2:{ by rewrite (bind_ok _ _ _ _ _ (read_file_none _ _ Hcmd)). }
  rewrite (bind_ok _ _ _ _ _ (read_file_some _ _ _ Hcmd)).
  destruct content as [|c0 content']; [done|].
  rewrite (bind_ok _ _ _ _ _ (write_file_run _ _ _)).
  destruct (Legacy.split_bar _) as [[cmd_name json_args]|]; [|done].
  destruct (Legacy.commands h cmd_name) as [command|] eqn:Hc.
  - unfold bind at 1, pcall_command.
    specialize (Hback cmd_name command (scan_args h json_args) (dt m) Hc).
    cbn [dt after].
    destruct (command (scan_args h json_args) (dt m)) as [[res|e|] w];
      try done.
  - by rewrite (bind_ok _ _ _ _ _ (eq_refl : ret (false, _) _ = _)).
Qed.

(** ** The claims as stated, on concrete runs *)

(** C1, as stated, fails for the single-slot poller: [check_command] takes the
    request by reading the file and then writing an empty one, without any
    rename, and two pollers that both read before either writes both take
    the same request. *)
Lemma legacy_claim_both_win :
  legacy_owners
    (run_pool (legacy_claim_step sample_host) [0; 1; 0; 1]%nat
       [LAtRead; LAtRead]
       {[ CMD_FILE sample_host := "set_rating|{}" ]}).1 = 2%nat /\
  map fst
    (journal
       (Legacy.check_command sample_host
          (sample_session (CMD_FILE sample_host) "nonexistent_cmd|{}")).2) =
    [EvCreate (CMD_FILE sample_host);
     EvWrite (CMD_FILE sample_host) "";
     EvCreate (RESP_FILE sample_host);
     EvWrite (RESP_FILE sample_host)
       (dq "{'status': 'error', 'error': 'Unknown command: nonexistent_cmd'}")].
Proof. split; vm_compute; reflexivity. Qed.

(** C2, as stated, fails for a request file that is empty: it is claimed and
    removed, and no response is published. *)
Lemma empty_payload_gets_no_response :
  (process_commands sample_host
     (sample_session (CMD_FILE sample_host) "")).1 = Ok tt /\
  claims (process_commands sample_host
            (sample_session (CMD_FILE sample_host) "")).2 = 1%nat /\
  publications (process_commands sample_host
                  (sample_session (CMD_FILE sample_host) "")).2 = 0%nat /\
  files (process_commands sample_host
           (sample_session (CMD_FILE sample_host) "")).2
    !! RESP_FILE sample_host = None /\
  files (process_commands sample_host
           (sample_session (CMD_FILE sample_host) "")).2
    !! PROC_FILE sample_host = None.
Proof. repeat split; vm_compute; reflexivity. Qed.

(** C3, as stated, fails for the single-slot poller: [check_command] opens
    [response.json] itself for writing, and between the open and the write
    a reader finds the file empty. *)
Lemma legacy_response_seen_empty :
  response_views
    (Legacy.check_command sample_host
       (sample_session (CMD_FILE sample_host) "nonexistent_cmd|{}")).2 =
    [None; None; Some "";
     Some (dq "{'status': 'error', 'error': 'Unknown command: nonexistent_cmd'}")].
Proof. vm_compute; reflexivity. Qed.

(** C5, as stated, fails for a truncated payload: the decoder raises the
    error for the end of the input inside a string, which reports no
    position, and a caller without [pcall] gets the error raised. *)
Lemma truncated_payload_error_has_no_offset :
  json_decode truncated_request = Raise EndOfString /\
  json_error_offset EndOfString = None /\
  (check_status sample_host
     (sample_session (status_file sample_host) truncated_request)).1 =
    Raise (VStr "mcp_bridge.lua:56: End of input found while parsing string.").
Proof. repeat split; vm_compute; reflexivity. Qed.

(** C8, as stated, fails for two requests of one second: the two GUI
    requests are written to one file, and so are two uploads of one image;
    the later request replaces the earlier. *)
Lemma requests_of_one_second_collide :
  files two_gui_requests !! gui_request_path sample_host 1700000000 =
    Some (dq "{'tool':'cull_selection', 'args':{'ai_sensitivity':'Normal'}}") /\
  size (files two_gui_requests) = 1%nat /\
  files two_uploads !! upload_request_path sample_host 1700000000 7 =
    Some (dq "{'source_file':'\/tmp\/b.jpg', 'target':'cloud', 'target_remote':'remote:photos', 'img_id':7}") /\
  size (files two_uploads) = 1%nat.
Proof. repeat split; vm_compute; reflexivity. Qed.


(** ** The theorems on concrete runs *)

Lemma process_commands_claims_by_rename_witness :
  files (sample_session (CMD_FILE sample_host) rating_request)
    !! CMD_FILE sample_host = Some rating_request /\
  claims (process_commands sample_host
            (sample_session (CMD_FILE sample_host) rating_request)).2 =
    S (claims (sample_session (CMD_FILE sample_host) rating_request)).
Proof.
  assert (files (sample_session (CMD_FILE sample_host) rating_request)
            !! CMD_FILE sample_host = Some rating_request) as H
    by (vm_compute; reflexivity).
  split; [exact H|].
  exact (proj2 (proj2 (proj2 (proj2 (proj2
           (proj1 (process_commands_claims_by_rename sample_host)
              _ _ H)))))).
Defined.

Lemma claimed_request_published_once_witness :
  files (sample_session (CMD_FILE sample_host) rating_request)
    !! CMD_FILE sample_host = Some rating_request /\
  rating_request <> "" /\
  answerable sample_host rating_request tt = true /\
  exists m' resp,
    process_commands sample_host
      (sample_session (CMD_FILE sample_host) rating_request) = (Ok tt, m') /\
    claims m' =
      S (claims (sample_session (CMD_FILE sample_host) rating_request)) /\
    publications m' =
      S (publications (sample_session (CMD_FILE sample_host) rating_request)) /\
    files m' !! RESP_FILE sample_host = Some resp /\
    files m' !! PROC_FILE sample_host = None /\
    files m' !! CMD_FILE sample_host = None.
Proof.
  assert (files (sample_session (CMD_FILE sample_host) rating_request)
            !! CMD_FILE sample_host = Some rating_request) as H
    by (vm_compute; reflexivity).
  assert (rating_request <> "") as Hne by (vm_compute; discriminate).
  assert (answerable sample_host rating_request tt = true) as Hans
    by (vm_compute; reflexivity).
  split; [exact H|]. split; [exact Hne|]. split; [exact Hans|].
  exact (proj1 (claimed_request_published_once sample_host _ _ H) Hne Hans).
Defined.

Lemma unknown_command_is_answered_witness :
  (exists m',
     process_commands sample_host
       (sample_session (CMD_FILE sample_host) unknown_request) = (Ok tt, m') /\
     files m' !! RESP_FILE sample_host =
       Some (dq "{'status':'error', 'error':'Unknown command: nonexistent_cmd'}")
     /\
     publications m' =
       S (publications (sample_session (CMD_FILE sample_host) unknown_request)))
  /\
  (exists m',
     Legacy.check_command sample_host
       (sample_session (CMD_FILE sample_host) "nonexistent_cmd|{}")
       = (Ok tt, m') /\
     files m' !! RESP_FILE sample_host =
       Some (dq "{'status': 'error', 'error': 'Unknown command: "
             +:+ "nonexistent_cmd" +:+ dq "'}")).
Proof.
  split.
  - assert (files (sample_session (CMD_FILE sample_host) unknown_request)
              !! CMD_FILE sample_host = Some unknown_request) as H
      by (vm_compute; reflexivity).
    destruct (proj1 (unknown_command_is_answered sample_host
                       (sample_session (CMD_FILE sample_host) unknown_request)
                       unknown_request "nonexistent_cmd" H)
                (VTable [(VStr "cmd", VStr "nonexistent_cmd")]) 26%nat
                ltac:(vm_compute; reflexivity)
                ltac:(vm_compute; reflexivity)
                ltac:(vm_compute; reflexivity))
      as (m' & resp & Hrun & Henc & Hresp & Hpub & _).
    exists m'. split; [exact Hrun|]. split; [|exact Hpub].
    rewrite Hresp. f_equal.
    assert (Ok resp = Ok (dq "{'status':'error', 'error':'Unknown command: nonexistent_cmd'}")
              :> result encode_error string) as E
      by (rewrite <- Henc; vm_compute; reflexivity).
    by injection E.
  - refine (proj2 (unknown_command_is_answered sample_host
                     (sample_session (CMD_FILE sample_host)
                        "nonexistent_cmd|{}")
                     "nonexistent_cmd|{}" "nonexistent_cmd" _)
              "{}" _ _);
      vm_compute; reflexivity.
Defined.


Lemma check_status_decodes_unguarded_witness :
  check_status sample_host
    (sample_session (status_file sample_host) broken_status) =
    (Raise (json_error_value sample_host EndOfInput),
     sample_session (status_file sample_host) broken_status).
Proof.
  refine (proj1 (check_status_decodes_unguarded sample_host
                   (sample_session (status_file sample_host) broken_status))
            broken_status EndOfInput _ _);
    vm_compute; reflexivity.
Defined.

Lemma plain_string_round_trip_witness :
  plain_string "a/b c" = true /\
  json_decode (str1 ch_quote +:+ escape_str "a/b c" +:+ str1 ch_quote) =
    Ok (VStr "a/b c", (String.length (escape_str "a/b c") + 3)%nat).
Proof.
  assert (plain_string "a/b c" = true) as H by (vm_compute; reflexivity).
  split; [exact H|].
  exact (proj2 (plain_string_round_trip sample_host "a/b c" H)).
Defined.

Lemma tick_ok_iff_answerable_witness :
  (process_commands sample_host
     (sample_session (CMD_FILE sample_host) rating_request)).1 = Ok tt.
Proof.
  refine (proj2 (tick_ok_iff_answerable sample_host
                   (sample_session (CMD_FILE sample_host) rating_request)
                   rating_request _ _) _);
    vm_compute; (reflexivity || discriminate).
Defined.

Lemma check_command_never_raises_witness :
  (Legacy.check_command sample_host
     (sample_session (CMD_FILE sample_host) "set_rating|{}")).1 = Ok tt.
Proof.
  refine (check_command_never_raises sample_host _ _).
  intros name command args w Hc. unfold Legacy.commands in Hc. simpl in Hc.
  assert (forall n, (sample_command n args w).1 <> OutOfFuel) as Hs.
  { intros n. unfold sample_command.
    destruct args as [| | | |kvs]; try discriminate.
    destruct (rawget kvs (VStr "img_id")) as [| |[z|]| |]; try discriminate.
    destruct z as [|p|p]; try discriminate.
    destruct (decide (p = 42%positive)) as [->|Hp]; [discriminate|].
    do 7 (try destruct p as [p|p|]); discriminate || done. }
  repeat (destruct (String.eqb name _); [injection Hc as <-; apply Hs|]).
  discriminate.
Defined.

(** ** What a tick leaves alone *)

Section Frame.
Context (h : Host).
Implicit Types (m : machine h).

Lemma mailbox_file_false path :
  mailbox_file h path = false ->
  CMD_FILE h <> path /\ PROC_FILE h <> path /\
  RESP_TMP_FILE h <> path /\ RESP_FILE h <> path.
Proof.
  intros Hp%bool_decide_eq_false.
  repeat split; intros E; apply Hp; rewrite <- E; auto.
Qed.

Lemma publish_run_other resp m path :
  mailbox_file h path = false ->
  files (publish_run h resp m) !! path = files m !! path.
Proof.
  intros (_ & Hproc & Htmp & Hresp)%mailbox_file_false.
  unfold publish_run, after; cbn [files].
  rewrite lookup_delete_ne by done.
  rewrite lookup_insert_ne by done.
  rewrite lookup_delete_ne by done.
  by rewrite !lookup_insert_ne by done.
Qed.

Lemma claimed_other content m path :
  mailbox_file h path = false ->
  files (claimed_by_rename h content m) !! path = files m !! path.
Proof.
  intros (Hcmd & Hproc & _)%mailbox_file_false.
  unfold claimed_by_rename, after; cbn [files].
  rewrite lookup_insert_ne by done.
  by rewrite lookup_delete_ne by done.
Qed.
End Frame.

Lemma frame_of_tick (h : Host) (m : machine h) (path : string) :
  mailbox_file h path = false ->
  files (process_commands h m).2 !! path = files m !! path.
Proof.
  intros Hp.
  destruct (files m !! CMD_FILE h) as [content|] eqn:Hcmd.
  2:{ by rewrite (proj1 (lost_race_run h m Hcmd)). }
  destruct (decide (content = "")) as [->|Hne].
  { rewrite (empty_payload_tick h m Hcmd). cbn [snd after files].
    rewrite lookup_delete_ne.
    - by apply claimed_other.
    - by apply mailbox_file_false in Hp as (_ & ? & _). }
  rewrite (tick_run h m content Hcmd Hne).
  pose proof (tick_quiet h m content) as [Qf _].
  destruct (build_result_payload h content _) as [r m2]. cbn [snd] in Qf.
  assert (files m2 !! path = files m !! path) as Hm2.
  { rewrite Qf. by apply claimed_other. }
  destruct r as [payload|e|]; cbn [snd]; try done.
  destruct (json_encode h false payload); cbn [snd]; try done.
  by rewrite publish_run_other.
Qed.

(** X4.  A tick of [process_commands] changes no file other than
    [cmd.json], [processing.json], [response.json.tmp] and [response.json]:
    every other file of the directory is after the tick what it was before,
    however the tick ends. *)
Theorem process_commands_keeps_other_files (h : Host) (m : machine h)
    (path : string) :
  mailbox_file h path = false ->
  files (process_commands h m).2 !! path = files m !! path.
Proof. apply frame_of_tick. Qed.

Lemma process_commands_keeps_other_files_witness :
  mailbox_file sample_host (status_file sample_host) = false /\
  files (process_commands sample_host
           (session sample_host tt
              {[ CMD_FILE sample_host := rating_request;
                 status_file sample_host := stale_status ]})).2
    !! status_file sample_host = Some stale_status.
Proof.
  assert (mailbox_file sample_host (status_file sample_host) = false) as H
    by (vm_compute; reflexivity).
  split; [exact H|].
  rewrite (process_commands_keeps_other_files sample_host _ _ H).
  vm_compute; reflexivity.
Defined.

(** ** What the response says *)

Section Answers.
Context (h : Host).
Implicit Types (m : machine h).

Lemma json_decode_empty : json_decode "" = Raise EndOfInput.
Proof. vm_compute; reflexivity. Qed.

Lemma decoded_nonempty content r :
  json_decode content = Ok r -> content <> "".
Proof. intros H ->. by rewrite json_decode_empty in H. Qed.

Lemma publish_run_dt resp m : dt (publish_run h resp m) = dt m.
Proof. reflexivity. Qed.

Lemma tick_publishes m content payload m2 resp :
  files m !! CMD_FILE h = Some content -> content <> "" ->
  build_result_payload h content
    (received h content (claimed_by_rename h content m)) = (Ok payload, m2) ->
  json_encode h false payload = Ok resp ->
  process_commands h m = (Ok tt, publish_run h resp m2) /\
  files (publish_run h resp m2) !! RESP_FILE h = Some resp /\
  files (publish_run h resp m2) !! PROC_FILE h = None /\
  publications (publish_run h resp m2) = S (publications m) /\
  dt (publish_run h resp m2) = dt m2.
Proof.
  intros Hcmd Hne Hb He.
  rewrite (tick_run h m content Hcmd Hne), Hb, He.
  pose proof (tick_quiet h m content) as Hq. rewrite Hb in Hq. cbn [snd] in Hq.
  destruct (quiet_counts _ _ Hq) as (Hp & _).
  destruct (publish_run_files h resp m2) as (? & ? & _).
  destruct (publish_run_counts h resp m2) as (Hp2 & _).
  destruct (claimed_counts h content m) as (_ & Hp3 & _).
  repeat split; try done. rewrite Hp2, Hp, Hp3. done.
Qed.

Lemma build_parse_error content e m :
  json_decode content = Raise e ->
  build_result_payload h content m =
    (Ok (error_payload
           ("JSON parse error: " +:+ where_ h (json_error_line e)
            +:+ json_error_message e)),
     after (EvLog "[MCP Bridge] JSON parse error") (files m) m).
Proof.
  intros Hd. unfold build_result_payload, pcall_decode. rewrite Hd.
  reflexivity.
Qed.

Lemma build_false content p m :
  json_decode content = Ok (VBool false, p) ->
  build_result_payload h content m =
    (Ok (error_payload "JSON parse error: false"),
     after (EvLog "[MCP Bridge] JSON parse error") (files m) m).
Proof.
  intros Hd. unfold build_result_payload, pcall_decode. rewrite Hd.
  reflexivity.
Qed.
End Answers.

(** X5.  A request that is not JSON is answered with the decoder's message:
    for a non-empty payload on which [json.decode] raises, the tick ends
    without error, changes nothing in darktable, and publishes the encoding
    of [{status = "error", error = "JSON parse error: <chunk>:<line>:
    <message>"}].  A payload that is the JSON text [false] gets the answer
    "JSON parse error: false", although it decodes. *)
Theorem parse_error_is_answered (h : Host) (m : machine h) (content : string) :
  files m !! CMD_FILE h = Some content ->
  content <> "" ->
  (forall e,
     json_decode content = Raise e ->
     exists m' resp,
       process_commands h m = (Ok tt, m') /\
       json_encode h false
         (error_payload
            ("JSON parse error: " +:+ chunkname h +:+ ":"
             +:+ pretty (json_error_line e) +:+ ": "
             +:+ json_error_message e)) = Ok resp /\
       files m' !! RESP_FILE h = Some resp /\
       files m' !! PROC_FILE h = None /\
       publications m' = S (publications m) /\
       dt m' = dt m) /\
  (forall p,
     json_decode content = Ok (VBool false, p) ->
     exists m' resp,
       process_commands h m = (Ok tt, m') /\
       json_encode h false (error_payload "JSON parse error: false")
         = Ok resp /\
       files m' !! RESP_FILE h = Some resp /\
       files m' !! PROC_FILE h = None /\
       publications m' = S (publications m) /\
       dt m' = dt m).
Proof.
  intros Hcmd Hne. split.
  - intros e Hd.
    destruct (encode_error_payload h
                ("JSON parse error: " +:+ where_ h (json_error_line e)
                 +:+ json_error_message e)) as [resp He].
    destruct (tick_publishes h m content _ _ resp Hcmd Hne
                (build_parse_error h content e _ Hd) He)
      as (Hrun & Hr & Hp & Hn & Hw).
    eexists _, resp. split; [exact Hrun|].
    split.
    { unfold where_ in He. rewrite <- He. f_equal. unfold error_payload.
      do 3 f_equal. by rewrite !string_app_assoc. }
    repeat split; done.
  - intros p Hd.
    destruct (encode_error_payload h "JSON parse error: false") as [resp He].
    destruct (tick_publishes h m content _ _ resp Hcmd Hne
                (build_false h content p _ Hd) He)
      as (Hrun & Hr & Hp & Hn & Hw).
    eexists _, resp. split; [exact Hrun|]. repeat split; done.
Qed.

Lemma parse_error_is_answered_witness :
  files (sample_session (CMD_FILE sample_host) truncated_request)
    !! CMD_FILE sample_host = Some truncated_request /\
  truncated_request <> "" /\
  json_decode truncated_request = Raise EndOfString /\
  exists m' resp,
    process_commands sample_host
      (sample_session (CMD_FILE sample_host) truncated_request) = (Ok tt, m') /\
    json_encode sample_host false
      (error_payload
         ("JSON parse error: " +:+ chunkname sample_host +:+ ":"
          +:+ pretty (json_error_line EndOfString) +:+ ": "
          +:+ json_error_message EndOfString)) = Ok resp /\
    files m' !! RESP_FILE sample_host = Some resp /\
    files m' !! PROC_FILE sample_host = None /\
    publications m' =
      S (publications
           (sample_session (CMD_FILE sample_host) truncated_request)) /\
    dt m' = dt (sample_session (CMD_FILE sample_host) truncated_request).
Proof.
  assert (files (sample_session (CMD_FILE sample_host) truncated_request)
            !! CMD_FILE sample_host = Some truncated_request) as H
    by (vm_compute; reflexivity).
  assert (truncated_request <> "") as Hne by (vm_compute; discriminate).
  assert (json_decode truncated_request = Raise EndOfString) as Hd
    by (vm_compute; reflexivity).
  split; [exact H|]. split; [exact Hne|]. split; [exact Hd|].
  exact (proj1 (parse_error_is_answered sample_host _ _ H Hne) _ Hd).
Defined.

Section Outcomes.
Context (h : Host).
Implicit Types (m : machine h).

Lemma build_command content kvs p name command m :
  json_decode content = Ok (VTable kvs, p) ->
  rawget kvs (VStr "cmd") = VStr name ->
  commands h (VStr name) = Some command ->
  (forall res w,
     command (args_or_empty kvs) (dt m) = (Ok res, w) ->
     exists m2,
       build_result_payload h content m = (Ok (ok_payload res), m2) /\
       dt m2 = w) /\
  (forall err w,
     command (args_or_empty kvs) (dt m) = (Raise err, w) ->
     exists m2,
       build_result_payload h content m =
         (Ok (error_payload (tostring h err)), m2) /\
       dt m2 = w).
Proof.
  intros Hd Hc Hk. unfold build_result_payload, pcall_decode.
  rewrite Hd. cbn -[commands log]. rewrite Hc, Hk.
  change (if truthy (rawget kvs (VStr "args"))
          then rawget kvs (VStr "args") else VTable [])
    with (args_or_empty kvs).
  erewrite bind_ok by apply log_run.
  split; intros r w Hr.
  - unfold bind at 1, pcall_command. cbn [dt after]. rewrite Hr.
    eexists; split; reflexivity.
  - unfold bind at 1, pcall_command. cbn [dt after]. rewrite Hr.
    eexists; split; reflexivity.
Qed.
End Outcomes.

(** X6.  The response reports what the command did.  For a request that
    decodes to a table whose [cmd] names a registered command, the command
    is called with [request.args], or with an empty table when there is
    none.  If it returns [res], the published response is the encoding of
    [{status = "ok", data = res}]; if it raises [err], the tick still ends
    without error and the published response is the encoding of
    [{status = "error", error = tostring(err)}].  In both cases darktable is
    left as the command left it: what a command did before it failed is
    not undone. *)
Theorem command_outcome_is_answered (h : Host) (m : machine h)
    (content : string) (kvs : list (value * value)) (p : nat)
    (name : string) (command : handler h) :
  files m !! CMD_FILE h = Some content ->
  json_decode content = Ok (VTable kvs, p) ->
  rawget kvs (VStr "cmd") = VStr name ->
  commands h (VStr name) = Some command ->
  (forall res w resp,
     command (args_or_empty kvs) (dt m) = (Ok res, w) ->
     json_encode h false (ok_payload res) = Ok resp ->
     exists m',
       process_commands h m = (Ok tt, m') /\
       files m' !! RESP_FILE h = Some resp /\
       files m' !! PROC_FILE h = None /\
       publications m' = S (publications m) /\
       dt m' = w) /\
  (forall err w,
     command (args_or_empty kvs) (dt m) = (Raise err, w) ->
     exists m' resp,
       process_commands h m = (Ok tt, m') /\
       json_encode h false (error_payload (tostring h err)) = Ok resp /\
       files m' !! RESP_FILE h = Some resp /\
       files m' !! PROC_FILE h = None /\
       publications m' = S (publications m) /\
       dt m' = w).
Proof.
  intros Hcmd Hd Hc Hk.
  pose proof (decoded_nonempty _ _ Hd) as Hne.
  destruct (build_command h content kvs p name command
              (received h content (claimed_by_rename h content m)) Hd Hc Hk)
    as [Hok Herr].
  split.
  - intros res w resp Hr He.
    destruct (Hok res w Hr) as (m2 & Hb & Hw).
    destruct (tick_publishes h m content _ _ resp Hcmd Hne Hb He)
      as (Hrun & ? & ? & ? & Hw2).
    eexists. split; [exact Hrun|]. repeat split; try done; congruence.
  - intros err w Hr.
    destruct (Herr err w Hr) as (m2 & Hb & Hw).
    destruct (encode_error_payload h (tostring h err)) as [resp He].
    destruct (tick_publishes h m content _ _ resp Hcmd Hne Hb He)
      as (Hrun & ? & ? & ? & Hw2).
    eexists _, resp. split; [exact Hrun|]. repeat split; try done; congruence.
Qed.

Lemma command_outcome_is_answered_witness :
  files (sample_session (CMD_FILE sample_host) rating_request)
    !! CMD_FILE sample_host = Some rating_request /\
  exists m',
    process_commands sample_host
      (sample_session (CMD_FILE sample_host) rating_request) = (Ok tt, m') /\
    files m' !! RESP_FILE sample_host =
      Some (dq "{'status':'ok', 'data':{'success':true, 'id':42, 'did':'set_rating'}}") /\
    files m' !! PROC_FILE sample_host = None /\
    publications m' =
      S (publications (sample_session (CMD_FILE sample_host) rating_request)) /\
    dt m' = tt.
Proof.
  assert (files (sample_session (CMD_FILE sample_host) rating_request)
            !! CMD_FILE sample_host = Some rating_request) as H
    by (vm_compute; reflexivity).
  split; [exact H|].
  apply (proj1 (command_outcome_is_answered sample_host _ rating_request
                  [(VStr "cmd", VStr "set_rating");
                   (VStr "args",
                    VTable [(VStr "img_id", VNum (LInt 42));
                            (VStr "rating", VNum (LInt 5))])]
                  53%nat "set_rating" (sample_command "set_rating") H
                  ltac:(vm_compute; reflexivity)
                  ltac:(vm_compute; reflexivity)
                  ltac:(vm_compute; reflexivity))
           (table_of [("success", VBool true); ("id", VNum (LInt 42));
                      ("did", VStr "set_rating")]));
    vm_compute; reflexivity.
Defined.

(** X20.  A request is taken at most once by [process_commands]: after a
    tick, however it ends, there is no [cmd.json], and the tick that
    follows does nothing.  This holds also for the ticks that end with an
    error: the request they leave in [processing.json] is never tried
    again. *)
Theorem process_commands_takes_a_request_once (h : Host) (m : machine h) :
  files (process_commands h m).2 !! CMD_FILE h = None /\
  process_commands h (process_commands h m).2 =
    (Ok tt, (process_commands h m).2).
Proof.
  assert (files (process_commands h m).2 !! CMD_FILE h = None) as Hnone.
  { destruct (files m !! CMD_FILE h) as [content|] eqn:Hcmd.
    2:{ by rewrite (proj1 (lost_race_run h m Hcmd)). }
    destruct (claimed_files h content m) as (_ & Hc & _).
    destruct (decide (content = "")) as [->|Hne].
    { rewrite (empty_payload_tick h m Hcmd). cbn [snd after files].
      rewrite lookup_delete_ne by (intros E; by apply (cmd_ne_proc h)). exact Hc. }
    rewrite (tick_run h m content Hcmd Hne).
    pose proof (tick_quiet h m content) as [Qf _].
    destruct (build_result_payload h content _) as [r m2]. cbn [snd] in Qf.
    assert (files m2 !! CMD_FILE h = None) as Hm2 by (by rewrite Qf).
    destruct r as [payload|e|]; cbn [snd]; try done.
    destruct (json_encode h false payload) as [resp| |]; cbn [snd];
      try done.
    destruct (publish_run_files h resp m2) as (_ & _ & _ & ->). done. }
  split; [exact Hnone|]. by apply lost_race_run.
Qed.

(** ** The single-slot poller *)

Section LegacyRuns.
Context (h : Host).
Implicit Types (m : machine h).

Lemma string_app_nil_l (s : string) : "" +:+ s = s.
Proof. reflexivity. Qed.

Lemma split_bar_none s : Legacy.split_bar s = None <-> has_bar s = false.
Proof.
  unfold has_bar. induction s as [|c s IH]; [done|].
  cbn [Legacy.split_bar list_ascii_of_string existsb].
  destruct (Ascii.eqb c "|"); [done|]. cbn [orb]. rewrite <- IH.
  destruct (Legacy.split_bar s) as [[a b]|]; done.
Qed.

Lemma split_bar_some s a b :
  Legacy.split_bar s = Some (a, b) <->
  s = a +:+ String "|" b /\ has_bar a = false.
Proof.
  unfold has_bar. revert a. induction s as [|c s IH]; intros a.
  - split; [done|]. intros [E _]. by destruct a.
  - cbn [Legacy.split_bar].
    destruct (Ascii.eqb c "|") eqn:Ec.
    + apply Ascii.eqb_eq in Ec as ->. split.
      * intros [= <- <-]. done.
      * intros [E Ha]. destruct a as [|x a].
        { rewrite string_app_nil_l in E. by injection E as ->. }
        rewrite string_app_cons in E. injection E as <- _.
        cbn in Ha. done.
    + assert (forall a0, a +:+ String "|" b = String c s ->
                existsb (fun c => Ascii.eqb c "|") (list_ascii_of_string a)
                  = false ->
                (forall a1, s = a1 +:+ String "|" b ->
                   existsb (fun c => Ascii.eqb c "|")
                     (list_ascii_of_string a1) = false ->
                   a0 = Some (a1, b)) ->
                match a0 with
                | Some (a', b') => Some (String c a', b')
                | None => None
                end = Some (a, b)) as Hback.
      { intros a0 E Ha Hs. destruct a as [|x a].
        { rewrite string_app_nil_l in E. injection E as Ex _.
          rewrite <- Ex in Ec. by rewrite Ascii.eqb_refl in Ec. }
        rewrite string_app_cons in E. injection E as Ex E. subst x.
        cbn [list_ascii_of_string existsb] in Ha. rewrite Ec in Ha.
        cbn [orb] in Ha. by rewrite (Hs a (eq_sym E) Ha). }
      split.
      * destruct (Legacy.split_bar s) as [[a' b']|]; [|done].
        intros [= <- <-]. destruct (proj1 (IH a') eq_refl) as [-> Ha].
        rewrite string_app_cons. split; [done|].
        cbn [list_ascii_of_string existsb]. by rewrite Ec.
      * intros [E Ha]. apply Hback; [done..|].
        intros a1 E1 Ha1. by apply IH.
Qed.

Lemma legacy_idle m :
  files m !! CMD_FILE h = None \/ files m !! CMD_FILE h = Some "" ->
  Legacy.check_command h m = (Ok tt, m).
Proof.
  unfold Legacy.check_command. intros [Hc|Hc].
  - by rewrite (bind_ok _ _ _ _ _ (read_file_none _ _ Hc)).
  - by rewrite (bind_ok _ _ _ _ _ (read_file_some _ _ _ Hc)).
Qed.

Lemma legacy_taken m content :
  files m !! CMD_FILE h = Some content -> content <> "" ->
  Legacy.check_command h m =
    match Legacy.split_bar content with
    | None => (Ok tt, written (CMD_FILE h) "" m)
    | Some (cmd_name, json_args) =>
        (let! (status, result) :=
           match Legacy.commands h cmd_name with
           | Some command => pcall_command command (scan_args h json_args)
           | None => ret (false, VStr ("Unknown command: " +:+ cmd_name))
           end in
         write_file (RESP_FILE h)
           (if status then Legacy.ok_response h result
            else Legacy.error_response h result))
          (written (CMD_FILE h) "" m)
    end.
Proof.
  intros Hc Hne. unfold Legacy.check_command.
  rewrite (bind_ok _ _ _ _ _ (read_file_some _ _ _ Hc)).
  destruct content as [|c0 content']; [done|].
  rewrite (bind_ok _ _ _ _ _ (write_file_run _ _ _)).
  destruct (Legacy.split_bar _) as [[cmd_name json_args]|]; done.
Qed.

(** Whatever the run after the clearing write does, it leaves the request
    file empty and touches the response file only. *)
Lemma legacy_rest_files m cmd_name json_args path :
  path <> RESP_FILE h ->
  files
    ((let! (status, result) :=
        match Legacy.commands h cmd_name with
        | Some command => pcall_command command (scan_args h json_args)
        | None => ret (false, VStr ("Unknown command: " +:+ cmd_name))
        end in
      write_file (RESP_FILE h)
        (if status then Legacy.ok_response h result
         else Legacy.error_response h result)) m).2 !! path
  = files m !! path.
Proof.
  intros Hp.
  destruct (Legacy.commands h cmd_name) as [command|].
  - unfold bind at 1, pcall_command.
    destruct (command _ (dt m)) as [[res|e|] w]; cbn [snd fst]; try done.
    + rewrite write_file_run. cbn [snd files after].
      by rewrite !lookup_insert_ne by done.
    + rewrite write_file_run. cbn [snd files after].
      by rewrite !lookup_insert_ne by done.
  - rewrite (bind_ok _ _ _ _ _ (eq_refl : ret (false, _) _ = _)).
    rewrite write_file_run. cbn [snd files after].
    by rewrite !lookup_insert_ne by done.
Qed.

Lemma legacy_clears m content :
  files m !! CMD_FILE h = Some content -> content <> "" ->
  files (Legacy.check_command h m).2 !! CMD_FILE h = Some "".
Proof.
  intros Hc Hne. rewrite (legacy_taken m content Hc Hne).
  destruct (Legacy.split_bar content) as [[cmd_name json_args]|].
  - rewrite legacy_rest_files by apply cmd_ne_resp.
    cbn [files written after]. apply lookup_insert_eq.
  - cbn [snd files written after]. apply lookup_insert_eq.
Qed.
End LegacyRuns.

(** X7.  A request is run at most once by [check_command]: whatever a tick
    of the single-slot poller finds and however it ends, the tick that
    follows it finds no request and does nothing.  The write that empties
    [cmd.json] comes before the command is run, so this holds also when the
    command fails. *)
Theorem check_command_runs_a_request_once (h : Host) (m : machine h) :
  Legacy.check_command h (Legacy.check_command h m).2 =
    (Ok tt, (Legacy.check_command h m).2).
Proof.
  apply legacy_idle.
  destruct (files m !! CMD_FILE h) as [content|] eqn:Hc.
  - destruct (decide (content = "")) as [->|Hne].
    + right. by rewrite legacy_idle by auto.
    + right. by apply legacy_clears with content.
  - left. by rewrite legacy_idle by auto.
Qed.

(** X8.  A payload without a bar gets no response from [check_command]: the
    request file is emptied, no command is run and [response.json] is left
    as it was, so the client waits for an answer that never comes.  This is
    the fate of every request in the JSON format of the other bridge whose
    text holds no bar. *)
Theorem payload_without_bar_is_dropped (h : Host) (m : machine h)
    (content : string) :
  files m !! CMD_FILE h = Some content ->
  content <> "" ->
  has_bar content = false ->
  Legacy.check_command h m = (Ok tt, written (CMD_FILE h) "" m) /\
  files (written (CMD_FILE h) "" m) !! CMD_FILE h = Some "" /\
  files (written (CMD_FILE h) "" m) !! RESP_FILE h = files m !! RESP_FILE h /\
  dt (written (CMD_FILE h) "" m) = dt m.
Proof.
  intros Hc Hne Hb. rewrite (legacy_taken h m content Hc Hne).
  apply split_bar_none in Hb as ->.
  split; [done|]. cbn [files written after dt].
  split; [apply lookup_insert_eq|]. split; [|done].
  rewrite !lookup_insert_ne; [done|apply cmd_ne_resp..].
Qed.

Lemma payload_without_bar_is_dropped_witness :
  files (sample_session (CMD_FILE sample_host) rating_request)
    !! CMD_FILE sample_host = Some rating_request /\
  rating_request <> "" /\
  has_bar rating_request = false /\
  Legacy.check_command sample_host
    (sample_session (CMD_FILE sample_host) rating_request) =
    (Ok tt,
     written (CMD_FILE sample_host) ""
       (sample_session (CMD_FILE sample_host) rating_request)).
Proof.
  assert (files (sample_session (CMD_FILE sample_host) rating_request)
            !! CMD_FILE sample_host = Some rating_request) as H
    by (vm_compute; reflexivity).
  assert (rating_request <> "") as Hne by (vm_compute; discriminate).
  assert (has_bar rating_request = false) as Hb by (vm_compute; reflexivity).
  split; [exact H|]. split; [exact Hne|]. split; [exact Hb|].
  exact (proj1 (payload_without_bar_is_dropped sample_host _ _ H Hne Hb)).
Defined.

(** X9.  [check_command] writes to [cmd.json] and [response.json] only:
    every other file of the directory is after the tick what it was
    before. *)
Theorem check_command_keeps_other_files (h : Host) (m : machine h)
    (path : string) :
  path <> CMD_FILE h -> path <> RESP_FILE h ->
  files (Legacy.check_command h m).2 !! path = files m !! path.
Proof.
  intros Hp1 Hp2.
  destruct (files m !! CMD_FILE h) as [content|] eqn:Hc.
  2:{ by rewrite legacy_idle by auto. }
  destruct (decide (content = "")) as [->|Hne].
  { by rewrite legacy_idle by auto. }
  rewrite (legacy_taken h m content Hc Hne).
  assert (files (written (CMD_FILE h) "" m) !! path = files m !! path) as Hw.
  { cbn [files written after]. by rewrite !lookup_insert_ne by done. }
  destruct (Legacy.split_bar content) as [[cmd_name json_args]|]; [|done].
  by rewrite legacy_rest_files.
Qed.

Lemma check_command_keeps_other_files_witness :
  status_file sample_host <> CMD_FILE sample_host /\
  status_file sample_host <> RESP_FILE sample_host /\
  files (Legacy.check_command sample_host
           (session sample_host tt
              {[ CMD_FILE sample_host := "set_rating|{}";
                 status_file sample_host := stale_status ]})).2
    !! status_file sample_host = Some stale_status.
Proof.
  assert (status_file sample_host <> CMD_FILE sample_host) as H1
    by (vm_compute; discriminate).
  assert (status_file sample_host <> RESP_FILE sample_host) as H2
    by (vm_compute; discriminate).
  split; [exact H1|]. split; [exact H2|].
  rewrite (check_command_keeps_other_files sample_host _ _ H1 H2).
  vm_compute; reflexivity.
Defined.

(** ** What [json.encode] can encode *)

Lemma value_nested_ind (P : value -> Prop) :
  P VNil -> (forall b, P (VBool b)) -> (forall n, P (VNum n)) ->
  (forall s, P (VStr s)) ->
  (forall kvs, Forall (fun kv => P (fst kv) /\ P (snd kv)) kvs ->
     P (VTable kvs)) ->
  forall v, P v.
Proof.
  intros Hnil Hbool Hnum Hstr Htab.
  fix IH 1. intros [| b | n | s | kvs].
  - exact Hnil.
  - apply Hbool.
  - apply Hnum.
  - apply Hstr.
  - apply Htab. induction kvs as [|[k v] kvs IHk].
    + apply Forall_nil. done.
    + apply Forall_cons. split; [|exact IHk]. split; apply IH.
Qed.

Section Encode.
Context (h : Host).

Lemma json_encode_table as_key kvs :
  json_encode h as_key (VTable kvs) =
    if String.eqb (kind_of (VTable kvs)) "array" then
      if as_key then Raise ArrayAsKey
      else
        let* items := in_order (map snd (ipairs (encoded_entries h kvs))) in
        Ok ("[" +:+ join_items items +:+ "]")
    else
      if as_key then Raise TableAsKey
      else
        let* items :=
          in_order (map object_item
                      (pairs_order h _ (encoded_entries h kvs))) in
        Ok ("{" +:+ join_items items +:+ "}").
Proof.
  assert ((fix encode_entries (l : list (value * value)) :=
             match l with
             | [] => []
             | (k, v) :: rest =>
                 (k, (json_encode h true k, json_encode h false v))
                 :: encode_entries rest
             end) kvs = encoded_entries h kvs) as E.
  { induction kvs as [|[k v] kvs IH]; [done|]. cbn [encoded_entries map].
    by rewrite IH. }
  rewrite <- E. reflexivity.
Qed.

Lemma entry_of_In {A} (l : list (value * A)) k a :
  entry_of l k = Some a -> exists k', In (k', a) l.
Proof.
  induction l as [|[k' a'] l IH]; [done|]. cbn [entry_of].
  destruct (raw_equal k' k).
  - intros [= ->]. exists k'. by left.
  - intros [k'' Hin]%IH. exists k''. by right.
Qed.

Lemma ipairs_from_In {A} (l : list (value * A)) fuel i a :
  In a (ipairs_from l fuel i) -> exists k, In (k, a) l.
Proof.
  revert i. induction fuel as [|fuel IH]; intros i; [done|].
  cbn [ipairs_from]. destruct (entry_of l _) as [a'|] eqn:E; [|done].
  intros [<-|Hin]; [by eapply entry_of_In|by eapply IH].
Qed.

Lemma encode_scalar_keyed v :
  scalar_keyed v = true ->
  is_ok (json_encode h false v) = true /\
  (is_table v = false -> is_ok (json_encode h true v) = true).
Proof.
  induction v as [| b | n | s | kvs IH] using value_nested_ind; try done.
  intros Hs. split; [|done]. cbn [scalar_keyed] in Hs.
  rewrite forallb_forall in Hs.
  assert (Forall (fun e : value * (result encode_error string
                                   * result encode_error string) =>
                    is_ok (fst (snd e)) = true /\ is_ok (snd (snd e)) = true)
            (encoded_entries h kvs)) as Hall.
  { unfold encoded_entries. apply Forall_map, Forall_forall.
    intros [k v] Hin. cbn [fst snd].
    rewrite Forall_forall in IH. destruct (IH _ Hin) as [IHk IHv].
    apply list_elem_of_In, Hs, andb_true_iff in Hin as [Hk Hv].
    cbn [fst snd] in *. split.
    - apply IHk; [by destruct k|]. by destruct (is_table k).
    - by apply IHv. }
  rewrite json_encode_table.
  destruct (String.eqb _ "array").
  - destruct (in_order_ok (E:=encode_error)
                (map snd (ipairs (encoded_entries h kvs)))) as [xs ->];
      [|done].
    apply Forall_map, Forall_forall. intros [ek ev] Hin.
    apply list_elem_of_In, ipairs_from_In in Hin as [k Hin].
    rewrite Forall_forall in Hall.
    apply list_elem_of_In, Hall in Hin. by destruct Hin.
  - destruct (in_order_ok (E:=encode_error)
                (map object_item
                   (pairs_order h _ (encoded_entries h kvs))))
      as [xs ->]; [|done].
    apply Forall_map.
    eapply Permutation_Forall; [symmetry; apply pairs_order_perm|].
    eapply Forall_impl; [exact Hall|].
    intros [k [[ek| |] [ev| |]]] [? ?]; done.
Qed.
End Encode.

Lemma scalar_keyed_encodes (h : Host) (v : value) :
  scalar_keyed v = true -> exists text, json_encode h false v = Ok text.
Proof.
  intros Hs. destruct (encode_scalar_keyed h v Hs) as [Hok _].
  destruct (json_encode h false v) as [text| |]; [by exists text|done..].
Qed.

(** X10.  [json.encode] has an answer for every value in which no table is
    used as a key, at any depth; strings, numbers and booleans are encoded
    as keys as well.  The only errors the encoder raises are the two for a
    table used as a key, so a table of tables is encoded whenever its keys
    are scalars. *)
Theorem encode_succeeds_without_table_keys (h : Host) (v : value) :
  scalar_keyed v = true ->
  (exists text, json_encode h false v = Ok text) /\
  (is_table v = false -> exists text, json_encode h true v = Ok text) /\
  (is_table v = true -> exists e, json_encode h true v = Raise e).
Proof.
  intros Hs. split; [by apply scalar_keyed_encodes|].
  destruct (encode_scalar_keyed h v Hs) as [_ Hkey]. split.
  - intros Ht. specialize (Hkey Ht).
    destruct (json_encode h true v) as [text| |]; [by exists text|done..].
  - destruct v as [| | | |kvs]; try done. intros _.
    rewrite json_encode_table. destruct (String.eqb _ _); eauto.
Qed.

Lemma encode_succeeds_without_table_keys_witness :
  scalar_keyed
    (VTable [(VNum (LInt 1), table_of [("id", VNum (LInt 7))]);
             (VNum (LInt 2), table_of [("id", VNum (LInt 8))])]) = true /\
  exists text,
    json_encode sample_host false
      (VTable [(VNum (LInt 1), table_of [("id", VNum (LInt 7))]);
               (VNum (LInt 2), table_of [("id", VNum (LInt 8))])]) = Ok text.
Proof.
  assert (scalar_keyed
            (VTable [(VNum (LInt 1), table_of [("id", VNum (LInt 7))]);
                     (VNum (LInt 2), table_of [("id", VNum (LInt 8))])])
          = true) as H by (vm_compute; reflexivity).
  split; [exact H|].
  exact (proj1 (encode_succeeds_without_table_keys sample_host _ H)).
Defined.

(** ** The buttons of the panel and the export *)

Section Panel.
Context (h : Host).
Implicit Types (m : machine h).

Lemma gui_request_encodes tool sensitivity :
  exists text,
    json_encode h false (gui_request_value tool sensitivity) = Ok text.
Proof. by apply scalar_keyed_encodes. Qed.

Lemma upload_request_encodes filename remote image_id :
  exists text,
    json_encode h false (upload_request_value filename remote image_id)
      = Ok text.
Proof. by apply scalar_keyed_encodes. Qed.

Lemma click_idle now m :
  selection_size h (dt m) = 0%nat ->
  exists m',
    mcp_btn_tag_clicked h now m = (Ok tt, m') /\
    mcp_btn_cull_clicked h now m = (Ok tt, m') /\
    files m' = files m /\
    journal m' = journal m ++ [(EvPrint "No images selected", files m)] /\
    prefs m' = saved_prefs m /\
    status_cloud_label m' = status_cloud_label m /\
    dt m' = dt m.
Proof.
  intros Hn.
  unfold mcp_btn_tag_clicked, mcp_btn_cull_clicked, bind, get_selection_size.
  rewrite Hn. cbn. eexists. repeat split.
Qed.

Lemma click_files tool label now m text :
  json_encode h false (gui_request_value tool (entry_sensitivity_text m))
    = Ok text ->
  exists m',
    (let! req := gui_request h tool in
     let! f := io_open_w (gui_request_path h now) in
     if f then
       let! text := encode_or_raise req in
       write_close (gui_request_path h now) text;;
       set_status_cloud_label label
     else ret tt) m = (Ok tt, m') /\
    files m' = <[gui_request_path h now := text]> (files m) /\
    map fst (journal m') =
      map fst (journal m) ++
      [EvCreate (gui_request_path h now);
       EvWrite (gui_request_path h now) text] /\
    prefs m' = prefs m /\
    status_cloud_label m' = label /\
    dt m' = dt m.
Proof.
  intros He. unfold bind, gui_request, encode_or_raise. cbn.
  change (table_of [("tool", VStr tool);
                    ("args", table_of [("ai_sensitivity",
                                        VStr (entry_sensitivity_text m))])])
    with (gui_request_value tool (entry_sensitivity_text m)).
  rewrite He. cbn. eexists. split; [done|]. cbn.
  split; [apply insert_insert_eq|]. split; [|done].
  rewrite !map_app. cbn [map fst]. by rewrite <- app_assoc.
Qed.
End Panel.

Section Clicks.
Context (h : Host).
Implicit Types (m : machine h).

Lemma click_tag_files now m text :
  (0 < selection_size h (dt m))%nat ->
  json_encode h false
    (gui_request_value "auto_tag_selection" (entry_sensitivity_text m))
    = Ok text ->
  exists m',
    mcp_btn_tag_clicked h now m = (Ok tt, m') /\
    files m' = <[gui_request_path h now := text]> (files m) /\
    map fst (journal m') =
      map fst (journal m) ++
      [EvLog ("[MCP Bridge] UI: Triggering Auto-Tag for "
              +:+ pretty (selection_size h (dt m)) +:+ " images");
       EvCreate (gui_request_path h now);
       EvWrite (gui_request_path h now) text] /\
    prefs m' = saved_prefs m /\
    status_cloud_label m' = "Auto-Tag requested..." /\
    dt m' = dt m.
Proof.
  intros Hn He.
  unfold mcp_btn_tag_clicked, bind at 1, get_selection_size.
  unfold bind at 1. unfold save_settings, bind at 1. cbn [preferences_write].
  unfold bind at 1. cbn [preferences_write files journal dt prefs
    status_cloud_label entry_remote_text entry_sensitivity_text].
  destruct (decide _) as [_|?]; [|lia].
  rewrite log_run. set (m1 := after _ _ _).
  destruct (click_files h "auto_tag_selection" "Auto-Tag requested..."
              now m1 text He) as (m' & -> & Hf & Hj & Hp & Hl & Hd).
  exists m'. split; [done|]. split; [done|]. split.
  - rewrite Hj. unfold m1, after. cbn [journal]. rewrite map_app.
    by rewrite <- app_assoc.
  - done.
Qed.

Lemma click_cull_files now m text :
  (0 < selection_size h (dt m))%nat ->
  json_encode h false
    (gui_request_value "cull_selection" (entry_sensitivity_text m))
    = Ok text ->
  exists m',
    mcp_btn_cull_clicked h now m = (Ok tt, m') /\
    files m' = <[gui_request_path h now := text]> (files m) /\
    map fst (journal m') =
      map fst (journal m) ++
      [EvCreate (gui_request_path h now);
       EvWrite (gui_request_path h now) text] /\
    prefs m' = saved_prefs m /\
    status_cloud_label m' = "Culling requested..." /\
    dt m' = dt m.
Proof.
  intros Hn He.
  unfold mcp_btn_cull_clicked, bind at 1, get_selection_size.
  unfold bind at 1. unfold save_settings, bind at 1. cbn [preferences_write].
  cbn [preferences_write files journal dt prefs
    status_cloud_label entry_remote_text entry_sensitivity_text].
  destruct (decide _) as [_|?]; [|lia].
  set (m1 := Machine _ _ _ _ _ _ _).
  destruct (click_files h "cull_selection" "Culling requested..."
              now m1 text He) as (m' & -> & Hf & Hj & Hp & Hl & Hd).
  exists m'. done.
Qed.
End Clicks.

(** X17.  A click on either button of the panel with nothing selected files
    no request: no file of the directory is written, the status label is
    left as it is and the user is told "No images selected".  The two
    settings of the panel are saved all the same, before the selection is
    looked at. *)
Theorem click_without_selection_files_nothing (h : Host) (now : Z)
    (m : machine h) :
  selection_size h (dt m) = 0%nat ->
  exists m',
    mcp_btn_tag_clicked h now m = (Ok tt, m') /\
    mcp_btn_cull_clicked h now m = (Ok tt, m') /\
    files m' = files m /\
    journal m' = journal m ++ [(EvPrint "No images selected", files m)] /\
    prefs m' !! "cloud_remote" = Some (entry_remote_text m) /\
    prefs m' !! "ai_sensitivity" = Some (entry_sensitivity_text m) /\
    status_cloud_label m' = status_cloud_label m.
Proof.
  intros Hn.
  destruct (click_idle h now m Hn) as (m' & ? & ? & ? & ? & Hp & ? & _).
  exists m'. repeat split; try done; rewrite Hp; unfold saved_prefs.
  - by rewrite lookup_insert_ne, lookup_insert_eq.
  - by rewrite lookup_insert_eq.
Qed.

Lemma click_without_selection_files_nothing_witness :
  selection_size shelf_host (dt (session shelf_host empty_shelf ∅)) = 0%nat /\
  exists m',
    mcp_btn_tag_clicked shelf_host 1700000000
      (session shelf_host empty_shelf ∅) = (Ok tt, m') /\
    files m' = ∅ /\
    status_cloud_label m' = "Idle".
Proof.
  assert (selection_size shelf_host (dt (session shelf_host empty_shelf ∅))
          = 0%nat) as H by reflexivity.
  split; [exact H|].
  destruct (click_without_selection_files_nothing shelf_host 1700000000
              (session shelf_host empty_shelf ∅) H)
    as (m' & Ht & _ & Hf & _ & _ & _ & Hl).
  exists m'. split; [exact Ht|]. split; [exact Hf|exact Hl].
Defined.

(** X18.  A click with a selection files exactly one request: the file
    [gui_request_<now>.json] of the directory holds the encoding of
    [{tool = ..., args = {ai_sensitivity = ...}}] with the tool of the
    button and the sensitivity entered in the panel, no other file is
    touched, and the status label says that the request was made.  The
    encoder cannot fail on this table, so the click never raises. *)
Theorem click_files_one_request (h : Host) (now : Z) (m : machine h) :
  (0 < selection_size h (dt m))%nat ->
  (exists text m',
     json_encode h false
       (gui_request_value "auto_tag_selection" (entry_sensitivity_text m))
       = Ok text /\
     mcp_btn_tag_clicked h now m = (Ok tt, m') /\
     files m' = <[gui_request_path h now := text]> (files m) /\
     status_cloud_label m' = "Auto-Tag requested..." /\
     prefs m' = saved_prefs m) /\
  (exists text m',
     json_encode h false
       (gui_request_value "cull_selection" (entry_sensitivity_text m))
       = Ok text /\
     mcp_btn_cull_clicked h now m = (Ok tt, m') /\
     files m' = <[gui_request_path h now := text]> (files m) /\
     status_cloud_label m' = "Culling requested..." /\
     prefs m' = saved_prefs m).
Proof.
  intros Hn. split.
  - destruct (gui_request_encodes h "auto_tag_selection"
                (entry_sensitivity_text m)) as [text He].
    destruct (click_tag_files h now m text Hn He)
      as (m' & ? & ? & _ & ? & ? & _).
    by exists text, m'.
  - destruct (gui_request_encodes h "cull_selection"
                (entry_sensitivity_text m)) as [text He].
    destruct (click_cull_files h now m text Hn He)
      as (m' & ? & ? & _ & ? & ? & _).
    by exists text, m'.
Qed.

Lemma click_files_one_request_witness :
  (0 < selection_size shelf_host (dt (session shelf_host sample_shelf ∅)))%nat
  /\
  exists text m',
    json_encode shelf_host false
      (gui_request_value "cull_selection" "Normal") = Ok text /\
    mcp_btn_cull_clicked shelf_host 1700000000
      (session shelf_host sample_shelf ∅) = (Ok tt, m') /\
    files m' = {[ gui_request_path shelf_host 1700000000 := text ]} /\
    status_cloud_label m' = "Culling requested...".
Proof.
  assert (0 < selection_size shelf_host
                (dt (session shelf_host sample_shelf ∅)))%nat as H
    by (vm_compute; lia).
  split; [exact H|].
  destruct (proj2 (click_files_one_request shelf_host 1700000000
                     (session shelf_host sample_shelf ∅) H))
    as (text & m' & He & Hc & Hf & Hl & _).
  exists text, m'. split; [exact He|]. split; [exact Hc|].
  split; [|exact Hl]. rewrite Hf. apply insert_empty.
Defined.

Section Upload.
Context (h : Host).
Implicit Types (m : machine h).

Lemma store_upload_run timestamp image_id filename m text :
  json_encode h false
    (upload_request_value filename
       (default "remote:photos" (prefs m !! "cloud_remote")) image_id)
    = Ok text ->
  exists m',
    store_upload h timestamp image_id filename m = (Ok tt, m') /\
    files m' =
      <[upload_request_path h timestamp image_id := text]> (files m) /\
    prefs m' = prefs m /\ dt m' = dt m.
Proof.
  intros He. unfold store_upload, bind, get_prefs, encode_or_raise. cbn.
  change (table_of _)
    with (upload_request_value filename
            (default "remote:photos" (prefs m !! "cloud_remote")) image_id).
  rewrite He. cbn. eexists. split; [done|]. cbn.
  split; [apply insert_insert_eq|done].
Qed.

Lemma clicked_prefs now m :
  prefs (mcp_btn_tag_clicked h now m).2 = saved_prefs m /\
  prefs (mcp_btn_cull_clicked h now m).2 = saved_prefs m.
Proof.
  destruct (decide (0 < selection_size h (dt m))%nat) as [Hn|Hn].
  - destruct (gui_request_encodes h "auto_tag_selection"
                (entry_sensitivity_text m)) as [t1 He1].
    destruct (gui_request_encodes h "cull_selection"
                (entry_sensitivity_text m)) as [t2 He2].
    destruct (click_tag_files h now m t1 Hn He1)
      as (m1 & -> & _ & _ & ? & _).
    destruct (click_cull_files h now m t2 Hn He2)
      as (m2 & -> & _ & _ & ? & _).
    done.
  - destruct (click_idle h now m) as (m' & -> & -> & _ & _ & ? & _);
      [lia|done].
Qed.
End Upload.

(** X19.  An export after a click uses the remote entered in the panel.  The
    click saves the text of the entry under [cloud_remote], with or without
    a selection, and the export that follows files, under the name made of
    the time and the image, the encoding of the upload request with that
    text as [target_remote].  Without a saved remote the request names
    "remote:photos".  The encoder cannot fail on the request, so the export
    never raises. *)
Theorem export_uses_saved_remote (h : Host) (now timestamp image_id : Z)
    (filename : string) (m : machine h) :
  (exists text m2,
     json_encode h false
       (upload_request_value filename (entry_remote_text m) image_id)
       = Ok text /\
     store_upload h timestamp image_id filename
       (mcp_btn_tag_clicked h now m).2 = (Ok tt, m2) /\
     files m2 !! upload_request_path h timestamp image_id = Some text) /\
  (exists text m2,
     json_encode h false
       (upload_request_value filename (entry_remote_text m) image_id)
       = Ok text /\
     store_upload h timestamp image_id filename
       (mcp_btn_cull_clicked h now m).2 = (Ok tt, m2) /\
     files m2 !! upload_request_path h timestamp image_id = Some text) /\
  (prefs m !! "cloud_remote" = None ->
   exists text m2,
     json_encode h false
       (upload_request_value filename "remote:photos" image_id) = Ok text /\
     store_upload h timestamp image_id filename m = (Ok tt, m2) /\
     files m2 !! upload_request_path h timestamp image_id = Some text).
Proof.
  destruct (clicked_prefs h now m) as [Hp1 Hp2].
  destruct (upload_request_encodes h filename (entry_remote_text m) image_id)
    as [text He].
  assert (saved_prefs m !! "cloud_remote" = Some (entry_remote_text m)) as Hs.
  { unfold saved_prefs. by rewrite lookup_insert_ne, lookup_insert_eq. }
  split; [|split].
  - destruct (store_upload_run h timestamp image_id filename
                (mcp_btn_tag_clicked h now m).2 text)
      as (m2 & Hr & Hf & _); [by rewrite Hp1, Hs|].
    exists text, m2. repeat split; try done. rewrite Hf.
    apply lookup_insert_eq.
  - destruct (store_upload_run h timestamp image_id filename
                (mcp_btn_cull_clicked h now m).2 text)
      as (m2 & Hr & Hf & _); [by rewrite Hp2, Hs|].
    exists text, m2. repeat split; try done. rewrite Hf.
    apply lookup_insert_eq.
  - intros Hnone.
    destruct (upload_request_encodes h filename "remote:photos" image_id)
      as [text' He'].
    destruct (store_upload_run h timestamp image_id filename m text')
      as (m2 & Hr & Hf & _); [by rewrite Hnone|].
    exists text', m2. repeat split; try done. rewrite Hf.
    apply lookup_insert_eq.
Qed.

(** ** The arguments [check_command] reads from the text after the bar *)

Section Patterns.

Lemma max_expand_some {R} (k : nat -> option R) i r :
  max_expand k i = Some r -> exists j, (j <= i)%nat /\ k j = Some r.
Proof.
  induction i as [|i IH]; cbn [max_expand].
  - destruct (k 0%nat) eqn:E; [|done]. intros [= <-]. by exists 0%nat.
  - destruct (k (S i)) eqn:E.
    + intros [= <-]. by exists (S i).
    + intros (j & Hj & Hk)%IH. exists j. split; [lia|done].
Qed.

Lemma close_last_app pre tail pos :
  Forall closed tail ->
  exists pre', close_last (pre ++ tail) pos = pre' ++ tail.
Proof.
  intros Ht. induction pre as [|[start [len|]] pre [pre' IH]].
  - exists []. cbn [app]. induction Ht as [|[start [len|]] tail Hc _ IH].
    + done.
    + cbn [close_last]. by rewrite IH.
    + by destruct Hc.
  - exists ((start, Some len) :: pre'). cbn [app close_last]. by rewrite IH.
  - by exists ((start, Some (pos - start)%nat) :: pre).
Qed.

(** Captures that are closed stay as they are. *)
Lemma do_match_keeps p : forall s pos pre tail e caps,
  Forall closed tail ->
  do_match p s pos (pre ++ tail) = Some (e, caps) ->
  exists pre', caps = pre' ++ tail.
Proof.
  induction p as [|item p IH]; intros s pos pre tail e caps Ht.
  - intros [= <- <-]. by exists pre.
  - destruct item as [c|c|c|c| |]; cbn [do_match].
    + destruct s as [|x s]; [done|]. destruct (c x); [|done]. by apply IH.
    + intros (j & _ & Hj)%max_expand_some. by eapply IH.
    + destruct s as [|x s]; [done|]. destruct (c x); [|done].
      intros (j & _ & Hj)%max_expand_some. by eapply IH.
    + destruct s as [|x s]; [by apply IH|]. destruct (c x); [|by apply IH].
      destruct (do_match p s (S pos) (pre ++ tail)) as [r|] eqn:E.
      * intros [= ->]. by eapply IH.
      * by apply IH.
    + apply (IH s pos ((pos, None) :: pre) tail e caps Ht).
    + destruct (close_last_app pre tail pos Ht) as [pre' ->]. by apply IH.
Qed.

Lemma span_all (c : ascii -> bool) s j :
  (j <= length (fst (span c s)))%nat -> forallb c (take j s) = true.
Proof.
  revert j. induction s as [|x s IH]; intros j; [by destruct j|].
  destruct j as [|j]; [done|]. cbn [span].
  destruct (c x) eqn:E; [|cbn; lia].
  destruct (span c s) as [a b] eqn:Es. cbn [fst length]. intros Hj.
  cbn [take forallb]. rewrite E. apply IH. cbn [fst]. lia.
Qed.

(** The first capture of a match of the pattern of line 118 is a run of
    [%w] that is not empty. *)
Lemma key_capture p src start e caps :
  do_match
    (PSingle is_quote :: PCaptureOpen :: PPlus is_alnum :: PCaptureClose
     :: p) (drop start src) start [] = Some (e, caps) ->
  exists k rest,
    captures_of src start e caps = k :: rest /\ alnum_name k = true.
Proof.
  cbn [do_match].
  destruct (drop start src) as [|x s] eqn:Hs; [done|].
  destruct (is_quote x); [|done].
  destruct s as [|y s']; [done|]. destruct (is_alnum y) eqn:Hy; [|done].
  intros (j & Hj & Hm)%max_expand_some. cbn [close_last] in Hm.
  apply (do_match_keeps _ _ _ [] [_]) in Hm as [pre' ->];
    [|by repeat constructor; eexists].
  unfold captures_of. destruct (pre' ++ _) as [|c0 l0] eqn:Hl.
  { by destruct pre'. }
  rewrite <- Hl. rewrite rev_app_distr. cbn [rev app map fst snd default].
  eexists _, _. split; [done|].
  unfold substring_at.
  replace (S (S start) + j - S start)%nat with (S j) by lia.
  assert (drop (S start) src = y :: s') as ->.
  { rewrite <- (Nat.add_1_r start), <- drop_drop, Hs. done. }
  unfold id. cbn [take]. unfold alnum_name. cbn [string_of_list_ascii].
  cbn [String.eqb negb andb list_ascii_of_string forallb].
  rewrite Hy. cbn [andb]. rewrite list_ascii_of_string_of_list_ascii.
  by apply span_all.
Qed.

Lemma gmatch_from_keys fuel : forall src start lastmatch,
  Forall (fun kv => exists k rest, kv = k :: rest /\ alnum_name k = true)
    (gmatch_from fuel args_pattern src start lastmatch).
Proof.
  induction fuel as [|fuel IH]; intros src start lastmatch;
    cbn [gmatch_from]; [by apply Forall_nil|].
  destruct (decide _); [by apply Forall_nil|].
  destruct (do_match _ _ _ _) as [[e caps]|] eqn:Hm; [|apply IH].
  destruct (bool_decide _); [apply IH|].
  apply Forall_cons. split; [|apply IH].
  by eapply key_capture.
Qed.

Lemma rawset_alnum_keys args k v :
  Forall alnum_key args -> alnum_name k = true ->
  Forall alnum_key (rawset args (VStr k) v).
Proof.
  intros Ha Hk. induction Ha as [|[k' v'] args Hkv Ha IH]; cbn [rawset].
  - destruct v; try by apply Forall_nil.
    all: apply Forall_cons; split; [by exists k|by apply Forall_nil].
  - destruct (raw_equal k' (VStr k)).
    + destruct v; try done.
      all: apply Forall_cons; split; [exact Hkv|done].
    + apply Forall_cons. by split.
Qed.

Lemma store_arg_alnum_keys to_number args kv :
  Forall alnum_key args ->
  (exists k rest, kv = k :: rest /\ alnum_name k = true) ->
  Forall alnum_key (store_arg to_number args kv).
Proof.
  intros Ha (k & rest & -> & Hk). unfold store_arg.
  destruct rest as [|v [|? ?]]; try done.
  destruct (to_number v); by apply rawset_alnum_keys.
Qed.

Lemma fold_store_alnum_keys to_number kvs : forall args,
  Forall alnum_key args ->
  Forall (fun kv => exists k rest, kv = k :: rest /\ alnum_name k = true)
    kvs ->
  Forall alnum_key (fold_left (store_arg to_number) kvs args).
Proof.
  induction kvs as [|kv kvs IH]; intros args Ha Hk; [done|].
  apply Forall_cons in Hk as [Hkv Hk]. cbn [fold_left].
  apply IH; [|done]. by apply store_arg_alnum_keys.
Qed.

Lemma rawget_other_key args k :
  Forall alnum_key args -> alnum_name k = false ->
  rawget args (VStr k) = VNil.
Proof.
  intros Ha Hk. unfold rawget.
  induction Ha as [|[k' v'] args (k0 & Hk0 & Ha0) Ha IH]; [done|].
  cbn [entry_of]. cbn [fst] in Hk0. subst k'. cbn [raw_equal].
  destruct (String.eqb k0 k) eqn:E; [|exact IH].
  apply String.eqb_eq in E. congruence.
Qed.

Lemma check_command_scan to_number json_args :
  exists args,
    scan_json_args to_number json_args = VTable args /\
    rawget args (VStr "img_id") = VNil.
Proof.
  eexists. split; [reflexivity|].
  apply rawget_other_key; [|done].
  apply fold_store_alnum_keys; [by apply Forall_nil|].
  apply gmatch_from_keys.
Qed.
End Patterns.

(** X11.  The loop of [check_command] that reads the arguments finds only
    keys made of letters and digits: the pattern asks for a run of [%w]
    between two quotes, and an underscore is not in [%w].  So whatever the
    text after the bar and whatever [tonumber] does, the table [args] has no
    entry under [img_id], [tag_name] or [style_name], the names the
    commands of the script read. *)
Theorem check_command_reads_no_underscore_key
    (to_number : string -> option number) (json_args : string) :
  exists args,
    scan_json_args to_number json_args = VTable args /\
    rawget args (VStr "img_id") = VNil /\
    rawget args (VStr "tag_name") = VNil /\
    rawget args (VStr "style_name") = VNil /\
    (forall k, alnum_name k = false -> rawget args (VStr k) = VNil) /\
    scan_json_args decimal_to_number
      (dq "{'img_id': 42, 'rating': 5}") =
      VTable [(VStr "rating", VNum (LInt 5))].
Proof.
  eexists. split; [reflexivity|].
  assert (Forall alnum_key
            (fold_left (store_arg to_number)
               (gmatch args_pattern json_args) [])) as Ha.
  { apply fold_store_alnum_keys; [by apply Forall_nil|].
    apply gmatch_from_keys. }
  split; [by apply rawget_other_key|].
  split; [by apply rawget_other_key|].
  split; [by apply rawget_other_key|].
  split; [intros k Hk; by apply rawget_other_key|].
  vm_compute. reflexivity.
Qed.

(** ** The bodies of the commands *)

Section Bodies.
Context (a : DtApi) (rt : Host).

Lemma error_with_image {A} line img_id :
  error_with (A:=A) rt line "img_id" "Image not found: " img_id =
    Raise (image_not_found rt line img_id).
Proof. by destruct img_id. Qed.
End Bodies.

Lemma body_unknown_image (a : DtApi) (rt : Host) (line : nat)
    (kvs : list (value * value)) (w : library a) :
  get_image a (rawget kvs (VStr "img_id")) w = Ok None ->
  let err := image_not_found rt (line + 4) (rawget kvs (VStr "img_id")) in
  set_rating a rt line (VTable kvs) w = (Raise err, w) /\
  set_color_label a rt line (VTable kvs) w = (Raise err, w) /\
  attach_tag a rt line (VTable kvs) w = (Raise err, w) /\
  apply_style a rt line (VTable kvs) w = (Raise err, w).
Proof.
  intros Hg err.
  unfold set_rating, set_color_label, attach_tag, apply_style, cbind, cread.
  cbn [index]. rewrite Hg. rewrite !error_with_image. done.
Qed.

(** X12.  A command that names an image darktable does not have changes
    nothing and fails: [set_rating], [set_color_label], [attach_tag] and
    [apply_style] raise, on the line of their [error] call, the message
    "Image not found: " followed by the identifier when it is a number or a
    string.  When the arguments have no [img_id], or one that is a boolean
    or a table, building that message fails itself, and the error is
    "attempt to concatenate a nil value (local 'img_id')" with the type in
    the place of [nil]. *)
Theorem unknown_image_changes_nothing (a : DtApi) (rt : Host) (line : nat)
    (kvs : list (value * value)) (w : library a) :
  get_image a (rawget kvs (VStr "img_id")) w = Ok None ->
  (forall err,
     err = match rawget kvs (VStr "img_id") with
           | VStr id => VStr (where_ rt (line + 4) +:+ "Image not found: "
                              +:+ id)
           | VNum n => VStr (where_ rt (line + 4) +:+ "Image not found: "
                             +:+ tostring rt (VNum n))
           | v => VStr (where_ rt (line + 4) +:+ "attempt to concatenate a "
                        +:+ type_name v +:+ " value (local 'img_id')")
           end ->
     set_rating a rt line (VTable kvs) w = (Raise err, w) /\
     set_color_label a rt line (VTable kvs) w = (Raise err, w) /\
     attach_tag a rt line (VTable kvs) w = (Raise err, w) /\
     apply_style a rt line (VTable kvs) w = (Raise err, w)).
Proof.
  intros Hg err ->.
  pose proof (body_unknown_image a rt line kvs w Hg) as H.
  unfold image_not_found in H. cbn zeta in H.
  by destruct (rawget kvs (VStr "img_id")).
Qed.

Lemma unknown_image_changes_nothing_witness :
  get_image shelf_api (rawget [(VStr "img_id", VNum (LInt 99))]
                         (VStr "img_id")) sample_shelf = Ok None /\
  set_rating shelf_api sample_host 158
    (VTable [(VStr "img_id", VNum (LInt 99))]) sample_shelf =
    (Raise (VStr "mcp_bridge.lua:162: Image not found: 99"), sample_shelf).
Proof.
  assert (get_image shelf_api (rawget [(VStr "img_id", VNum (LInt 99))]
                                 (VStr "img_id")) sample_shelf = Ok None)
    as H by (vm_compute; reflexivity).
  split; [exact H|].
  exact (proj1 (unknown_image_changes_nothing shelf_api sample_host 158
                  [(VStr "img_id", VNum (LInt 99))] sample_shelf H _
                  eq_refl)).
Defined.

(** ** Sequences *)

Section Sequences.

Lemma entry_of_seq {A} (xs : list A) : forall i j,
  entry_of (seq_entries i xs) (VNum (LInt j)) =
    if (i <=? j) then xs !! Z.to_nat (j - i) else None.
Proof.
  induction xs as [|x xs IH]; intros i j; cbn [seq_entries entry_of].
  - by destruct (i <=? j).
  - cbn [raw_equal number_eqb]. destruct (Z.eqb_spec i j) as [->|Hne].
    + rewrite Z.leb_refl, Z.sub_diag. done.
    + rewrite IH. destruct (Z.leb_spec i j), (Z.leb_spec (i + 1) j);
        try lia; [|done].
      replace (Z.to_nat (j - i)) with (S (Z.to_nat (j - (i + 1)))) by lia.
      done.
Qed.

Lemma seq_entries_length {A} (xs : list A) i :
  length (seq_entries i xs) = length xs.
Proof. revert i. induction xs as [|x xs IH]; intros i; cbn; auto. Qed.

Lemma seq_entries_app {A} (xs ys : list A) i :
  seq_entries i (xs ++ ys) =
    seq_entries i xs ++ seq_entries (i + Z.of_nat (length xs)) ys.
Proof.
  revert i. induction xs as [|x xs IH]; intros i; cbn [seq_entries app].
  - by rewrite Z.add_0_r.
  - rewrite IH. cbn [length]. do 3 f_equal. lia.
Qed.

Lemma ipairs_from_seq {A} (xs : list A) i fuel k :
  ipairs_from (seq_entries i xs) fuel (i + Z.of_nat k) =
    take fuel (drop k xs).
Proof.
  revert k. induction fuel as [|fuel IH]; intros k; [done|].
  cbn [ipairs_from]. rewrite entry_of_seq.
  destruct (Z.leb_spec i (i + Z.of_nat k)); [|lia].
  replace (Z.to_nat (i + Z.of_nat k - i)) with k by lia.
  destruct (xs !! k) as [x|] eqn:E.
  - rewrite (drop_S _ _ _ E). cbn [take]. f_equal.
    replace (i + Z.of_nat k + 1) with (i + Z.of_nat (S k)) by lia.
    apply IH.
  - apply lookup_ge_None in E. by rewrite drop_ge.
Qed.

Lemma ipairs_seq {A} (xs : list A) : ipairs (seq_entries 1 xs) = xs.
Proof.
  unfold ipairs. rewrite seq_entries_length.
  change 1 with (1 + Z.of_nat 0) at 2.
  rewrite (ipairs_from_seq xs 1 (length xs) 0).
  by rewrite drop_0, firstn_all.
Qed.

Lemma rawget_seq vs j :
  rawget (seq_entries 1 vs) (VNum (LInt j)) =
    if (1 <=? j) then default VNil (vs !! Z.to_nat (j - 1)) else VNil.
Proof.
  unfold rawget. rewrite entry_of_seq. destruct (1 <=? j); [|done].
  by destruct (vs !! _).
Qed.

Lemma border_from_seq vs fuel k :
  Forall not_nil vs -> (k <= length vs)%nat ->
  border_from (seq_entries 1 vs) fuel (Z.of_nat k) =
    Z.of_nat (Nat.min (k + fuel) (length vs)).
Proof.
  intros Hv. revert k. induction fuel as [|fuel IH]; intros k Hk.
  - cbn [border_from]. f_equal. lia.
  - cbn [border_from]. rewrite rawget_seq.
    destruct (Z.leb_spec 1 (Z.of_nat k + 1)); [|lia].
    replace (Z.to_nat (Z.of_nat k + 1 - 1)) with k by lia.
    destruct (vs !! k) as [v|] eqn:E.
    + cbn [default from_option id].
      assert (v <> VNil) as Hn.
      { rewrite Forall_forall in Hv. eapply Hv, list_elem_of_lookup_2, E. }
      apply lookup_lt_Some in E.
      replace (Z.of_nat k + 1) with (Z.of_nat (S k)) by lia.
      destruct v; try done; rewrite IH by lia; f_equal; lia.
    + apply lookup_ge_None in E. cbn. f_equal. lia.
Qed.

Lemma lua_len_seq vs :
  Forall not_nil vs -> lua_len (seq_entries 1 vs) = Z.of_nat (length vs).
Proof.
  intros Hv. unfold lua_len. rewrite seq_entries_length.
  change 0 with (Z.of_nat 0).
  rewrite (border_from_seq vs (length vs) 0 Hv) by lia. f_equal. lia.
Qed.

Lemma rawset_seq_end vs i v j :
  (i + Z.of_nat (length vs) <= j) -> not_nil v ->
  rawset (seq_entries i vs) (VNum (LInt j)) v =
    seq_entries i vs ++ [(VNum (LInt j), v)].
Proof.
  intros Hj Hv. revert i Hj.
  induction vs as [|x vs IH]; intros i Hj; cbn [seq_entries rawset app].
  - by destruct v.
  - cbn [raw_equal number_eqb]. cbn [length] in Hj.
    destruct (Z.eqb_spec i j); [lia|]. rewrite IH by lia. done.
Qed.

Lemma table_insert_seq vs v :
  Forall not_nil vs -> not_nil v ->
  table_insert (seq_entries 1 vs) v = seq_entries 1 (vs ++ [v]).
Proof.
  intros Hvs Hv. unfold table_insert. rewrite lua_len_seq by done.
  rewrite rawset_seq_end; [|lia|done].
  rewrite seq_entries_app. cbn [seq_entries].
  by rewrite (Z.add_comm 1).
Qed.

Lemma kind_of_loop_seq vs todo k :
  Forall not_nil vs -> (k + length todo <= length vs)%nat ->
  kind_of_loop (seq_entries 1 vs) todo (Z.of_nat k + 1) =
    if (Z.of_nat (k + length todo) + 1 =? 1) then "table" else "array".
Proof.
  intros Hv. revert k. induction todo as [|t todo IH]; intros k Hk.
  - cbn [kind_of_loop length]. by rewrite Nat.add_0_r.
  - cbn [kind_of_loop length] in *. rewrite rawget_seq.
    destruct (Z.leb_spec 1 (Z.of_nat k + 1)); [|lia].
    replace (Z.to_nat (Z.of_nat k + 1 - 1)) with k by lia.
    destruct (vs !! k) as [v|] eqn:E.
    2:{ apply lookup_ge_None in E. lia. }
    cbn [default from_option id].
    assert (v <> VNil) as Hn.
    { rewrite Forall_forall in Hv. eapply Hv, list_elem_of_lookup_2, E. }
    replace (Z.of_nat k + 1 + 1) with (Z.of_nat (S k) + 1) by lia.
    replace (k + S (length todo))%nat with (S k + length todo)%nat by lia.
    destruct v; try done; apply IH; lia.
Qed.

Lemma kind_of_array vs :
  Forall not_nil vs ->
  kind_of (array_of vs) = if is_nil vs then "table" else "array".
Proof.
  intros Hv. unfold array_of. cbn [kind_of].
  change (kind_of_loop ?x ?y 1) with (kind_of_loop x y (Z.of_nat 0 + 1)).
  rewrite (kind_of_loop_seq vs (seq_entries 1 vs) 0 Hv)
    by (rewrite seq_entries_length; lia).
  rewrite seq_entries_length. destruct vs; [done|].
  cbn [length is_nil]. destruct (Z.eqb_spec (Z.of_nat (0 + S (length vs)) + 1) 1);
    [lia|done].
Qed.
End Sequences.

(** ** What [get_selection] returns, and how it is encoded *)

Section Selection.
Context (h : Host).

Lemma in_order_map {E A B} (f : A -> result E B) xs items :
  in_order (map f xs) = Ok items <->
  Forall2 (fun x item => f x = Ok item) xs items.
Proof.
  revert items. induction xs as [|x xs IH]; intros items; cbn [map in_order].
  - split.
    + intros [= <-]. constructor.
    + by inversion 1.
  - destruct (f x) as [b| |] eqn:Ef; cbn [rbind].
    + destruct (in_order (map f xs)) as [bs| |] eqn:Eo; cbn [rbind].
      * split.
        -- intros [= <-]. constructor; [done|]. by apply IH.
        -- inversion 1 as [|? item ? items' Hx Hrest]; subst.
           apply IH in Hrest. congruence.
      * split; [done|]. inversion 1 as [|? item ? items' Hx Hrest]; subst.
        apply IH in Hrest. congruence.
      * split; [done|]. inversion 1 as [|? item ? items' Hx Hrest]; subst.
        apply IH in Hrest. congruence.
    + split; [done|]. inversion 1; congruence.
    + split; [done|]. inversion 1; congruence.
Qed.

Lemma encoded_values kvs k :
  option_map snd (entry_of (encoded_entries h kvs) k) =
    option_map (json_encode h false) (entry_of kvs k).
Proof.
  induction kvs as [|[k' v] kvs IH]; [done|].
  cbn [encoded_entries map entry_of fst snd].
  destruct (raw_equal k' k); [done|]. apply IH.
Qed.

Lemma ipairs_from_encoded kvs fuel i :
  map snd (ipairs_from (encoded_entries h kvs) fuel i) =
    map (json_encode h false) (ipairs_from kvs fuel i).
Proof.
  revert i. induction fuel as [|fuel IH]; intros i; [done|].
  cbn [ipairs_from]. pose proof (encoded_values kvs (VNum (LInt i))) as E.
  destruct (entry_of (encoded_entries h kvs) _) as [[ek ev]|],
           (entry_of kvs _) as [v|]; try done.
  cbn in E. injection E as ->. cbn [map snd]. by rewrite IH.
Qed.

Lemma encode_array vs :
  Forall not_nil vs ->
  json_encode h false (array_of vs) =
    if is_nil vs then Ok "{}"
    else
      let* items := in_order (map (json_encode h false) vs) in
      Ok ("[" +:+ join_items items +:+ "]").
Proof.
  intros Hv. unfold array_of at 1. rewrite json_encode_table.
  fold (array_of vs). rewrite (kind_of_array vs Hv).
  destruct vs as [|v vs]; cbn [is_nil].
  - cbn [String.eqb Ascii.eqb]. cbn.
    pose proof (pairs_order_perm h _
                  (@nil (value * (result encode_error string
                                  * result encode_error string)))) as Hp.
    apply Permutation_nil_r in Hp. cbn in Hp. by rewrite Hp.
  - change (String.eqb "array" "array") with true. cbn iota.
    unfold ipairs. rewrite ipairs_from_encoded.
    unfold encoded_entries. rewrite length_map.
    fold (ipairs (seq_entries 1 (v :: vs))). by rewrite ipairs_seq.
Qed.
End Selection.

Section SelectionRun.
Context (a : DtApi).

Lemma selection_entry_not_nil img : not_nil (selection_entry a img).
Proof. done. Qed.

Lemma selection_fold imgs : forall done_,
  fold_left (fun result img => table_insert result (selection_entry a img))
    imgs (seq_entries 1 (map (selection_entry a) done_)) =
  seq_entries 1 (map (selection_entry a) (done_ ++ imgs)).
Proof.
  induction imgs as [|img imgs IH]; intros done_; cbn [fold_left].
  - by rewrite app_nil_r.
  - rewrite table_insert_seq.
    + change [selection_entry a img] with (map (selection_entry a) [img]).
      rewrite <- map_app, IH, <- app_assoc. done.
    + apply Forall_map, Forall_forall. intros ? _. done.
    + done.
Qed.

Lemma get_selection_run args w :
  get_selection a args w =
    (Ok (array_of (map (selection_entry a) (gui_selection a w))), w).
Proof.
  unfold get_selection, cbind, cread, cret, array_of.
  by rewrite (selection_fold _ []).
Qed.
End SelectionRun.

(** X13.  [get_selection] never fails and changes nothing; it returns the
    sequence with one entry per selected image, in the order of the
    selection, each with the identifier, the path joined to the file name
    with a slash, and the file name.  Encoded, the result is a JSON array of
    as many objects when something is selected, and the empty object [{}],
    not an empty array, when nothing is. *)
Theorem get_selection_lists_the_selection (a : DtApi) (h : Host)
    (args : value) (w : library a) :
  exists result items,
    get_selection a args w = (Ok result, w) /\
    result = array_of (map (selection_entry a) (gui_selection a w)) /\
    lua_len (seq_entries 1 (map (selection_entry a) (gui_selection a w)))
      = Z.of_nat (length (gui_selection a w)) /\
    Forall2 (fun img item => json_encode h false (selection_entry a img)
                             = Ok item)
      (gui_selection a w) items /\
    json_encode h false result =
      Ok (if is_nil (gui_selection a w) then "{}"
          else "[" +:+ join_items items +:+ "]").
Proof.
  assert (Forall not_nil (map (selection_entry a) (gui_selection a w))) as Hn.
  { apply Forall_map, Forall_forall. intros ? _. done. }
  destruct (in_order_ok (E:=encode_error)
              (map (fun img => json_encode h false (selection_entry a img))
                 (gui_selection a w))) as [items Hitems].
  { apply Forall_map, Forall_forall. intros img _.
    by apply (encode_scalar_keyed h (selection_entry a img)). }
  exists (array_of (map (selection_entry a) (gui_selection a w))), items.
  split; [apply get_selection_run|]. split; [done|].
  split; [by rewrite lua_len_seq, length_map|].
  split; [by apply in_order_map|].
  rewrite encode_array by done. rewrite map_map, Hitems.
  by destruct (gui_selection a w).
Qed.

Section Styles.
Context (a : DtApi) (rt : Host).

Lemma find_style_first name l1 s l2 :
  Forall (fun s' => name_of_style a s' <> name) l1 ->
  name_of_style a s = name ->
  find_style a (VStr name) (l1 ++ s :: l2) = Some s.
Proof.
  intros Hl1 Hs. unfold find_style.
  induction Hl1 as [|s' l1 Hs' _ IH]; cbn [app find raw_equal].
  - by rewrite Hs, String.eqb_refl.
  - apply String.eqb_neq in Hs'. by rewrite Hs'.
Qed.

Lemma find_style_none style_name l :
  Forall (fun s => VStr (name_of_style a s) <> style_name) l ->
  find_style a style_name l = None.
Proof.
  unfold find_style. induction 1 as [|s l Hs _ IH]; [done|].
  cbn [find]. destruct style_name as [| | |n|]; cbn [raw_equal]; try done.
  destruct (String.eqb_spec (name_of_style a s) n); [congruence|done].
Qed.
End Styles.

(** X14.  [apply_style] applies the first style of the list that has the
    name asked for, and only that one; what [dt.styles.apply] does to the
    library, and its error if it fails, is what the command does.  When no
    style has the name, nothing is changed and the error raised on the line
    of the second [error] call is "Style not found: " followed by the
    name. *)
Theorem apply_style_takes_the_first_match (a : DtApi) (rt : Host)
    (line : nat) (kvs : list (value * value)) (w : library a)
    (img : image a) (name : string) :
  get_image a (rawget kvs (VStr "img_id")) w = Ok (Some img) ->
  rawget kvs (VStr "style_name") = VStr name ->
  (forall l1 s l2,
     styles_get_list a w = l1 ++ s :: l2 ->
     name_of_style a s = name ->
     Forall (fun s' => name_of_style a s' <> name) l1 ->
     apply_style a rt line (VTable kvs) w =
       match styles_apply a s img w with
       | (Ok _, w') =>
           (Ok (table_of [("success", VBool true);
                          ("id", rawget kvs (VStr "img_id"));
                          ("style_applied", VStr name)]), w')
       | (Raise e, w') => (Raise e, w')
       | (OutOfFuel, w') => (OutOfFuel, w')
       end) /\
  (Forall (fun s => name_of_style a s <> name) (styles_get_list a w) ->
   apply_style a rt line (VTable kvs) w =
     (Raise (VStr (where_ rt (line + 14) +:+ "Style not found: " +:+ name)),
      w)).
Proof.
  intros Hg Hn. split.
  - intros l1 s l2 Hl Hs Hl1.
    unfold apply_style, cbind, cread. cbn [index]. rewrite Hg, Hn, Hl.
    rewrite (find_style_first a name l1 s l2 Hl1 Hs).
    by destruct (styles_apply a s img w) as [[[]| |] w'].
  - intros Hl.
    unfold apply_style, cbind, cread. cbn [index]. rewrite Hg, Hn.
    rewrite find_style_none; [done|].
    eapply Forall_impl; [exact Hl|]. intros s Hs [= E]. done.
Qed.

Lemma apply_style_takes_the_first_match_witness :
  get_image shelf_api
    (rawget [(VStr "img_id", VNum (LInt 8)); (VStr "style_name", VStr "x")]
       (VStr "img_id")) sample_shelf = Ok (Some 8) /\
  apply_style shelf_api sample_host 203
    (VTable [(VStr "img_id", VNum (LInt 8)); (VStr "style_name", VStr "x")])
    sample_shelf =
    (Raise (VStr "mcp_bridge.lua:217: Style not found: x"), sample_shelf).
Proof.
  assert (get_image shelf_api
            (rawget [(VStr "img_id", VNum (LInt 8));
                     (VStr "style_name", VStr "x")]
               (VStr "img_id")) sample_shelf = Ok (Some 8)) as H
    by (vm_compute; reflexivity).
  split; [exact H|].
  apply (proj2 (apply_style_takes_the_first_match shelf_api sample_host 203
                  [(VStr "img_id", VNum (LInt 8));
                   (VStr "style_name", VStr "x")]
                  sample_shelf 8 "x" H eq_refl)).
  repeat constructor; vm_compute; discriminate.
Defined.

(** ** Requests that name an image, from the request file to the response *)

Section ImageRequests.
Context (a : DtApi) (rt : Host).

Lemma image_command_body name line :
  (name, line) ∈ image_commands ->
  exists command,
    commands (host_of a rt) (VStr name) = Some command /\
    forall kvs w,
      get_image a (rawget kvs (VStr "img_id")) w = Ok None ->
      command (VTable kvs) w =
        (Raise (image_not_found rt (line + 4) (rawget kvs (VStr "img_id"))),
         w).
Proof.
  unfold image_commands. rewrite !elem_of_cons, elem_of_nil.
  intros [[= -> ->]|[[= -> ->]|[[= -> ->]|[[= -> ->]|[]]]]];
    eexists; (split; [reflexivity|]); intros kvs w Hg;
    match goal with
    | |- _ = (Raise (image_not_found _ (?l + 4) _), _) =>
        by destruct (body_unknown_image a rt l kvs w Hg) as (? & ? & ? & ?)
    end.
Qed.

Lemma legacy_command_body to_number name command :
  Legacy.commands (legacy_host_of a rt to_number) name = Some command ->
  exists line,
    (name, line) ∈ legacy_image_commands /\
    forall kvs w,
      get_image a (rawget kvs (VStr "img_id")) w = Ok None ->
      command (VTable kvs) w =
        (Raise (image_not_found rt (line + 4) (rawget kvs (VStr "img_id"))),
         w).
Proof.
  unfold Legacy.commands, legacy_image_commands.
  destruct (String.eqb_spec name "set_rating") as [->|_].
  { intros [= <-]. exists 17%nat. split; [set_solver|]. intros kvs w Hg.
    by destruct (body_unknown_image a rt 17 kvs w Hg) as (? & ? & ? & ?). }
  destruct (String.eqb_spec name "attach_tag") as [->|_].
  { intros [= <-]. exists 28%nat. split; [set_solver|]. intros kvs w Hg.
    by destruct (body_unknown_image a rt 28 kvs w Hg) as (? & ? & ? & ?). }
  destruct (String.eqb_spec name "apply_style") as [->|_]; [|done].
  intros [= <-]. exists 40%nat. split; [set_solver|]. intros kvs w Hg.
  by destruct (body_unknown_image a rt 40 kvs w Hg) as (? & ? & ? & ?).
Qed.
End ImageRequests.

(** X15.  From the request file to the response: a request to the bridge for
    one of the four commands that work on an image, naming an image
    darktable does not have, is answered with the error response whose
    message is the command's "Image not found" error, and the library is
    left as it was.  A request without [args] is treated as one with empty
    arguments. *)
Theorem request_for_unknown_image_is_refused (a : DtApi) (rt : Host)
    (m : machine (host_of a rt)) (content : string)
    (req kvs : list (value * value)) (p : nat) (name : string) (line : nat) :
  files m !! CMD_FILE (host_of a rt) = Some content ->
  json_decode content = Ok (VTable req, p) ->
  rawget req (VStr "cmd") = VStr name ->
  (name, line) ∈ image_commands ->
  args_or_empty req = VTable kvs ->
  get_image a (rawget kvs (VStr "img_id")) (dt m) = Ok None ->
  exists m' resp,
    process_commands (host_of a rt) m = (Ok tt, m') /\
    json_encode (host_of a rt) false
      (error_payload
         (tostring rt
            (image_not_found rt (line + 4) (rawget kvs (VStr "img_id")))))
      = Ok resp /\
    files m' !! RESP_FILE (host_of a rt) = Some resp /\
    files m' !! PROC_FILE (host_of a rt) = None /\
    dt m' = dt m.
Proof.
  intros Hcmd Hd Hname Hin Hargs Hg.
  destruct (image_command_body a rt name line Hin) as (command & Hc & Hbody).
  pose proof (decoded_nonempty _ _ Hd) as Hne.
  destruct (build_command (host_of a rt) content req p name command
              (received _ content (claimed_by_rename _ content m))
              Hd Hname Hc) as [_ Herr].
  rewrite Hargs in Herr.
  destruct (Herr _ _ (Hbody kvs (dt m) Hg)) as (m2 & Hb & Hw).
  destruct (encode_error_payload (host_of a rt)
              (tostring rt
                 (image_not_found rt (line + 4) (rawget kvs (VStr "img_id")))))
    as [resp He].
  destruct (tick_publishes (host_of a rt) m content _ _ resp Hcmd Hne Hb He)
    as (Hrun & ? & ? & ? & Hw2).
  eexists _, resp. split; [exact Hrun|]. repeat split; try done; congruence.
Qed.

Lemma request_for_unknown_image_is_refused_witness :
  exists m' resp,
    process_commands shelf_host
      (session shelf_host sample_shelf
         {[ CMD_FILE shelf_host :=
              dq "{'cmd':'attach_tag','args':{'img_id':99,'tag_name':'x'}}" ]})
      = (Ok tt, m') /\
    json_encode shelf_host false
      (error_payload "mcp_bridge.lua:184: Image not found: 99") = Ok resp /\
    files m' !! RESP_FILE shelf_host = Some resp /\
    files m' !! PROC_FILE shelf_host = None /\
    dt m' = sample_shelf.
Proof.
  apply (request_for_unknown_image_is_refused shelf_api sample_host
           (session shelf_host sample_shelf
              {[ CMD_FILE shelf_host :=
                   dq "{'cmd':'attach_tag','args':{'img_id':99,'tag_name':'x'}}" ]})
           (dq "{'cmd':'attach_tag','args':{'img_id':99,'tag_name':'x'}}")
           [(VStr "cmd", VStr "attach_tag");
            (VStr "args",
             VTable [(VStr "img_id", VNum (LInt 99));
                     (VStr "tag_name", VStr "x")])]
           [(VStr "img_id", VNum (LInt 99)); (VStr "tag_name", VStr "x")]
           57%nat "attach_tag" 180%nat).
  - vm_compute; reflexivity.
  - vm_compute; reflexivity.
  - vm_compute; reflexivity.
  - unfold image_commands. set_solver.
  - vm_compute; reflexivity.
  - vm_compute; reflexivity.
Defined.

(** X16.  No request to the single-slot poller reaches an image.  The
    arguments [check_command] reads never hold [img_id], so each of
    its three commands asks darktable for the image [nil], whatever the
    request says.  If [get_image] finds no image for [nil], the response is
    the error "attempt to concatenate a nil value (local 'img_id')"; if it
    raises, the response is its error; in both cases the library is left as
    it was. *)
Theorem legacy_requests_reach_no_image (a : DtApi) (rt : Host)
    (to_number : string -> option number)
    (m : machine (legacy_host_of a rt to_number))
    (content name json_args : string)
    (command : handler (legacy_host_of a rt to_number)) :
  files m !! CMD_FILE (legacy_host_of a rt to_number) = Some content ->
  Legacy.split_bar content = Some (name, json_args) ->
  Legacy.commands (legacy_host_of a rt to_number) name = Some command ->
  (get_image a VNil (dt m) = Ok None ->
   exists line m',
     (name, line) ∈ legacy_image_commands /\
     Legacy.check_command (legacy_host_of a rt to_number) m = (Ok tt, m') /\
     files m' !! RESP_FILE (legacy_host_of a rt to_number) =
       Some (dq "{'status': 'error', 'error': '"
             +:+ where_ rt (line + 4)
             +:+ "attempt to concatenate a nil value (local 'img_id')"
             +:+ dq "'}") /\
     dt m' = dt m) /\
  (forall e,
     get_image a VNil (dt m) = Raise e ->
     exists m',
       Legacy.check_command (legacy_host_of a rt to_number) m = (Ok tt, m') /\
       files m' !! RESP_FILE (legacy_host_of a rt to_number) =
         Some (Legacy.error_response (legacy_host_of a rt to_number) e) /\
       dt m' = dt m).
Proof.
  intros Hcmd Hsplit Hc.
  assert (content <> "") as Hne by (by intros ->).
  pose proof (legacy_taken _ m content Hcmd Hne) as Hrun.
  rewrite Hsplit, Hc in Hrun.
  destruct (check_command_scan to_number json_args) as (args & Hscan & Himg).
  change (scan_args (legacy_host_of a rt to_number) json_args)
    with (scan_json_args to_number json_args) in Hrun.
  rewrite Hscan in Hrun. split.
  - intros Hg.
    destruct (legacy_command_body a rt to_number name command Hc)
      as (line & Hin & Hbody).
    specialize (Hbody args (dt m)). rewrite Himg in Hbody.
    specialize (Hbody Hg).
    exists line. eexists. split; [done|]. rewrite Hrun.
    unfold bind at 1, pcall_command. cbn [dt written after].
    rewrite Hbody. rewrite write_file_run. split; [reflexivity|].
    cbn [files after dt]. split; [|done].
    rewrite lookup_insert_eq. f_equal.
    unfold Legacy.error_response, image_not_found. cbn [tostring type_name].
    by rewrite !string_app_assoc.
  - intros e Hg. rewrite Hrun.
    assert (command (VTable args) (dt m) = (Raise e, dt m)) as Hbody.
    { revert Hc. unfold Legacy.commands.
      destruct (String.eqb name "set_rating");
        [|destruct (String.eqb name "attach_tag");
          [|destruct (String.eqb name "apply_style"); [|done]]];
        intros [= <-]; cbn [dt_set_rating dt_attach_tag dt_apply_style
                            legacy_host_of];
        unfold set_rating, attach_tag, apply_style, cbind, cread;
        cbn [index]; by rewrite Himg, Hg. }
    eexists. unfold bind at 1, pcall_command. cbn [dt written after].
    rewrite Hbody. rewrite write_file_run. split; [reflexivity|].
    cbn [files after dt]. split; [|done]. by rewrite lookup_insert_eq.
Qed.

Lemma legacy_requests_reach_no_image_witness :
  exists line m',
    ("set_rating", line) ∈ legacy_image_commands /\
    Legacy.check_command legacy_shelf_host
      (session legacy_shelf_host sample_shelf
         {[ CMD_FILE legacy_shelf_host :=
              dq "set_rating|{'img_id': 7, 'rating': 5}" ]}) = (Ok tt, m') /\
    files m' !! RESP_FILE legacy_shelf_host =
      Some (dq "{'status': 'error', 'error': '"
            +:+ where_ sample_host (line + 4)
            +:+ "attempt to concatenate a nil value (local 'img_id')"
            +:+ dq "'}") /\
    dt m' = sample_shelf.
Proof.
  assert (files (session legacy_shelf_host sample_shelf
                   {[ CMD_FILE legacy_shelf_host :=
                        dq "set_rating|{'img_id': 7, 'rating': 5}" ]})
            !! CMD_FILE legacy_shelf_host =
          Some (dq "set_rating|{'img_id': 7, 'rating': 5}")) as H1
    by (vm_compute; reflexivity).
  assert (Legacy.split_bar (dq "set_rating|{'img_id': 7, 'rating': 5}") =
          Some ("set_rating", dq "{'img_id': 7, 'rating': 5}")) as H2
    by (vm_compute; reflexivity).
  assert (Legacy.commands legacy_shelf_host "set_rating" =
          Some (set_rating shelf_api sample_host 17)) as H3
    by reflexivity.
  apply (proj1 (legacy_requests_reach_no_image shelf_api sample_host
                  decimal_to_number _ _ _ _ _ H1 H2 H3)).
  vm_compute; reflexivity.
Defined.

(** ** Decimal numerals *)

Section Numerals.

Lemma pretty_N_go_app x : forall s,
  pretty_N_go x s = pretty_N_go x "" +:+ s.
Proof.
  induction x as [x IH] using (well_founded_induction N.lt_wf_0).
  intros s. destruct (decide (0 < x)%N) as [Hx|Hx].
  - rewrite (pretty_N_go_step x s), (pretty_N_go_step x "") by done.
    rewrite (IH (x `div` 10)%N) by (by apply N.div_lt).
    rewrite (IH (x `div` 10)%N ltac:(by apply N.div_lt) (String _ "")).
    by rewrite string_app_assoc.
  - assert (x = 0%N) as -> by lia. by rewrite !pretty_N_go_0.
Qed.

Lemma digits_value_snoc ds d :
  digits_value (ds ++ [d]) = 10 * digits_value ds + digit_value d.
Proof. unfold digits_value. by rewrite fold_left_app. Qed.

Lemma pretty_N_char_digit r :
  (r < 10)%N ->
  is_digit (pretty_N_char r) = true /\
  digit_value (pretty_N_char r) = Z.of_N r.
Proof.
  intros Hr.
  assert (r = 0 \/ r = 1 \/ r = 2 \/ r = 3 \/ r = 4 \/ r = 5 \/ r = 6
          \/ r = 7 \/ r = 8 \/ r = 9)%N as H by lia.
  destruct H as [->|[->|[->|[->|[->|[->|[->|[->|[->| ->]]]]]]]]]; done.
Qed.

Lemma pretty_N_go_digits x :
  forallb is_digit (list_ascii_of_string (pretty_N_go x "")) = true /\
  digits_value (list_ascii_of_string (pretty_N_go x "")) = Z.of_N x /\
  ((0 < x)%N -> pretty_N_go x "" <> "").
Proof.
  induction x as [x IH] using (well_founded_induction N.lt_wf_0).
  destruct (decide (0 < x)%N) as [Hx|Hx].
  - rewrite (pretty_N_go_step x "") by done. rewrite pretty_N_go_app.
    destruct (IH (x `div` 10)%N) as (Hd & Hv & _); [by apply N.div_lt|].
    destruct (pretty_N_char_digit (x `mod` 10)%N) as [Hc1 Hc2].
    { by apply N.mod_lt. }
    rewrite list_ascii_app. cbn [list_ascii_of_string]. split; [|split].
    + rewrite forallb_app, Hd. cbn. by rewrite Hc1.
    + rewrite digits_value_snoc, Hv, Hc2.
      rewrite (N.div_mod x 10) at 3 by done. lia.
    + intros _. destruct (pretty_N_go _ ""); done.
  - assert (x = 0%N) as -> by lia. rewrite pretty_N_go_0.
    split; [done|]. split; [done|lia].
Qed.

Lemma pretty_N_digits (x : N) :
  forallb is_digit (list_ascii_of_string (pretty x)) = true /\
  digits_value (list_ascii_of_string (pretty x)) = Z.of_N x /\
  pretty x <> "".
Proof.
  unfold pretty, pretty_N. case_decide as Hx; [by subst|].
  destruct (pretty_N_go_digits x) as (? & ? & Hne).
  split; [done|]. split; [done|]. apply Hne. lia.
Qed.

(** The numeral of an integer: an optional minus and digits. *)
Lemma pretty_Z_digits (z : Z) :
  exists sign ds,
    list_ascii_of_string (pretty z) = sign ++ ds /\
    (sign = [] /\ 0 <= z \/ sign = ["-"%char] /\ z < 0) /\
    ds <> [] /\ forallb is_digit ds = true /\
    digits_value ds = Z.abs z.
Proof.
  destruct z as [|p|p].
  - exists [], ["0"%char]. repeat split; try done. left. done.
  - destruct (pretty_N_digits (N.pos p)) as (Hd & Hv & Hne).
    exists [], (list_ascii_of_string (pretty (N.pos p))).
    split; [done|]. split; [left; split; [done|lia]|].
    split; [|split; [done|by rewrite Hv]].
    intros E. apply Hne.
    rewrite <- (string_of_list_ascii_of_string (pretty (N.pos p))).
    by rewrite E.
  - destruct (pretty_N_digits (N.pos p)) as (Hd & Hv & Hne).
    exists ["-"%char], (list_ascii_of_string (pretty (N.pos p))).
    split; [done|]. split; [right; split; [done|lia]|].
    split; [|split; [done|by rewrite Hv]].
    intros E. apply Hne.
    rewrite <- (string_of_list_ascii_of_string (pretty (N.pos p))).
    by rewrite E.
Qed.

Lemma span_digits ds rest :
  forallb is_digit ds = true ->
  from_option is_digit false (head rest) = false ->
  span is_digit (ds ++ rest) = (ds, rest).
Proof.
  intros Hd Hr. induction ds as [|d ds IH]; cbn [app].
  - destruct rest as [|c rest]; [done|]. cbn in Hr. cbn [span].
    by rewrite Hr.
  - cbn [forallb] in Hd. apply andb_true_iff in Hd as [Hd1 Hd2].
    cbn [span]. rewrite Hd1, (IH Hd2). done.
Qed.

Lemma closes_cases rest :
  closes rest ->
  from_option is_digit false (head rest) = false /\
  optional (is_char ".") rest = ([], rest) /\
  span is_digit rest = ([], rest) /\
  optional is_e rest = ([], rest) /\
  optional is_plus_minus rest = ([], rest).
Proof.
  destruct rest as [|c rest]; [done|].
  intros [->|[->| ->]]; done.
Qed.

Lemma match_number_integer sign ds rest :
  sign = [] \/ sign = ["-"%char] ->
  ds <> [] -> forallb is_digit ds = true -> closes rest ->
  match_number (sign ++ ds ++ rest) =
    Some {| n_sign := sign; n_int := ds; n_dot := []; n_frac := [];
            n_e := []; n_esign := []; n_exp := [] |}.
Proof.
  intros Hsign Hne Hd Hc.
  destruct (closes_cases rest Hc) as (Hr & H1 & H2 & H3 & H4).
  unfold match_number.
  assert (optional (is_char "-") (sign ++ ds ++ rest) = (sign, ds ++ rest))
    as ->.
  { destruct Hsign as [-> | ->]; [|done].
    destruct ds as [|d ds]; [done|]. cbn [app optional].
    cbn [forallb] in Hd. apply andb_true_iff in Hd as [Hd1 _].
    destruct d as [[] [] [] [] [] [] [] []]; try discriminate; done. }
  rewrite (span_digits ds rest Hd Hr).
  destruct ds as [|d ds]; [done|].
  rewrite H1, H2, H3, H4, H2. done.
Qed.

Lemma parse_num_val_integer cs pos z rest :
  (- 2 ^ 63 <=? z) && (z <? 2 ^ 63) = true ->
  from_pos cs pos = list_ascii_of_string (pretty z) ++ rest ->
  closes rest ->
  parse_num_val cs pos =
    Ok (VNum (LInt z), (pos + String.length (pretty z))%nat).
Proof.
  intros Hz Hf Hc.
  destruct (pretty_Z_digits z) as (sign & ds & Htext & Hsign & Hne & Hd & Hv).
  unfold parse_num_val. rewrite Hf, Htext, <- app_assoc.
  rewrite (match_number_integer sign ds rest); try done.
  2:{ destruct Hsign as [[-> _]|[-> _]]; auto. }
  unfold tonumber. cbn [n_dot n_e n_esign n_int n_sign is_nil andb].
  rewrite Hv.
  assert ((if is_nil sign then Z.abs z else - Z.abs z) = z) as ->.
  { destruct Hsign as [[-> ?]|[-> ?]]; cbn [is_nil]; lia. }
  rewrite Hz. unfold numeral_text.
  cbn [n_sign n_int n_dot n_frac n_e n_esign n_exp]. rewrite !app_nil_r.
  rewrite <- Htext, list_ascii_length. done.
Qed.
End Numerals.

(** ** Where the decoder stands *)

Section Positions.
Context (cs : list ascii).

Lemma from_pos_head pos c rest :
  (1 <= pos)%nat -> from_pos cs pos = c :: rest ->
  char_at cs pos = Some c /\ ~ (length cs < pos)%nat /\
  from_pos cs (S pos) = rest.
Proof.
  unfold from_pos, char_at. destruct pos as [|i]; [lia|]. intros _.
  cbn [Nat.sub]. rewrite Nat.sub_0_r. intros Hd.
  assert (cs !! i = Some c) as Hl.
  { rewrite <- (Nat.add_0_r i), <- lookup_drop, Hd. done. }
  split; [done|]. split.
  - apply lookup_lt_Some in Hl. lia.
  - rewrite (drop_S _ _ _ Hl) in Hd. by injection Hd.
Qed.

Lemma from_pos_skip pos a b :
  (1 <= pos)%nat -> from_pos cs pos = a ++ b ->
  from_pos cs (pos + length a) = b.
Proof.
  unfold from_pos. intros Hp Hd.
  replace (pos + length a - 1)%nat with ((pos - 1) + length a)%nat by lia.
  rewrite <- drop_drop, Hd. by rewrite drop_app_length.
Qed.

Lemma span_prefix (p : ascii -> bool) a b :
  forallb p a = true -> from_option p false (head b) = false ->
  span p (a ++ b) = (a, b).
Proof.
  intros Ha Hb. induction a as [|x a IH]; cbn [app].
  - destruct b as [|c b]; [done|]. cbn in Hb. cbn [span]. by rewrite Hb.
  - cbn [forallb] in Ha. apply andb_true_iff in Ha as [Hx Ha].
    cbn [span]. rewrite Hx, (IH Ha). done.
Qed.

Lemma skip_space_over pos sp rest :
  from_pos cs pos = sp ++ rest ->
  forallb is_space sp = true ->
  from_option is_space false (head rest) = false ->
  skip_space cs pos = (pos + length sp)%nat.
Proof.
  intros Hf Hsp Hr. unfold skip_space.
  by rewrite Hf, (span_prefix is_space sp rest Hsp Hr).
Qed.

(** A call of the decoder in front of white space and a character that is
    none. *)
Lemma decode_at fuel pos sp c rest d :
  (1 <= pos)%nat ->
  from_pos cs pos = sp ++ c :: rest ->
  forallb is_space sp = true -> is_space c = false ->
  decode (S fuel) cs pos d =
    let pos := (pos + length sp)%nat in
    let first := Some c in
    if decide (first = Some "{"%char)
    then decode_object fuel cs (S pos) [] true
    else if decide (first = Some "["%char)
    then decode_array fuel cs (S pos) [] true
    else if decide (first = Some ch_quote)
    then parse_str_val cs (S pos)
    else if bool_decide (first = Some "-"%char)
            || from_option is_digit false first
    then parse_num_val cs pos
    else if bool_decide (is_Some first /\ first = d)
    then Ok (VNil, S pos)
    else if starts_with "true" (from_pos cs pos)
    then Ok (VBool true, (pos + 4)%nat)
    else if starts_with "false" (from_pos cs pos)
    then Ok (VBool false, (pos + 5)%nat)
    else Raise (InvalidSyntax pos).
Proof.
  intros Hp Hf Hsp Hc. rewrite decode_unfold.
  pose proof (from_pos_skip pos sp (c :: rest) Hp Hf) as Hf'.
  destruct (from_pos_head (pos + length sp) c rest ltac:(lia) Hf')
    as (Hch & Hlen & _).
  rewrite (skip_space_over pos sp (c :: rest) Hf Hsp) by (by cbn; rewrite Hc).
  destruct (decide (length cs < pos)%nat); [lia|].
  cbn zeta. by rewrite Hch.
Qed.
End Positions.

(** ** Strings, numbers and booleans *)

Section Scalars.

Lemma parse_any_escaped_char c rest pos val :
  parse_str_val_from (list_ascii_of_string (escape_char c) ++ rest) pos val =
    parse_str_val_from rest (pos + String.length (escape_char c))
      (val +:+ str1 (read_back c)).
Proof.
  destruct c as [[] [] [] [] [] [] [] []]; simpl; f_equal; lia.
Qed.

Lemma parse_any_escaped_string s : forall rest pos val,
  parse_str_val_from
    (list_ascii_of_string (escape_str s) ++ ch_quote :: rest) pos val =
    Ok (VStr (val +:+ read_back_string s),
        S (pos + String.length (escape_str s))).
Proof.
  induction s as [|c s IH]; intros rest pos val.
  - simpl. by rewrite Nat.add_0_r, string_app_nil_r.
  - rewrite escape_str_cons, list_ascii_app, <- app_assoc.
    rewrite parse_any_escaped_char, IH.
    rewrite string_length_app, string_app_assoc. simpl.
    f_equal. f_equal. lia.
Qed.

Lemma read_back_plain s : plain_string s = true -> read_back_string s = s.
Proof.
  induction s as [|c s IH]; [done|]. cbn [plain_string read_back_string].
  intros [Hc Hs]%andb_true_iff. rewrite (IH Hs). f_equal.
  unfold plain_char in Hc. unfold read_back.
  destruct (Ascii.eqb c ch_bs), (Ascii.eqb c ch_ff), (Ascii.eqb c ch_nl),
    (Ascii.eqb c ch_cr), (Ascii.eqb c ch_tab); done.
Qed.

(** The text of a string between quotes, read at any place. *)
Lemma decode_string fuel cs pos sp s rest d :
  (1 <= pos)%nat ->
  from_pos cs pos =
    sp ++ list_ascii_of_string
            (str1 ch_quote +:+ escape_str s +:+ str1 ch_quote) ++ rest ->
  forallb is_space sp = true ->
  decode (S fuel) cs pos d =
    Ok (VStr (read_back_string s),
        (pos + length sp
         + String.length (str1 ch_quote +:+ escape_str s +:+ str1 ch_quote))
        %nat).
Proof.
  intros Hp Hf Hsp.
  rewrite !list_ascii_app, <- !app_assoc in Hf. cbn [str1 list_ascii_of_string app] in Hf.
  rewrite (decode_at cs fuel pos sp ch_quote _ d Hp Hf Hsp) by done.
  cbn zeta. destruct (decide _) as [|_]; [done|].
  destruct (decide _) as [|_]; [done|].
  destruct (decide _) as [_|]; [|done].
  pose proof (from_pos_skip cs pos sp _ Hp Hf) as Hf'.
  destruct (from_pos_head cs (pos + length sp) _ _ ltac:(lia) Hf')
    as (_ & _ & Hf'').
  unfold parse_str_val. rewrite Hf'', parse_any_escaped_string.
  rewrite !string_length_app. cbn [str1 String.length].
  f_equal. f_equal. lia.
Qed.

Lemma decode_bool fuel cs pos sp (b : bool) rest d :
  (1 <= pos)%nat ->
  from_pos cs pos =
    sp ++ list_ascii_of_string (if b then "true" else "false") ++ rest ->
  forallb is_space sp = true -> loop_delim d ->
  decode (S fuel) cs pos d =
    Ok (VBool b,
        (pos + length sp
         + String.length (if b then "true" else "false"))%nat).
Proof.
  intros Hp Hf Hsp Hd.
  pose proof (from_pos_skip cs pos sp _ Hp Hf) as Hf'.
  destruct b; cbn [list_ascii_of_string app] in Hf.
  - rewrite (decode_at cs fuel pos sp "t" _ d Hp Hf Hsp) by done.
    cbn zeta. rewrite Hf'.
    destruct (decide _) as [|_]; [done|].
    destruct (decide _) as [|_]; [done|].
    destruct (decide _) as [|_]; [done|].
    cbn [bool_decide orb from_option is_digit].
    rewrite bool_decide_eq_false_2 by done. cbn [orb].
    rewrite bool_decide_eq_false_2.
    2:{ intros [_ E]. destruct Hd as [->|[->| ->]]; done. }
    done.
  - rewrite (decode_at cs fuel pos sp "f" _ d Hp Hf Hsp) by done.
    cbn zeta. rewrite Hf'.
    destruct (decide _) as [|_]; [done|].
    destruct (decide _) as [|_]; [done|].
    destruct (decide _) as [|_]; [done|].
    rewrite bool_decide_eq_false_2 by done. cbn [orb from_option is_digit].
    rewrite bool_decide_eq_false_2.
    2:{ intros [_ E]. destruct Hd as [->|[->| ->]]; done. }
    done.
Qed.

Lemma decode_integer fuel cs pos sp z rest d :
  (1 <= pos)%nat ->
  (- 2 ^ 63 <=? z) && (z <? 2 ^ 63) = true ->
  from_pos cs pos = sp ++ list_ascii_of_string (pretty z) ++ rest ->
  forallb is_space sp = true -> closes rest ->
  decode (S fuel) cs pos d =
    Ok (VNum (LInt z), (pos + length sp + String.length (pretty z))%nat).
Proof.
  intros Hp Hz Hf Hsp Hc.
  pose proof (from_pos_skip cs pos sp _ Hp Hf) as Hf'.
  destruct (pretty_Z_digits z) as (sign & ds & Htext & Hsign & Hne & Hd & _).
  assert (exists c tl,
            list_ascii_of_string (pretty z) = c :: tl /\
            is_space c = false /\
            (bool_decide (Some c = Some "-"%char)
             || from_option is_digit false (Some c)) = true /\
            c <> "{"%char /\ c <> "["%char /\ c <> ch_quote)
    as (c & tl & Hctl & Hns & Hnum & Hn1 & Hn2 & Hn3).
  { rewrite Htext. destruct Hsign as [[-> _]|[-> _]].
    - destruct ds as [|c tl]; [done|]. exists c, tl.
      cbn [forallb] in Hd. apply andb_true_iff in Hd as [Hd1 _].
      split; [done|].
      destruct c as [[] [] [] [] [] [] [] []]; try discriminate; done.
    - exists "-"%char, ds. done. }
  rewrite Hctl in Hf. cbn [app] in Hf.
  rewrite (decode_at cs fuel pos sp c _ d Hp Hf Hsp Hns).
  cbn zeta.
  destruct (decide _) as [[= ?]|_]; [done|].
  destruct (decide _) as [[= ?]|_]; [done|].
  destruct (decide _) as [[= ?]|_]; [done|].
  rewrite Hnum.
  by apply parse_num_val_integer with rest.
Qed.
End Scalars.

(** ** The two loops *)

Section Loops.

Lemma join_items_cons x l : join_items (x :: l) = x +:+ more_items l.
Proof.
  revert x. induction l as [|y l IH]; intros x.
  - cbn. by rewrite string_app_nil_r.
  - change (join_items (x :: y :: l))
      with (x +:+ ", " +:+ join_items (y :: l)).
    by rewrite IH.
Qed.

Lemma skip_delim_at cs pos c rest delim b :
  (1 <= pos)%nat -> from_pos cs pos = c :: rest -> is_space c = false ->
  skip_delim cs pos delim b =
    if decide (c = delim) then Ok (S pos, true)
    else if b then Raise (ExpectedDelim delim pos) else Ok (pos, false).
Proof.
  intros Hp Hf Hc. unfold skip_delim.
  rewrite (skip_space_over cs pos [] (c :: rest) Hf eq_refl)
    by (by cbn; rewrite Hc).
  rewrite Nat.add_0_r.
  destruct (from_pos_head cs pos c rest Hp Hf) as (-> & _ & _).
  destruct (decide (c = delim)) as [->|Hne].
  - by destruct (decide _).
  - destruct (decide _) as [[= ?]|]; done.
Qed.

(** The call that finds the end of a loop. *)
Lemma decode_end fuel cs pos c rest :
  (1 <= pos)%nat -> from_pos cs pos = c :: rest ->
  c = "]"%char \/ c = "}"%char ->
  decode (S fuel) cs pos (Some c) = Ok (VNil, S pos).
Proof.
  intros Hp Hf Hc.
  rewrite (decode_at cs fuel pos [] c rest (Some c) Hp Hf eq_refl)
    by (by destruct Hc as [-> | ->]).
  cbn zeta. rewrite Nat.add_0_r.
  destruct Hc as [-> | ->].
  - destruct (decide _) as [|_]; [done|].
    destruct (decide _) as [|_]; [done|].
    destruct (decide _) as [|_]; [done|].
    rewrite bool_decide_eq_false_2 by done. cbn [orb from_option is_digit].
    rewrite bool_decide_eq_true_2; [done|]. split; [by eexists|done].
  - destruct (decide _) as [|_]; [done|].
    destruct (decide _) as [|_]; [done|].
    destruct (decide _) as [|_]; [done|].
    rewrite bool_decide_eq_false_2 by done. cbn [orb from_option is_digit].
    rewrite bool_decide_eq_true_2; [done|]. split; [by eexists|done].
Qed.

Lemma closes_more l rest c :
  c = "]"%char \/ c = "}"%char ->
  closes (list_ascii_of_string (more_items l) ++ c :: rest).
Proof.
  intros Hc. destruct l as [|x l].
  - cbn. tauto.
  - cbn [more_items]. rewrite list_ascii_app. cbn. tauto.
Qed.

Lemma decode_array_step fuel cs pos arr v p :
  decode fuel cs pos (Some "]"%char) = Ok (v, p) -> not_nil v ->
  decode_array (S fuel) cs pos arr true =
    let* (pos0, delim_found) := skip_delim cs p "," false in
    decode_array fuel cs pos0 (table_insert arr v) delim_found.
Proof.
  intros Hd Hv. rewrite decode_array_unfold, Hd. by destruct v.
Qed.

Lemma decode_array_end fuel cs pos arr b rest :
  (1 <= pos)%nat -> from_pos cs pos = "]"%char :: rest ->
  decode_array (S (S fuel)) cs pos arr b = Ok (VTable arr, S pos).
Proof.
  intros Hp Hf. rewrite decode_array_unfold.
  by rewrite (decode_end fuel cs pos "]" rest) by auto.
Qed.

Lemma array_loop items : forall vs' cs pos sp done_ rest,
  Forall2 reads_as items vs' -> Forall not_nil vs' -> items <> [] ->
  (1 <= pos)%nat -> forallb is_space sp = true -> Forall not_nil done_ ->
  from_pos cs pos =
    sp ++ list_ascii_of_string (join_items items) ++ "]"%char :: rest ->
  exists fuel, forall fuel', (fuel <= fuel')%nat ->
    decode_array fuel' cs pos (seq_entries 1 done_) true =
      Ok (VTable (seq_entries 1 (done_ ++ vs')),
          (pos + length sp + String.length (join_items items) + 1)%nat).
Proof.
  induction items as [|x l IH]; intros vs' cs pos sp done_ rest Hr Hn Hne
    Hp Hsp Hd Hf; [done|].
  inversion Hr as [|? v' ? l' Hx Hl]; subst. clear Hr Hne.
  apply Forall_cons in Hn as [Hv' Hn].
  rewrite join_items_cons, list_ascii_app, <- app_assoc in Hf.
  destruct (Hx cs pos sp _ (Some "]"%char) Hp Hf Hsp
              (closes_more l rest "]" ltac:(auto))
              ltac:(unfold loop_delim; auto)) as [F1 HF1].
  set (p1 := (pos + length sp + String.length x)%nat) in *.
  assert (from_pos cs p1 =
          list_ascii_of_string (more_items l) ++ "]"%char :: rest) as Hf1.
  { rewrite app_assoc in Hf. apply from_pos_skip in Hf; [|done].
    rewrite length_app, list_ascii_length in Hf.
    unfold p1. by rewrite <- Nat.add_assoc. }
  assert (table_insert (seq_entries 1 done_) v' =
          seq_entries 1 (done_ ++ [v'])) as Hins
    by (by apply table_insert_seq).
  destruct l as [|y l].
  - (* the last item *)
    inversion Hl; subst. cbn [more_items list_ascii_of_string app] in Hf1.
    exists (S (S (S F1))). intros f Hfuel.
    destruct f as [|[|[|f]]]; [lia..|].
    rewrite (decode_array_step (S (S f)) cs pos _ v' p1)
      by (done || apply HF1; lia).
    cbn zeta. unfold table_insert in Hins |- *. rewrite Hins.
    rewrite (skip_delim_at cs p1 "]" rest "," false)
      by (done || unfold p1; lia).
    destruct (decide _) as [|_]; [done|]. cbn [rbind].
    rewrite (decode_array_end f cs p1 _ false rest)
      by (done || unfold p1; lia).
    rewrite join_items_cons. cbn [more_items].
    rewrite string_app_nil_r. f_equal. f_equal. unfold p1. lia.
  - (* more items follow *)
    cbn [more_items] in Hf1.
    rewrite !list_ascii_app, <- !app_assoc in Hf1.
    cbn [list_ascii_of_string app] in Hf1.
    assert (from_pos cs (S p1) =
            [" "%char] ++ list_ascii_of_string (join_items (y :: l))
            ++ "]"%char :: rest) as Hf2.
    { destruct (from_pos_head cs p1 _ _ ltac:(unfold p1; lia) Hf1)
        as (_ & _ & ->).
      rewrite join_items_cons, list_ascii_app, <- app_assoc. done. }
    destruct (IH l' cs (S p1) [" "%char] (done_ ++ [v']) rest Hl Hn
                ltac:(done) ltac:(lia) eq_refl
                ltac:(apply Forall_app; split; [done|by apply Forall_singleton])
                Hf2) as [F2 HF2].
    exists (S (Nat.max F1 F2)). intros f Hfuel.
    destruct f as [|f]; [lia|].
    rewrite (decode_array_step f cs pos _ v' p1) by (done || apply HF1; lia).
    cbn zeta. unfold table_insert in Hins |- *. rewrite Hins.
    rewrite (skip_delim_at cs p1 "," _ "," false)
      by (done || unfold p1; lia).
    destruct (decide _) as [_|]; [|done]. cbn [rbind].
    rewrite (HF2 f) by lia. rewrite <- app_assoc. cbn [app].
    f_equal. f_equal.
    change (join_items (x :: y :: l))
      with (x +:+ ", " +:+ join_items (y :: l)).
    rewrite !string_length_app. cbn [String.length length].
    unfold p1. lia.
Qed.

Lemma rawset_new (obj : list (value * value)) k v :
  entry_of obj k = None -> not_nil v -> rawset obj k v = obj ++ [(k, v)].
Proof.
  intros He Hv. induction obj as [|[k' v'] obj IH]; cbn [rawset app].
  - by destruct v.
  - cbn [entry_of] in He. destruct (raw_equal k' k); [done|].
    by rewrite IH.
Qed.

Lemma entry_of_snoc (obj : list (value * value)) k v k' :
  entry_of obj k' = None -> raw_equal k k' = false ->
  entry_of (obj ++ [(k, v)]) k' = None.
Proof.
  intros He Hk. induction obj as [|[k0 v0] obj IH]; cbn [entry_of app].
  - by rewrite Hk.
  - cbn [entry_of] in He. destruct (raw_equal k0 k'); [done|]. by apply IH.
Qed.

Lemma decode_object_step fuel cs pos obj k p :
  decode fuel cs pos (Some "}"%char) = Ok (VStr k, p) ->
  decode_object (S fuel) cs pos obj true =
    let* (pos1, _) := skip_delim cs p ":" true in
    let* (v, pos2) := decode fuel cs pos1 None in
    let* (pos3, delim_found) := skip_delim cs pos2 "," false in
    decode_object fuel cs pos3 (rawset obj (VStr k) v) delim_found.
Proof.
  intros Hd. rewrite decode_object_unfold, Hd. cbn [rbind negb].
  destruct (skip_delim cs p ":" true) as [[pos1 b]| |]; [|done..].
  cbn [rbind].
  by destruct (decode fuel cs pos1 None) as [[v pos2]| |].
Qed.

Lemma decode_object_end fuel cs pos obj b rest :
  (1 <= pos)%nat -> from_pos cs pos = "}"%char :: rest ->
  decode_object (S (S fuel)) cs pos obj b = Ok (VTable obj, S pos).
Proof.
  intros Hp Hf. rewrite decode_object_unfold.
  by rewrite (decode_end fuel cs pos "}" rest) by auto.
Qed.

Lemma object_loop es : forall cs pos sp obj rest,
  Forall wire_entry_ok es -> es <> [] ->
  NoDup (map wire_key es) ->
  Forall (fun e => entry_of obj (VStr (wire_key e)) = None) es ->
  (1 <= pos)%nat -> forallb is_space sp = true ->
  from_pos cs pos =
    sp ++ list_ascii_of_string
            (join_items
               (map (fun e => entry_text (wire_key e) (wire_text e)) es))
       ++ "}"%char :: rest ->
  exists fuel, forall fuel', (fuel <= fuel')%nat ->
    decode_object fuel' cs pos obj true =
      Ok (VTable (obj ++ map (fun e => (VStr (wire_key e), wire_read e)) es),
          (pos + length sp
           + String.length
               (join_items
                  (map (fun e => entry_text (wire_key e) (wire_text e)) es))
           + 1)%nat).
Proof.
  induction es as [|[[k vtext] v'] es IH];
    intros cs pos sp obj rest Hok Hne Hnd Hnew Hp Hsp Hf; [done|].
  clear Hne. apply Forall_cons in Hok as [(Hk & Hread & Hv') Hok].
  apply Forall_cons in Hnew as [Hnew1 Hnew].
  cbn [map wire_key wire_text wire_read fst snd] in *.
  apply NoDup_cons in Hnd as [Hnotin Hnd].
  set (more := map (fun e => entry_text (wire_key e) (wire_text e)) es) in *.
  rewrite join_items_cons in Hf |- *. unfold entry_text at 1 in Hf.
  rewrite !list_ascii_app, <- !app_assoc in Hf.
  (* the key *)
  assert (forall f, decode (S f) cs pos (Some "}"%char) =
                    Ok (VStr k, (pos + length sp
                                 + String.length (key_text k))%nat)) as Hkey.
  { intros f. rewrite (decode_string f cs pos sp k _ _ Hp Hf Hsp).
    by rewrite (read_back_plain k Hk). }
  set (p1 := (pos + length sp + String.length (key_text k))%nat) in *.
  assert (from_pos cs p1 =
          ":"%char :: list_ascii_of_string vtext
          ++ list_ascii_of_string (more_items more) ++ "}"%char :: rest)
    as Hf1.
  { rewrite app_assoc in Hf. apply from_pos_skip in Hf; [|done].
    rewrite length_app, list_ascii_length in Hf.
    unfold p1. by rewrite <- Nat.add_assoc. }
  destruct (from_pos_head cs p1 _ _ ltac:(unfold p1; lia) Hf1)
    as (_ & _ & Hf2).
  (* the value *)
  destruct (Hread cs (S p1) [] _ None ltac:(lia) Hf2 eq_refl
              (closes_more more rest "}" ltac:(auto))
              ltac:(unfold loop_delim; auto)) as [F1 HF1].
  cbn [length] in HF1. rewrite Nat.add_0_r in HF1.
  set (p2 := (S p1 + String.length vtext)%nat) in *.
  assert (from_pos cs p2 =
          list_ascii_of_string (more_items more) ++ "}"%char :: rest)
    as Hf3.
  { apply (from_pos_skip cs (S p1)) in Hf2; [|lia].
    by rewrite list_ascii_length in Hf2. }
  assert (rawset obj (VStr k) v' = obj ++ [(VStr k, v')]) as Hset
    by (by apply rawset_new).
  assert (forall f, (S F1 <= f)%nat ->
            decode_object (S f) cs pos obj true =
              let* (pos3, delim_found) := skip_delim cs p2 "," false in
              decode_object f cs pos3 (obj ++ [(VStr k, v')]) delim_found)
    as Hstep.
  { intros f Hfuel. destruct f as [|f]; [lia|].
    rewrite (decode_object_step (S f) cs pos obj k p1 (Hkey f)).
    rewrite (skip_delim_at cs p1 ":" _ ":" true)
      by (done || unfold p1; lia).
    destruct (decide _) as [_|]; [|done]. cbn [rbind].
    rewrite (HF1 (S f)) by lia. cbn [rbind]. by rewrite Hset. }
  destruct es as [|e2 es].
  - (* the last entry *)
    cbn [map more_items list_ascii_of_string app] in *. subst more.
    cbn [more_items list_ascii_of_string app] in Hf3.
    exists (S (S (S F1))). intros f Hfuel.
    destruct f as [|[|[|f]]]; [lia..|].
    rewrite Hstep by lia.
    rewrite (skip_delim_at cs p2 "}" rest "," false)
      by (done || unfold p2, p1; lia).
    destruct (decide _) as [|_]; [done|]. cbn [rbind].
    rewrite (decode_object_end f cs p2 _ false rest)
      by (done || unfold p2, p1; lia).
    cbn [more_items]. rewrite string_app_nil_r.
    unfold entry_text. rewrite !string_length_app. cbn [String.length].
    f_equal. f_equal. unfold p2, p1. lia.
  - (* more entries follow *)
    set (es' := e2 :: es) in *.
    assert (exists y l, more = y :: l) as (y & l & Hmore).
    { subst more es'. cbn [map]. eauto. }
    pose proof Hf3 as Hf3'.
    rewrite Hmore in Hf3'. cbn [more_items] in Hf3'.
    rewrite !list_ascii_app, <- !app_assoc in Hf3'.
    cbn [list_ascii_of_string app] in Hf3'.
    assert (from_pos cs (S p2) =
            [" "%char] ++ list_ascii_of_string (join_items more)
            ++ "}"%char :: rest) as Hf4.
    { destruct (from_pos_head cs p2 _ _ ltac:(unfold p2; lia) Hf3')
        as (_ & _ & ->).
      rewrite Hmore, join_items_cons, list_ascii_app, <- app_assoc. done. }
    destruct (IH cs (S p2) [" "%char] (obj ++ [(VStr k, v')]) rest Hok
                ltac:(done) Hnd) as [F2 HF2]; [|lia|done|exact Hf4|].
    { rewrite Forall_forall in Hnew |- *. intros e He.
      apply entry_of_snoc; [by apply Hnew|].
      cbn [raw_equal]. apply String.eqb_neq. intros ->. apply Hnotin.
      apply list_elem_of_fmap. by exists e. }
    exists (S (S (Nat.max F1 F2))). intros f Hfuel.
    destruct f as [|f]; [lia|].
    rewrite Hstep by lia.
    rewrite (skip_delim_at cs p2 "," _ "," false ltac:(unfold p2; lia) Hf3')
      by done.
    destruct (decide _) as [_|]; [|done]. cbn [rbind].
    rewrite (HF2 f) by lia. rewrite <- app_assoc. cbn [app].
    f_equal. f_equal.
    replace (more_items more) with (", " +:+ join_items more)
      by (by rewrite Hmore, join_items_cons).
    unfold entry_text. rewrite !string_length_app.
    cbn [String.length length]. unfold p2, p1. lia.
Qed.
End Loops.

(** ** Values of any depth *)

Section RoundTrip.
Context (h : Host).

Lemma reads_empty_object : reads_as "{}" (VTable []).
Proof.
  intros cs pos sp rest d Hp Hf Hsp _ _.
  cbn [list_ascii_of_string app] in Hf.
  exists 3%nat. intros f Hfuel. destruct f as [|[|[|f]]]; [lia..|].
  rewrite (decode_at cs _ pos sp "{" _ d Hp Hf Hsp) by done.
  cbn zeta. destruct (decide _) as [_|]; [|done].
  pose proof (from_pos_skip cs pos sp _ Hp Hf) as Hf'.
  destruct (from_pos_head cs (pos + length sp) _ _ ltac:(lia) Hf')
    as (_ & _ & Hf'').
  rewrite (decode_object_end f cs _ [] true rest) by (done || lia).
  f_equal. f_equal. cbn. lia.
Qed.

Lemma encode_empty_table : json_encode h false (VTable []) = Ok "{}".
Proof. apply (encode_array h []). constructor. Qed.

Lemma seq_keys_entries kvs : forall i,
  seq_keys i kvs = true -> kvs = seq_entries i (map snd kvs).
Proof.
  induction kvs as [|[k v] kvs IH]; intros i; [done|].
  cbn [seq_keys map snd seq_entries]. intros [Hk Hs]%andb_true_iff.
  rewrite <- (IH _ Hs). f_equal. f_equal.
  destruct k as [| |[z|]| |]; try done. cbn in Hk.
  apply Z.eqb_eq in Hk. by subst.
Qed.

Lemma portable_not_nil v : portable v = true -> not_nil v.
Proof. by destruct v. Qed.

Lemma same_value_seq vs vs' : forall i,
  Forall2 same_value vs vs' ->
  Forall2 (fun e e' => fst e = fst e' /\ same_value (snd e) (snd e'))
    (seq_entries i vs) (seq_entries i vs').
Proof.
  intros i H. revert i.
  induction H as [|v v' vs vs' Hv _ IH]; intros i; cbn [seq_entries].
  - constructor.
  - constructor; [done|apply IH].
Qed.

Lemma items_come_back vs : forall items,
  Forall (comes_back h) vs -> forallb portable vs = true ->
  Forall2 (fun v item => json_encode h false v = Ok item) vs items ->
  exists vs',
    Forall2 same_value vs vs' /\ Forall not_nil vs' /\
    Forall2 reads_as items vs'.
Proof.
  induction vs as [|v vs IH]; intros items Hc Hp He.
  - inversion He; subst. exists []. repeat split; constructor.
  - inversion He as [|? item ? items' Hv Hrest]; subst.
    apply Forall_cons in Hc as [Hcv Hc]. cbn [forallb] in Hp.
    apply andb_true_iff in Hp as [Hpv Hp].
    destruct (Hcv Hpv item Hv) as (v' & Hs & Hn & Hr).
    destruct (IH items' Hc Hp Hrest) as (vs' & Hss & Hns & Hrs).
    exists (v' :: vs'). repeat split; by constructor.
Qed.

Lemma reads_array items vs' :
  items <> [] -> Forall2 reads_as items vs' -> Forall not_nil vs' ->
  reads_as ("[" +:+ join_items items +:+ "]") (array_of vs').
Proof.
  intros Hne Hr Hn cs pos sp rest d Hp Hf Hsp _ _.
  rewrite !list_ascii_app, <- !app_assoc in Hf.
  cbn [list_ascii_of_string app] in Hf.
  pose proof (from_pos_skip cs pos sp _ Hp Hf) as Hf'.
  destruct (from_pos_head cs (pos + length sp) _ _ ltac:(lia) Hf')
    as (_ & _ & Hf'').
  destruct (array_loop items vs' cs (S (pos + length sp)) [] [] rest
              Hr Hn Hne ltac:(lia) eq_refl ltac:(constructor) Hf'')
    as [F HF].
  cbn [seq_entries app] in HF.
  exists (S F). intros f Hfuel. destruct f as [|f]; [lia|].
  rewrite (decode_at cs _ pos sp "[" _ d Hp Hf Hsp) by done.
  cbn zeta. destruct (decide _) as [|_]; [done|].
  destruct (decide _) as [_|]; [|done].
  rewrite (HF f) by lia. unfold array_of. cbn [app].
  f_equal. f_equal. rewrite !string_length_app.
  cbn [String.length length]. lia.
Qed.

Lemma reads_object es :
  es <> [] -> Forall wire_entry_ok es -> NoDup (map wire_key es) ->
  reads_as
    ("{" +:+ join_items
               (map (fun e => entry_text (wire_key e) (wire_text e)) es)
     +:+ "}")
    (VTable (map (fun e => (VStr (wire_key e), wire_read e)) es)).
Proof.
  intros Hne Hok Hnd cs pos sp rest d Hp Hf Hsp _ _.
  rewrite !list_ascii_app, <- !app_assoc in Hf.
  cbn [list_ascii_of_string app] in Hf.
  pose proof (from_pos_skip cs pos sp _ Hp Hf) as Hf'.
  destruct (from_pos_head cs (pos + length sp) _ _ ltac:(lia) Hf')
    as (_ & _ & Hf'').
  destruct (object_loop es cs (S (pos + length sp)) [] [] rest
              Hok Hne Hnd) as [F HF]; [|lia|done|exact Hf''|].
  { apply Forall_forall. done. }
  exists (S F). intros f Hfuel. destruct f as [|f]; [lia|].
  rewrite (decode_at cs _ pos sp "{" _ d Hp Hf Hsp) by done.
  cbn zeta. destruct (decide _) as [_|]; [|done].
  rewrite (HF f) by lia. cbn [app].
  f_equal. f_equal. rewrite !string_length_app.
  cbn [String.length length]. lia.
Qed.
End RoundTrip.

(** ** More budget changes nothing *)

Section Budget.
Context (cs : list ascii).

Lemma decode_more_fuel fuel :
  (forall pos d,
     decode fuel cs pos d <> OutOfFuel ->
     decode (S fuel) cs pos d = decode fuel cs pos d) /\
  (forall pos obj b,
     decode_object fuel cs pos obj b <> OutOfFuel ->
     decode_object (S fuel) cs pos obj b = decode_object fuel cs pos obj b) /\
  (forall pos arr b,
     decode_array fuel cs pos arr b <> OutOfFuel ->
     decode_array (S fuel) cs pos arr b = decode_array fuel cs pos arr b).
Proof.
  induction fuel as [|fuel (IHd & IHo & IHa)]; [repeat split; done|].
  split; [|split].
  - intros pos d. rewrite (decode_unfold cs (S fuel)), (decode_unfold cs fuel).
    cbn zeta. destruct (decide (length cs < pos)%nat); [done|].
    destruct (decide _); [apply IHo|].
    destruct (decide _); [apply IHa|]. done.
  - intros pos obj b.
    rewrite (decode_object_unfold cs (S fuel)),
      (decode_object_unfold cs fuel).
    destruct (decode fuel cs pos (Some "}"%char)) as [[key p]| |] eqn:Hk;
      [|by rewrite IHd, Hk by congruence|done].
    rewrite IHd, Hk by congruence. cbn [rbind].
    destruct key; try done;
      (destruct (negb b); [done|];
       destruct (skip_delim cs p ":" true) as [[p1 b1]| |]; [|done..];
       cbn [rbind];
       destruct (decode fuel cs p1 None) as [[v p2]| |] eqn:Hv;
         [|by rewrite IHd, Hv by congruence|done];
       rewrite IHd, Hv by congruence; cbn [rbind];
       destruct (skip_delim cs p2 "," false) as [[p3 b3]| |]; [|done..];
       cbn [rbind]; apply IHo).
  - intros pos arr b.
    rewrite (decode_array_unfold cs (S fuel)),
      (decode_array_unfold cs fuel).
    destruct (decode fuel cs pos (Some "]"%char)) as [[val p]| |] eqn:Hk;
      [|by rewrite IHd, Hk by congruence|done].
    rewrite IHd, Hk by congruence. cbn [rbind].
    destruct val; try done;
      (destruct (negb b); [done|]; cbn zeta;
       destruct (skip_delim cs p "," false) as [[p3 b3]| |]; [|done..];
       cbn [rbind]; apply IHa).
Qed.

Lemma decode_fuel_le fuel fuel' pos d :
  (fuel <= fuel')%nat -> decode fuel cs pos d <> OutOfFuel ->
  decode fuel' cs pos d = decode fuel cs pos d.
Proof.
  induction 1 as [|fuel' Hle IH]; [done|]. intros Hne.
  rewrite (proj1 (decode_more_fuel fuel')); [by apply IH|].
  rewrite IH by done. done.
Qed.

(** Two budgets on which the decoder ends give the same result. *)
Lemma decode_fuel_agree fuel fuel' pos d r :
  decode fuel cs pos d = Ok r -> decode fuel' cs pos d <> OutOfFuel ->
  decode fuel' cs pos d = Ok r.
Proof.
  intros Hok Hne. destruct (Nat.le_ge_cases fuel fuel') as [Hle|Hle].
  - rewrite (decode_fuel_le fuel fuel' pos d Hle) by congruence. done.
  - rewrite <- (decode_fuel_le fuel' fuel pos d Hle Hne). done.
Qed.
End Budget.

Section Main.
Context (h : Host).

Lemma plain_keys_not_array kvs :
  forallb (fun kv => plain_key (fst kv)) kvs = true ->
  String.eqb (kind_of (VTable kvs)) "array" = false.
Proof.
  destruct kvs as [|[k v] kvs]; [done|]. cbn [forallb fst kind_of].
  intros [Hk Hrest]%andb_true_iff. cbn [kind_of_loop].
  assert (rawget ((k, v) :: kvs) (VNum (LInt 1)) = VNil) as ->; [|done].
  unfold rawget. cbn [entry_of].
  destruct k as [| | |s|]; try done. cbn [raw_equal].
  induction kvs as [|[k' v'] kvs IH]; [done|].
  cbn [forallb fst] in Hrest. apply andb_true_iff in Hrest as [Hk' Hrest].
  cbn [entry_of]. destruct k'; try done. cbn [raw_equal]. by apply IH.
Qed.

Lemma distinct_keys_NoDup kvs :
  forallb (fun kv => plain_key (fst kv)) kvs = true ->
  distinct_keys kvs = true -> NoDup (map fst kvs).
Proof.
  induction kvs as [|[k v] kvs IH]; [constructor|].
  cbn [forallb fst distinct_keys map].
  intros [Hk Hks]%andb_true_iff [Hn Hd]%andb_true_iff.
  apply NoDup_cons. split; [|by apply IH].
  intros Hin. apply negb_true_iff in Hn.
  assert (existsb (fun kv : value * value => raw_equal (fst kv) k) kvs
          = true) as Hex; [|congruence].
  apply existsb_exists. apply list_elem_of_fmap in Hin as [[k' v'] [-> Hin]].
  exists (k', v'). split; [by apply list_elem_of_In|].
  cbn [fst] in *. destruct k' as [| | |s|]; try done. cbn.
  apply String.eqb_refl.
Qed.

Lemma entries_come_back l : forall items,
  Forall (fun kv => comes_back h (snd kv)) l ->
  forallb (fun kv => plain_key (fst kv)) l = true ->
  forallb (fun kv => portable (snd kv)) l = true ->
  Forall2 (fun kv item =>
             object_item (fst kv, (json_encode h true (fst kv),
                                   json_encode h false (snd kv))) = Ok item)
    l items ->
  exists es,
    items = map (fun e => entry_text (wire_key e) (wire_text e)) es /\
    Forall wire_entry_ok es /\
    Forall2 (fun kv e => fst kv = fst e /\ same_value (snd kv) (snd e))
      l (map (fun e => (VStr (wire_key e), wire_read e)) es).
Proof.
  induction l as [|[k v] l IH]; intros items Hc Hk Hp He.
  - inversion He; subst. exists []. repeat split; constructor.
  - inversion He as [|? item ? items' Hv Hrest]; subst.
    apply Forall_cons in Hc as [Hcv Hc]. cbn [forallb fst snd] in *.
    apply andb_true_iff in Hk as [Hk1 Hk].
    apply andb_true_iff in Hp as [Hp1 Hp].
    destruct (IH items' Hc Hk Hp Hrest) as (es & -> & Hok & Hsame).
    destruct k as [| | |s|]; try done. cbn [plain_key] in Hk1.
    unfold object_item in Hv. cbn [fst snd] in Hv.
    change (json_encode h true (VStr s)) with
      (@Ok encode_error _ (key_text s)) in Hv.
    cbn [rbind] in Hv.
    destruct (json_encode h false v) as [vtext| |] eqn:Hen; [|done..].
    cbn [rbind] in Hv. injection Hv as <-.
    destruct (Hcv Hp1 vtext Hen) as (v' & Hs & Hn & Hr).
    exists ((s, vtext, v') :: es). split; [done|]. split.
    + apply Forall_cons. by split.
    + cbn [map]. constructor; [done|exact Hsame].
Qed.

Lemma forallb_fmap {A B} (f : A -> B) (p : B -> bool) l :
  forallb p (map f l) = forallb (fun x => p (f x)) l.
Proof. induction l as [|x l IH]; [done|]. cbn. by rewrite IH. Qed.

Lemma portable_comes_back v : comes_back h v.
Proof.
  induction v as [| b | n | s | kvs IH] using value_nested_ind;
    intros Hp text He.
  - done.
  - injection He as <-. exists (VBool b). split; [by constructor|].
    split; [done|]. intros cs pos sp rest d Hpos Hf Hsp _ Hd.
    exists 1%nat. intros f Hfuel. destruct f as [|f]; [lia|].
    destruct b; by eapply decode_bool.
  - destruct n as [z|]; [|done]. injection He as <-.
    exists (VNum (LInt z)). split; [by constructor|]. split; [done|].
    intros cs pos sp rest d Hpos Hf Hsp Hc Hd.
    exists 1%nat. intros f Hfuel. destruct f as [|f]; [lia|].
    by eapply decode_integer.
  - injection He as <-. exists (VStr s). split; [by constructor|].
    split; [done|]. intros cs pos sp rest d Hpos Hf Hsp _ _.
    exists 1%nat. intros f Hfuel. destruct f as [|f]; [lia|].
    rewrite (decode_string f cs pos sp s rest d Hpos Hf Hsp).
    by rewrite (read_back_plain s Hp).
  - cbn [portable] in Hp. apply andb_true_iff in Hp as [Hshape Hvals].
    destruct kvs as [|kv0 kvs0].
    { rewrite encode_empty_table in He. injection He as <-.
      exists (VTable []). split.
      - by apply same_table with []; constructor.
      - split; [done|apply reads_empty_object]. }
    set (kvs := kv0 :: kvs0) in *.
    assert (Forall (fun kv => comes_back h (snd kv)) kvs) as Hback.
    { eapply Forall_impl; [exact IH|]. by intros kv [_ ?]. }
    apply orb_true_iff in Hshape as [Hseq|Hrec].
    + (* a sequence *)
      pose proof (seq_keys_entries kvs 1 Hseq) as Hkvs.
      set (vs := map snd kvs) in *.
      assert (forallb portable vs = true) as Hpv.
      { unfold vs. by rewrite forallb_fmap. }
      assert (Forall not_nil vs) as Hnn.
      { apply Forall_forall. intros v Hv. apply portable_not_nil.
        rewrite forallb_forall in Hpv. by apply Hpv, list_elem_of_In. }
      rewrite Hkvs in He. fold (array_of vs) in He.
      rewrite (encode_array h vs Hnn) in He.
      assert (is_nil vs = false) as Hvs by done. rewrite Hvs in He.
      destruct (in_order (map (json_encode h false) vs)) as [items| |]
        eqn:Hitems; [|done..].
      cbn [rbind] in He. injection He as <-.
      apply in_order_map in Hitems.
      destruct (items_come_back h vs items) as (vs' & Hss & Hns & Hrs);
        [by apply Forall_map|done|done|].
      exists (array_of vs'). split; [|split; [done|]].
      * rewrite Hkvs. apply same_table with (seq_entries 1 vs); [done|].
        by apply same_value_seq.
      * apply reads_array; [|done..].
        intros ->. by inversion Hitems.
    + (* distinct strings as keys *)
      apply andb_true_iff in Hrec as [Hkeys Hdist].
      rewrite json_encode_table in He.
      rewrite (plain_keys_not_array kvs Hkeys) in He.
      destruct (Permutation_map_inv _ _
                  (pairs_order_perm h _ (encoded_entries h kvs)))
        as (l & Hl & Hperm).
      rewrite Hl in He.
      destruct (in_order (map object_item _)) as [items| |] eqn:Hitems;
        [|done..].
      cbn [rbind] in He. injection He as <-.
      rewrite map_map in Hitems. apply in_order_map in Hitems.
      destruct (entries_come_back l items) as (es & -> & Hok & Hsame);
        [| | |exact Hitems|].
      { eapply Permutation_Forall; [exact Hperm|done]. }
      { apply forallb_forall. intros kv Hin.
        rewrite forallb_forall in Hkeys. apply Hkeys.
        by rewrite (Permutation_in _ (Permutation_sym Hperm) Hin)
          || eapply Permutation_in; [symmetry; exact Hperm|done]. }
      { apply forallb_forall. intros kv Hin.
        rewrite forallb_forall in Hvals. apply Hvals.
        eapply Permutation_in; [symmetry; exact Hperm|done]. }
      exists (VTable (map (fun e => (VStr (wire_key e), wire_read e)) es)).
      split; [by apply same_table with l|]. split; [done|].
      apply reads_object; [| done |].
      * intros ->. inversion Hsame; subst.
        by apply Permutation_nil_r in Hperm.
      * assert (NoDup (map fst l)) as Hnd.
        { pose proof (Permutation_map fst Hperm) as Hperm'.
          rewrite <- Hperm'. by apply distinct_keys_NoDup. }
        assert (map fst l = map VStr (map wire_key es)) as Hkeys'.
        { clear -Hsame. induction es as [|e es IHes] in l, Hsame |- *.
          - by inversion Hsame.
          - inversion Hsame as [|kv ? l' ? [Hk _] Hrest]; subst.
            cbn [map fst] in *. rewrite Hk. f_equal. by apply IHes. }
        rewrite Hkeys' in Hnd.
        by apply (NoDup_fmap_1 VStr).
Qed.
End Main.

Section Portable.
Context (h : Host).

Lemma portable_scalar_keyed v : portable v = true -> scalar_keyed v = true.
Proof.
  induction v as [| b | n | s | kvs IH] using value_nested_ind; try done.
  cbn [portable scalar_keyed]. intros [Hshape Hvals]%andb_true_iff.
  apply forallb_forall. intros [k v] Hin.
  rewrite forallb_forall in Hvals. specialize (Hvals _ Hin).
  rewrite Forall_forall in IH.
  destruct (IH (k, v) ltac:(by apply list_elem_of_In)) as [_ IHv].
  cbn [fst snd] in *. rewrite (IHv Hvals), andb_true_r.
  apply orb_true_iff in Hshape as [Hseq|Hrec].
  - pose proof (seq_keys_entries kvs 1 Hseq) as Hkvs.
    rewrite Hkvs in Hin. clear -Hin. revert Hin. generalize 1.
    induction (map snd kvs) as [|x l IHl]; intros i; [done|].
    cbn [seq_entries]. intros [[= <- _]|Hin]; [done|]. by eapply IHl.
  - apply andb_true_iff in Hrec as [Hkeys _].
    rewrite forallb_forall in Hkeys. specialize (Hkeys _ Hin).
    by destruct k.
Qed.
End Portable.

(** X21.  Values of any depth come back from their encoding.  For every
    value built from booleans, integers of 64 bits, strings without the
    five control characters, sequences, and tables with distinct such
    strings as keys, [json.encode] returns a text, and [json.decode] of that
    text returns a value and the position after the text; the value is the
    one encoded, up to the order in which [pairs] visited the fields of its
    tables. *)
Theorem portable_values_round_trip (h : Host) (v : value) :
  portable v = true ->
  exists text v',
    json_encode h false v = Ok text /\
    json_decode text = Ok (v', S (String.length text)) /\
    same_value v v'.
Proof.
  intros Hp.
  destruct (scalar_keyed_encodes h v (portable_scalar_keyed v Hp))
    as [text He].
  destruct (portable_comes_back h v Hp text He) as (v' & Hs & _ & Hr).
  exists text, v'. split; [done|]. split; [|done].
  destruct (Hr (list_ascii_of_string text) 1%nat [] [] None) as [F HF];
    try done.
  { unfold from_pos. cbn. by rewrite app_nil_r. }
  { by left. }
  unfold json_decode.
  apply (decode_fuel_agree _ F); [by apply HF|].
  apply decode_budget_enough.
Qed.

Lemma portable_values_round_trip_witness :
  portable nested_request = true /\
  exists text v',
    json_encode sample_host false nested_request = Ok text /\
    json_decode text = Ok (v', S (String.length text)) /\
    same_value nested_request v'.
Proof.
  assert (portable nested_request = true) as H by (vm_compute; reflexivity).
  split; [exact H|].
  exact (portable_values_round_trip sample_host nested_request H).
Defined.

Section AllStrings.

Lemma read_back_fixed s : read_back_string s = s -> plain_string s = true.
Proof.
  induction s as [|c s IH]; [done|]. cbn [read_back_string plain_string].
  intros [= Hc Hs]. rewrite (IH Hs), andb_true_r.
  unfold plain_char, read_back in *.
  destruct (Ascii.eqb_spec c ch_bs) as [->|_]; [done|].
  destruct (Ascii.eqb_spec c ch_ff) as [->|_]; [done|].
  destruct (Ascii.eqb_spec c ch_nl) as [->|_]; [done|].
  destruct (Ascii.eqb_spec c ch_cr) as [->|_]; [done|].
  destruct (Ascii.eqb_spec c ch_tab) as [->|_]; done.
Qed.
End AllStrings.

(** X22.  What comes back of a string, any string: [json.decode] of
    [json.encode] of a string never fails, stops right after the closing
    quote, and returns the string with every backspace, form feed, newline,
    carriage return and tab replaced by the letter of its escape ([b], [f],
    [n], [r], [t]); all other bytes, quotes and backslashes among them,
    come back as they were.  So the string comes back unchanged exactly
    when it has none of the five characters. *)
Theorem every_string_reads_back (h : Host) (s : string) :
  json_encode h false (VStr s) = Ok (key_text s) /\
  json_decode (key_text s) =
    Ok (VStr (read_back_string s), S (String.length (key_text s))) /\
  String.length (read_back_string s) = String.length s /\
  (read_back_string s = s <-> plain_string s = true).
Proof.
  split; [reflexivity|]. split; [|split].
  - unfold json_decode, decode_budget. rewrite Nat.add_comm.
    change (2 + ?n)%nat with (S (S n)).
    rewrite (decode_string _ (list_ascii_of_string (key_text s)) 1 [] s []
               None); try done.
    unfold from_pos. cbn [Nat.sub drop app]. by rewrite app_nil_r.
  - induction s as [|c s IH]; [done|]. cbn. by rewrite IH.
  - split; [apply read_back_fixed|apply read_back_plain].
Qed.

(** ** The fields of a table that came back *)

Section Fields.

Lemma raw_equal_simple k' k :
  simple_key k' = true -> raw_equal k' k = true <-> k' = k.
Proof.
  destruct k' as [| |[z|]|s|]; try done; intros _;
    destruct k as [| |[z'|]|s'|]; cbn; try (split; done).
  - rewrite Z.eqb_eq. split; congruence.
  - rewrite String.eqb_eq. split; congruence.
Qed.

Lemma entry_of_elem (l : list (value * value)) k v :
  Forall (fun kv => simple_key (fst kv) = true) l -> NoDup (map fst l) ->
  entry_of l k = Some v <-> (k, v) ∈ l.
Proof.
  intros Hs Hnd. induction l as [|[k' v'] l IH]; cbn [entry_of].
  - split; [done|]. by intros ?%elem_of_nil.
  - apply Forall_cons in Hs as [Hk Hs]. cbn [map fst] in Hnd.
    apply NoDup_cons in Hnd as [Hnotin Hnd]. cbn [fst] in Hk.
    rewrite elem_of_cons.
    destruct (raw_equal k' k) eqn:E.
    + apply (raw_equal_simple k' k Hk) in E as ->. split.
      * intros [= ->]. by left.
      * intros [[= ->]|Hin]; [done|]. exfalso. apply Hnotin.
        apply list_elem_of_fmap. by exists (k, v).
    + rewrite (IH Hs Hnd). split; [by right|].
      intros [[= -> ->]|Hin]; [|done]. exfalso.
      assert (raw_equal k' k' = true) as E'
        by (by apply (raw_equal_simple k' k' Hk)).
      congruence.
Qed.

Lemma entry_of_perm (l l' : list (value * value)) k :
  Forall (fun kv => simple_key (fst kv) = true) l -> NoDup (map fst l) ->
  Permutation l l' -> entry_of l k = entry_of l' k.
Proof.
  intros Hs Hnd Hp.
  assert (Forall (fun kv => simple_key (fst kv) = true) l') as Hs'
    by (by rewrite <- Hp).
  assert (NoDup (map fst l')) as Hnd'.
  { pose proof (Permutation_map fst Hp) as Hp'. by rewrite <- Hp'. }
  destruct (entry_of l k) as [v|] eqn:E.
  - symmetry. apply (entry_of_elem l' k v Hs' Hnd'). rewrite <- Hp.
    by apply (entry_of_elem l k v Hs Hnd).
  - destruct (entry_of l' k) as [v|] eqn:E'; [|done].
    apply (entry_of_elem l' k v Hs' Hnd') in E'. rewrite <- Hp in E'.
    apply (entry_of_elem l k v Hs Hnd) in E'. congruence.
Qed.

Lemma entry_of_same (l l' : list (value * value)) k :
  Forall2 (fun e e' => fst e = fst e' /\ same_value (snd e) (snd e')) l l' ->
  match entry_of l k, entry_of l' k with
  | Some v, Some v' => same_value v v'
  | None, None => True
  | _, _ => False
  end.
Proof.
  induction 1 as [|[k1 v1] [k2 v2] l l' [Hk Hv] _ IH]; [done|].
  cbn [fst snd] in *. subst k2. cbn [entry_of].
  by destruct (raw_equal k1 k).
Qed.

Lemma seq_entries_keys vs : forall i,
  Forall (fun kv : value * value => simple_key (fst kv) = true)
    (seq_entries i vs) /\
  NoDup (map fst (seq_entries i vs)) /\
  forall k, k ∈ map fst (seq_entries i vs) ->
            exists j, k = VNum (LInt j) /\ i <= j.
Proof.
  induction vs as [|v vs IH]; intros i; cbn [seq_entries map fst].
  - split; [constructor|]. split; [constructor|].
    by intros k ?%elem_of_nil.
  - destruct (IH (i + 1)) as (Hs & Hnd & Hk).
    split; [by constructor|]. split.
    + apply NoDup_cons. split; [|done]. intros Hin.
      destruct (Hk _ Hin) as (j & [= <-] & Hj). lia.
    + intros k [->|Hin]%elem_of_cons; [exists i; split; [done|lia]|].
      destruct (Hk _ Hin) as (j & -> & Hj). exists j. split; [done|lia].
Qed.

Lemma portable_keys kvs :
  portable (VTable kvs) = true ->
  Forall (fun kv => simple_key (fst kv) = true) kvs /\ NoDup (map fst kvs).
Proof.
  cbn [portable]. intros [Hshape _]%andb_true_iff.
  apply orb_true_iff in Hshape as [Hseq|Hrec].
  - rewrite (seq_keys_entries kvs 1 Hseq).
    destruct (seq_entries_keys (map snd kvs) 1) as (? & ? & _). done.
  - apply andb_true_iff in Hrec as [Hkeys Hdist]. split.
    + apply Forall_forall. intros kv Hin.
      rewrite forallb_forall in Hkeys.
      specialize (Hkeys kv ltac:(by apply list_elem_of_In)).
      by destruct (fst kv).
    + by apply distinct_keys_NoDup.
Qed.

Lemma same_value_fields kvs kvs' k :
  portable (VTable kvs) = true ->
  same_value (VTable kvs) (VTable kvs') ->
  same_value (rawget kvs k) (rawget kvs' k).
Proof.
  intros Hp Hs. destruct (portable_keys kvs Hp) as [Hsimple Hnd].
  inversion Hs as [? Ht|? ? l Hperm Hall]; subst; [done|].
  unfold rawget. rewrite (entry_of_perm kvs l k Hsimple Hnd Hperm).
  pose proof (entry_of_same l kvs' k Hall) as H.
  destruct (entry_of l k), (entry_of kvs' k); try done.
  by constructor.
Qed.
End Fields.

(** X23.  A table that came back has the fields it had.  For a table that
    is a sequence or has distinct plain strings as keys, and whose values
    come back, reading any key from the decoded table gives what
    reading it from the original gives, up to the order of the fields of
    nested tables; a field that is a string, a number or a boolean is read
    as exactly the same value, and a key that was absent is absent. *)
Theorem decoded_fields_are_the_encoded_fields (h : Host)
    (kvs : list (value * value)) :
  portable (VTable kvs) = true ->
  exists text kvs',
    json_encode h false (VTable kvs) = Ok text /\
    json_decode text = Ok (VTable kvs', S (String.length text)) /\
    (forall k, same_value (rawget kvs k) (rawget kvs' k)) /\
    (forall k, is_table (rawget kvs k) = false ->
               rawget kvs' k = rawget kvs k).
Proof.
  intros Hp.
  destruct (scalar_keyed_encodes h _ (portable_scalar_keyed _ Hp))
    as [text He].
  destruct (portable_comes_back h _ Hp text He) as (v' & Hs & _ & Hr).
  destruct (Hr (list_ascii_of_string text) 1%nat [] [] None) as [F HF];
    try done.
  { unfold from_pos. cbn. by rewrite app_nil_r. }
  { by left. }
  inversion Hs as [? Ht|? kvs' l Hperm Hall]; subst; [done|].
  exists text, kvs'. split; [done|]. split.
  { unfold json_decode. apply (decode_fuel_agree _ F); [by apply HF|].
    apply decode_budget_enough. }
  split.
  - intros k. by apply same_value_fields.
  - intros k Hk. pose proof (same_value_fields kvs kvs' k Hp Hs) as Hsame.
    inversion Hsame as [? ? E|? ? ? ? ? E1 E2]; subst; [done|].
    by rewrite <- E1 in Hk.
Qed.

Lemma decoded_fields_are_the_encoded_fields_witness :
  portable nested_request = true /\
  exists text kvs',
    json_encode sample_host false nested_request = Ok text /\
    json_decode text = Ok (VTable kvs', S (String.length text)) /\
    rawget kvs' (VStr "cmd") = VStr "set_rating".
Proof.
  assert (portable nested_request = true) as H by (vm_compute; reflexivity).
  split; [exact H|].
  destruct (decoded_fields_are_the_encoded_fields sample_host _ H)
    as (text & kvs' & He & Hd & _ & Hscalar).
  exists text, kvs'. split; [exact He|]. split; [exact Hd|].
  exact (Hscalar (VStr "cmd") eq_refl).
Defined.

(** ** Status records without a message *)

(** X24.  What [check_status] does with a status file that decodes but is
    not a table with a message: a table without [message], or with
    [message = false], a string and the value [false] leave the label as it
    is; a number and the value [true] make [check_status] raise "attempt to
    index a number value (local 'status')", respectively "a boolean value",
    since [status.message] is read from whatever was decoded.  In no case is
    anything but the label changed. *)
Theorem check_status_without_a_message (h : Host) (m : machine h)
    (content : string) :
  files m !! status_file h = Some content ->
  (forall kvs p,
     json_decode content = Ok (VTable kvs, p) ->
     truthy (rawget kvs (VStr "message")) = false ->
     check_status h m = (Ok tt, m)) /\
  (forall s p,
     json_decode content = Ok (VStr s, p) -> check_status h m = (Ok tt, m)) /\
  (forall p,
     json_decode content = Ok (VBool false, p) ->
     check_status h m = (Ok tt, m)) /\
  (forall n p,
     json_decode content = Ok (VNum n, p) ->
     check_status h m =
       (Raise (VStr (where_ h 473
                     +:+ "attempt to index a number value (local 'status')")),
        m)) /\
  (forall p,
     json_decode content = Ok (VBool true, p) ->
     check_status h m =
       (Raise (VStr (where_ h 473
                     +:+ "attempt to index a boolean value (local 'status')")),
        m)) /\
  files (check_status h m).2 = files m /\
  dt (check_status h m).2 = dt m /\
  prefs (check_status h m).2 = prefs m.
Proof.
  intros Hf. rewrite (check_status_present h m content Hf).
  split; [|split; [|split; [|split; [|split]]]].
  - intros kvs p -> Hm. cbn [truthy index]. by rewrite Hm.
  - by intros s p ->.
  - by intros p ->.
  - by intros n p ->.
  - by intros p ->.
  - destruct (json_decode content) as [[status p]|e|]; try done.
    destruct (truthy status); [|done].
    destruct (index h 473 "status" status "message") as [message|e|];
      try done.
    destruct (truthy message); [|done].
    by destruct (label_text h message).
Qed.

Lemma check_status_without_a_message_witness :
  files (sample_session (status_file sample_host) "5")
    !! status_file sample_host = Some "5" /\
  check_status sample_host (sample_session (status_file sample_host) "5") =
    (Raise (VStr "mcp_bridge.lua:473: attempt to index a number value (local 'status')"),
     sample_session (status_file sample_host) "5").
Proof.
  assert (files (sample_session (status_file sample_host) "5")
            !! status_file sample_host = Some "5") as H
    by (vm_compute; reflexivity).
  split; [exact H|].
  exact (proj1 (proj2 (proj2 (proj2
           (check_status_without_a_message sample_host _ _ H))))
           (LInt 5) 2%nat ltac:(vm_compute; reflexivity)).
Defined.

(** ** The files of the panel and of the export are not those of the
    command mailbox *)

Section FileNames.
Context (h : Host).

Lemma suffix_differ (a b x y : string) :
  String.length x = String.length y -> x <> y -> a +:+ x <> b +:+ y.
Proof.
  intros Hl Hne E. apply (f_equal list_ascii_of_string) in E.
  rewrite !list_ascii_app in E.
  apply app_inj_2 in E as [_ E]; [|by rewrite !list_ascii_length].
  apply Hne. rewrite <- (string_of_list_ascii_of_string x),
    <- (string_of_list_ascii_of_string y). by rewrite E.
Qed.

Lemma string_of_list_snoc l (d : ascii) :
  string_of_list_ascii (l ++ [d]) = string_of_list_ascii l +:+ str1 d.
Proof.
  induction l as [|c l IH]; [done|]. cbn [app string_of_list_ascii].
  by rewrite IH.
Qed.

(** A name that ends with a digit and [.json]. *)
Lemma numbered_name_ends (a : string) (z : Z) :
  exists init d,
    a +:+ pretty z +:+ ".json" = init +:+ String d ".json" /\
    is_digit d = true.
Proof.
  destruct (pretty_Z_digits z) as (sign & ds & Hz & _ & Hne & Hd & _).
  destruct (exists_last Hne) as (ds' & d & ->).
  exists (a +:+ string_of_list_ascii (sign ++ ds')), d. split.
  - rewrite <- (string_of_list_ascii_of_string (pretty z)), Hz.
    rewrite app_assoc, string_of_list_snoc.
    by rewrite !string_app_assoc.
  - rewrite forallb_app in Hd. apply andb_true_iff in Hd as [_ Hd].
    cbn in Hd. by rewrite andb_true_r in Hd.
Qed.

Lemma digit_json_differs d (name : string) :
  is_digit d = true ->
  (exists c rest, name = String c rest /\ is_digit c = false) ->
  String d ".json" <> name.
Proof. intros Hd (c & rest & -> & Hc) [= ->]. congruence. Qed.

Lemma numbered_name_no_mailbox_file (a : string) (z : Z) :
  mailbox_file h (a +:+ pretty z +:+ ".json") = false.
Proof.
  destruct (numbered_name_ends a z) as (init & d & -> & Hd).
  apply bool_decide_eq_false.
  unfold CMD_FILE, PROC_FILE, RESP_TMP_FILE, RESP_FILE.
  intros [E|[E|[E|E]]]; revert E.
  - change "/cmd.json" with ("/cm" +:+ "d.json").
    rewrite <- string_app_assoc. apply suffix_differ; [done|].
    apply digit_json_differs; [done|]. by eexists _, _.
  - change "/processing.json" with ("/processin" +:+ "g.json").
    rewrite <- string_app_assoc. apply suffix_differ; [done|].
    apply digit_json_differs; [done|]. by eexists _, _.
  - change "/response.json.tmp" with ("/response.js" +:+ "on.tmp").
    rewrite <- string_app_assoc. apply suffix_differ; [done|].
    apply digit_json_differs; [done|]. by eexists _, _.
  - change "/response.json" with ("/respons" +:+ "e.json").
    rewrite <- string_app_assoc. apply suffix_differ; [done|].
    apply digit_json_differs; [done|]. by eexists _, _.
Qed.

Lemma status_file_no_mailbox_file : mailbox_file h (status_file h) = false.
Proof.
  apply bool_decide_eq_false.
  unfold status_file, CMD_FILE, PROC_FILE, RESP_TMP_FILE, RESP_FILE.
  change "/gui_status.json" with ("/gui_statu" +:+ "s.json").
  rewrite <- string_app_assoc.
  intros [E|[E|[E|E]]]; revert E.
  - change "/cmd.json" with ("/cm" +:+ "d.json").
    rewrite <- (string_app_assoc (MCP_DIR h)). by apply suffix_differ.
  - change "/processing.json" with ("/processin" +:+ "g.json").
    rewrite <- (string_app_assoc (MCP_DIR h)). by apply suffix_differ.
  - change "/response.json.tmp" with ("/response.js" +:+ "on.tmp").
    rewrite <- (string_app_assoc (MCP_DIR h)). by apply suffix_differ.
  - change "/response.json" with ("/respons" +:+ "e.json").
    rewrite <- (string_app_assoc (MCP_DIR h)). by apply suffix_differ.
Qed.
End FileNames.

(** X25.  The bridge leaves the files of the panel and of the export alone.
    Whatever the two directories are, the request files of the buttons
    ([gui_request_<time>.json]), those of the export
    ([upload_<time>_<image>.json]) and the status file ([gui_status.json])
    are none of the four files [process_commands] works with, and a request
    file is never the status file; so a tick of [process_commands] leaves
    each of them as it was. *)
Theorem bridge_leaves_panel_files_alone (h : Host) (m : machine h)
    (now timestamp image_id : Z) :
  gui_request_path h now <> status_file h /\
  upload_request_path h timestamp image_id <> status_file h /\
  gui_request_path h now <> upload_request_path h timestamp image_id /\
  files (process_commands h m).2 !! gui_request_path h now
    = files m !! gui_request_path h now /\
  files (process_commands h m).2 !! upload_request_path h timestamp image_id
    = files m !! upload_request_path h timestamp image_id /\
  files (process_commands h m).2 !! status_file h = files m !! status_file h.
Proof.
  assert (forall a (z : Z), a +:+ pretty z +:+ ".json" <> status_file h)
    as Hst.
  { intros a z. destruct (numbered_name_ends a z) as (init & d & -> & Hd).
    unfold status_file.
    change "/gui_status.json" with ("/gui_statu" +:+ "s.json").
    rewrite <- string_app_assoc. apply suffix_differ; [done|].
    apply digit_json_differs; [done|]. by eexists _, _. }
  split; [|split; [|split; [|split; [|split]]]].
  - unfold gui_request_path. rewrite <- !string_app_assoc.
    rewrite (string_app_assoc _ _ ".json"). apply Hst.
  - unfold upload_request_path. rewrite <- !string_app_assoc.
    rewrite (string_app_assoc _ _ ".json"). apply Hst.
  - unfold gui_request_path, upload_request_path. intros E.
    apply (inj (String.app (DT_MCP_DIR h))) in E. done.
  - apply frame_of_tick. unfold gui_request_path.
    rewrite <- !string_app_assoc. rewrite (string_app_assoc _ _ ".json").
    apply numbered_name_no_mailbox_file.
  - apply frame_of_tick. unfold upload_request_path.
    rewrite <- !string_app_assoc. rewrite (string_app_assoc _ _ ".json").
    apply numbered_name_no_mailbox_file.
  - apply frame_of_tick. apply status_file_no_mailbox_file.
Qed.
